(** * The process console component ([processes.ts]), embedded in Rocq

    The component lists the processes served by the backend, filters them,
    starts them and edits their name, description and parameters.  The file
    is laid out as follows:

    - [Js]: the fragment of the JavaScript value semantics the component
      relies on (numbers as IEEE 754 binary64, strings, truthiness, property
      access, [toString], [Number], [toLowerCase], ...);
    - [Processes]: the component itself, one definition per method of the
      class, request callbacks included, and its life as a sequence of
      method calls and request completions;
    - [Store]: the edit session over an explicit object store, where object
      identity and sharing are visible;
    - [Spec], [Whole]: the vocabulary of the specification, and of the
      properties about integers;
    - [Samples], [StoreSamples]: sample data;
    - the properties, one module per concern: first those the
      specification states, then further properties of the component.

    Definitions come first, the properties proved about them afterwards. *)

From Stdlib Require Import ZArith NArith List String Ascii Bool Lia.
From Stdlib Require Import SpecFloat DecimalString.
From stdpp Require Import base option list strings gmap.

Local Open Scope Z_scope.

(* ===================================================================== *)
(** * Part I: JavaScript values                                           *)
(* ===================================================================== *)

Module Js.

(** ** Exceptions *)

(** The only exception the component can raise by itself is a [TypeError]:
    a property read on [null]/[undefined], a call of something that is not a
    function, or a conversion of an object to a primitive that finds no
    method to call. *)
Inductive JsError := TypeError.

Inductive result (A : Type) :=
| Ok (a : A)
| Throw (e : JsError).
Arguments Ok {A} a.
Arguments Throw {A} e.

(** [result] is a monad; stdpp's [x ← m; k] notation sequences evaluation and
    propagates a thrown exception. *)
#[global] Instance result_ret : MRet result := fun A a => Ok a.
#[global] Instance result_bind : MBind result := fun A B k m =>
  match m with
  | Ok a => k a
  | Throw e => Throw e
  end.

(** ** Strings

    A JavaScript string is a sequence of UTF-16 code units.  The model keeps
    the code units [0 .. 255] (Basic Latin and Latin-1 Supplement), one per
    [ascii]; every string literal of the component lies in that range. *)

Definition codeUnit (c : ascii) : N := N_of_ascii c.

Definition inRange (lo hi n : N) : bool := ((lo <=? n) && (n <=? hi))%N.

(** [String.prototype.toLowerCase] on one code unit: [A-Z], and the Latin-1
    capitals U+00C0..U+00DE except the multiplication sign U+00D7. *)
Definition isUpper (c : ascii) : bool :=
  let n := codeUnit c in
  inRange 65 90 n || (inRange 192 222 n && negb (n =? 215)%N).

Definition lowerUnit (c : ascii) : ascii :=
  if isUpper c then ascii_of_N (codeUnit c + 32) else c.

Fixpoint toLowerCase (s : string) : string :=
  match s with
  | EmptyString => EmptyString
  | String c r => String (lowerUnit c) (toLowerCase r)
  end.

(** StrWhiteSpaceChar: TAB, LF, VT, FF, CR, SP and NBSP (the members of
    WhiteSpace and LineTerminator below U+0100). *)
Definition isWhiteSpace (c : ascii) : bool :=
  let n := codeUnit c in
  inRange 9 13 n || (n =? 32)%N || (n =? 160)%N.

Fixpoint trimStart (s : string) : string :=
  match s with
  | String c r => if isWhiteSpace c then trimStart r else s
  | EmptyString => EmptyString
  end.

(** Drops the trailing white space: a character stays when something that is
    not white space follows it or it is not white space itself. *)
Fixpoint trimEnd (s : string) : string :=
  match s with
  | EmptyString => EmptyString
  | String c r =>
      match trimEnd r with
      | EmptyString => if isWhiteSpace c then EmptyString else String c EmptyString
      | r' => String c r'
      end
  end.

Definition trim (s : string) : string := trimEnd (trimStart s).

Fixpoint repeatChar (n : nat) (c : ascii) : string :=
  match n with
  | O => EmptyString
  | S k => String c (repeatChar k c)
  end.

(** Decimal rendering of a natural number, as in template literals and in
    array index keys. *)
Definition natToString (n : N) : string := NilZero.string_of_uint (N.to_uint n).

(** ** Numbers: IEEE 754 binary64 *)

Definition number := spec_float.

Definition prec : Z := 53.
Definition emax : Z := 1024.

Definition NaN : number := S754_nan.
Definition Infinity (negative : bool) : number := S754_infinity negative.

(** The Number value of an integer (round to nearest, ties to even). *)
Definition ofZ (z : Z) : number := binary_normalize prec emax z 0 false.

Definition isNaN (n : number) : bool :=
  match n with S754_nan => true | _ => false end.

Definition sub (x y : number) : number := SFsub prec emax x y.
Definition div (x y : number) : number := SFdiv prec emax x y.
Definition ltb (x y : number) : bool := SFltb x y.
Definition numEq (x y : number) : bool := SFeqb x y.

(** [Math.floor]. *)
Definition floor (x : number) : number :=
  match x with
  | S754_finite s m e =>
      if 0 <=? e then x
      else
        let d := 2 ^ (- e) in
        let q := Z.pos m / d in
        let r := Z.pos m mod d in
        if s then ofZ (- (if r =? 0 then q else q + 1))
        else ofZ q
  | _ => x
  end.

(** *** StringToNumber *)

(** The Number value of [m * 10^e], correctly rounded. *)
Definition decToNumber (negative : bool) (m : N) (e : Z) : number :=
  match m with
  | N0 => S754_zero negative
  | Npos p =>
      if 0 <=? e then binary_round prec emax negative (p * Z.to_pos (10 ^ e)) 0
      else
        let '(q, e', l) := SFdiv_core_binary prec emax (Z.pos p) 0 (10 ^ (- e)) 0 in
        binary_round_aux prec emax negative q e' l
  end.

Definition digitValue (c : ascii) : option N :=
  let n := codeUnit c in
  if inRange 48 57 n then Some (n - 48)%N
  else if inRange 97 102 n then Some (n - 87)%N
  else if inRange 65 70 n then Some (n - 55)%N
  else None.

Definition digitIn (radix : N) (c : ascii) : option N :=
  match digitValue c with
  | Some d => if (d <? radix)%N then Some d else None
  | None => None
  end.

(** Reads the longest run of digits of the radix at the head of [s]:
    the accumulated value, the number of digits read and the rest. *)
Fixpoint readDigits (radix : N) (s : string) (acc : N) (count : nat)
  : N * nat * string :=
  match s with
  | String c r =>
      match digitIn radix c with
      | Some d => readDigits radix r (acc * radix + d)%N (S count)
      | None => (acc, count, s)
      end
  | EmptyString => (acc, count, s)
  end.

(** NonDecimalIntegerLiteral: [0x], [0o], [0b] and at least one digit. *)
Definition parseRadix (radix : N) (digits : string) : number :=
  match readDigits radix digits 0%N 0%nat with
  | (v, S _, EmptyString) => decToNumber false v 0
  | _ => NaN
  end.

(** ExponentPart, the [e]/[E] already read: an optional sign and at least one
    digit, up to the end of the literal. *)
Definition parseExponent (s : string) : option Z :=
  let '(negative, r) :=
    match s with
    | String "+" r => (false, r)
    | String "-" r => (true, r)
    | _ => (false, s)
    end in
  match readDigits 10 r 0%N 0%nat with
  | (v, S _, EmptyString) => Some (if negative then - Z.of_N v else Z.of_N v)
  | _ => None
  end.

(** StrUnsignedDecimalLiteral. *)
Definition parseUnsignedDecimal (negative : bool) (s : string) : number :=
  if String.eqb s "Infinity" then Infinity negative
  else
    let '(ip, ni, r1) := readDigits 10 s 0%N 0%nat in
    let '(m, nf, r2) :=
      match r1 with
      | String "." r => readDigits 10 r ip 0%nat
      | _ => (ip, 0%nat, r1)
      end in
    match (ni + nf)%nat with
    | O => NaN
    | S _ =>
        match r2 with
        | EmptyString => decToNumber negative m (- Z.of_nat nf)
        | String c r =>
            if Ascii.eqb c "e" || Ascii.eqb c "E" then
              match parseExponent r with
              | Some x => decToNumber negative m (x - Z.of_nat nf)
              | None => NaN
              end
            else NaN
        end
    end.

(** StringNumericLiteral. *)
Definition StringToNumber (s : string) : number :=
  match trim s with
  | EmptyString => S754_zero false
  | String "+" r => parseUnsignedDecimal false r
  | String "-" r => parseUnsignedDecimal true r
  | String "0" (String c r) as t =>
      if Ascii.eqb c "x" || Ascii.eqb c "X" then parseRadix 16 r
      else if Ascii.eqb c "o" || Ascii.eqb c "O" then parseRadix 8 r
      else if Ascii.eqb c "b" || Ascii.eqb c "B" then parseRadix 2 r
      else parseUnsignedDecimal false t
  | t => parseUnsignedDecimal false t
  end.

(** *** Number::toString *)

(** [10^d <= num / den], for positive [num] and [den]. *)
Definition pow10le (d num den : Z) : bool :=
  if 0 <=? d then 10 ^ d * den <=? num else den <=? num * 10 ^ (- d).

(** [floor (log10 (num / den))]: the binary logarithms bound it from above
    within a few units, and the search walks down from that bound. *)
Fixpoint log10search (fuel : nat) (d num den : Z) : Z :=
  match fuel with
  | O => d
  | S fuel' => if pow10le d num den then d else log10search fuel' (d - 1) num den
  end.

Definition log10floor (num den : Z) : Z :=
  let l := Z.log2 num - Z.log2 den + 1 in
  log10search 8 (l * 30103 / 100000 + 1) num den.

(** The shortest decimal [s * 10^(n - k)], [s] of [k] digits, whose Number
    value is [x = num / den]; [fuel] more lengths are tried from [k] on.
    Of two candidates of the same length the one closer to [x] wins, the
    even one on a tie. *)
Fixpoint shortest (fuel : nat) (x : number) (num den d : Z) (k : Z)
  : Z * Z * Z :=
  let p := d - k + 1 in
  let lo := if 0 <=? p then num / (den * 10 ^ p) else (num * 10 ^ (- p)) / den in
  let hi := lo + 1 in
  let fits s := numEq (decToNumber false (Z.to_N s) p) x in
  let pick s := if s =? 10 ^ k then (10 ^ (k - 1), k, p + k + 1) else (s, k, p + k) in
  match fuel with
  | O => pick lo
  | S fuel' =>
      match fits lo, fits hi with
      | true, false => pick lo
      | false, true => pick hi
      | true, true =>
          (* 2x against (lo + hi) * 10^p *)
          let twice := 2 * num in
          let mid := if 0 <=? p then (lo + hi) * 10 ^ p * den
                     else (lo + hi) * den in
          let twice' := if 0 <=? p then twice else twice * 10 ^ (- p) in
          match twice' ?= mid with
          | Lt => pick lo
          | Gt => pick hi
          | Eq => if Z.even lo then pick lo else pick hi
          end
      | false, false => shortest fuel' x num den d (k + 1)
      end
  end.

Definition digitsOf (s : Z) : string := natToString (Z.to_N s).

Definition formatDecimal (s k n : Z) : string :=
  let ds := digitsOf s in
  if (k <=? n) && (n <=? 21) then
    ds +:+ repeatChar (Z.to_nat (n - k)) "0"
  else if (0 <? n) && (n <=? 21) then
    String.substring 0 (Z.to_nat n) ds +:+ "." +:+
    String.substring (Z.to_nat n) (Z.to_nat (k - n)) ds
  else if (-6 <? n) && (n <=? 0) then
    "0." +:+ repeatChar (Z.to_nat (- n)) "0" +:+ ds
  else
    let e := n - 1 in
    let es := (if e <? 0 then "-" else "+") +:+ natToString (Z.to_N (Z.abs e)) in
    if k =? 1 then ds +:+ "e" +:+ es
    else String.substring 0 1 ds +:+ "." +:+
         String.substring 1 (Z.to_nat (k - 1)) ds +:+ "e" +:+ es.

Definition NumberToString (x : number) : string :=
  match x with
  | S754_nan => "NaN"
  | S754_zero _ => "0"
  | S754_infinity s => if s then "-Infinity" else "Infinity"
  | S754_finite sg m e =>
      let num := if 0 <=? e then Z.pos m * 2 ^ e else Z.pos m in
      let den := if 0 <=? e then 1 else 2 ^ (- e) in
      let d := log10floor num den in
      let '(s, k, n) := shortest 17 (S754_finite false m e) num den d 1 in
      (if sg then "-" else "") +:+ formatDecimal s k n
  end.

(** ** Values *)

Inductive Prim :=
| PUndefined
| PNull
| PBool (b : bool)
| PNum (n : number)
| PStr (s : string).

(** Arrays and plain objects are immutable trees here: an object is the
    ordered list of its own enumerable properties.  Part III ([Store]) gives
    objects an address where sharing matters. *)
#[warnings="-register-all"] Inductive JsValue :=
| JPrim (p : Prim)
| JArr (items : list JsValue)
| JObj (props : list (string * JsValue)).

Abbreviation JUndefined := (JPrim PUndefined).
Abbreviation JNull := (JPrim PNull).
Abbreviation JBool b := (JPrim (PBool b)).
Abbreviation JNum n := (JPrim (PNum n)).
Abbreviation JStr s := (JPrim (PStr s)).

(** *** Primitives *)

Definition primNullish (p : Prim) : bool :=
  match p with PUndefined | PNull => true | _ => false end.

(** ToBoolean. *)
Definition primTruthy (p : Prim) : bool :=
  match p with
  | PUndefined | PNull => false
  | PBool b => b
  | PNum n => match n with S754_zero _ | S754_nan => false | _ => true end
  | PStr s => negb (String.eqb s "")
  end.

(** ToString. *)
Definition primToString (p : Prim) : string :=
  match p with
  | PUndefined => "undefined"
  | PNull => "null"
  | PBool b => if b then "true" else "false"
  | PNum n => NumberToString n
  | PStr s => s
  end.

(** ToNumber. *)
Definition primToNumber (p : Prim) : number :=
  match p with
  | PUndefined => NaN
  | PNull => S754_zero false
  | PBool b => if b then ofZ 1 else S754_zero false
  | PNum n => n
  | PStr s => StringToNumber s
  end.

(** [===] on primitives. *)
Definition primStrictEquals (a b : Prim) : bool :=
  match a, b with
  | PUndefined, PUndefined => true
  | PNull, PNull => true
  | PBool x, PBool y => Bool.eqb x y
  | PNum x, PNum y => numEq x y
  | PStr x, PStr y => String.eqb x y
  | _, _ => false
  end.

(** The elements of a list under their index keys, as the own properties
    of an array or of a string. *)
Fixpoint indexed {A : Type} (i : N) (l : list A) : list (string * A) :=
  match l with
  | [] => []
  | x :: r => (natToString i, x) :: indexed (i + 1)%N r
  end.

(** The code units of a string, each as a string of its own. *)
Fixpoint unitsOf (s : string) : list string :=
  match s with
  | EmptyString => []
  | String c r => String c EmptyString :: unitsOf r
  end.

(** *** Structured values *)

Definition nullish (v : JsValue) : bool :=
  match v with JPrim p => primNullish p | _ => false end.

Definition truthy (v : JsValue) : bool :=
  match v with JPrim p => primTruthy p | _ => true end.

Definition isArray (v : JsValue) : bool :=
  match v with JArr _ => true | _ => false end.

Definition isPrimitive (v : JsValue) : bool :=
  match v with JPrim _ => true | _ => false end.

(** The first property of that name, [undefined] when there is none. *)
Fixpoint getOwn {A : Type} (absent : A) (k : string) (props : list (string * A)) : A :=
  match props with
  | [] => absent
  | (k', v) :: r => if String.eqb k k' then v else getOwn absent k r
  end.

Definition hasOwn {A : Type} (k : string) (props : list (string * A)) : bool :=
  existsb (fun kv => String.eqb k (fst kv)) props.

(** [o.k = v] on the properties of [o]: the property is overwritten in
    place, or added after the others. *)
Fixpoint assign {A : Type} (k : string) (v : A) (props : list (string * A))
  : list (string * A) :=
  match props with
  | [] => [(k, v)]
  | (k', v') :: r =>
      if String.eqb k k' then (k, v) :: r else (k', v') :: assign k v r
  end.

(** The own enumerable properties, as the spread [{...v}] copies them. *)
Definition ownProps (v : JsValue) : list (string * JsValue) :=
  match v with
  | JObj props => props
  | JArr items => indexed 0%N items
  | JStr s => indexed 0%N (map (fun u => JStr u) (unitsOf s))
  | _ => []
  end.

(** [v?.k]: the property, or [undefined] when [v] is [null] or [undefined].
    Besides own properties arrays and strings have [length]; no other
    property name the component reads is found on a prototype. *)
Definition optProp (v : JsValue) (k : string) : JsValue :=
  match v with
  | JArr items =>
      if String.eqb k "length" then JNum (ofZ (Z.of_nat (length items)))
      else getOwn JUndefined k (ownProps v)
  | JStr s =>
      if String.eqb k "length" then JNum (ofZ (Z.of_nat (String.length s)))
      else getOwn JUndefined k (ownProps v)
  | _ => getOwn JUndefined k (ownProps v)
  end.

(** [v.k]: a [TypeError] when [v] is [null] or [undefined]. *)
Definition prop (v : JsValue) (k : string) : result JsValue :=
  if nullish v then Throw TypeError else Ok (optProp v k).

(** [a ?? b]. *)
Definition coalesce (a b : JsValue) : JsValue := if nullish a then b else a.

(** ToString, also the result of the method call [v.toString()] on a value
    that is not nullish.  An array joins its elements with commas, [null]
    and [undefined] elements as empty strings.  A plain object renders as
    [[object Object]] through [Object.prototype.toString]; an own property
    named [toString] hides that method and is not callable, hence the
    [TypeError]. *)
Fixpoint toString (v : JsValue) : result string :=
  match v with
  | JPrim p => Ok (primToString p)
  | JArr items =>
      (fix join (l : list JsValue) : result string :=
         match l with
         | [] => Ok ""
         | x :: r =>
             s ← (if nullish x then Ok "" else toString x);
             match r with
             | [] => Ok s
             | _ => t ← join r; Ok (s +:+ "," +:+ t)
             end
         end) items
  | JObj props =>
      if hasOwn "toString" props then Throw TypeError else Ok "[object Object]"
  end.

(** ToNumber, as [Number(v)] applies it: a structured value is first turned
    into a string ([valueOf] returns the object itself). *)
Definition toNumber (v : JsValue) : result number :=
  match v with
  | JPrim p => Ok (primToNumber p)
  | _ => s ← toString v; Ok (StringToNumber s)
  end.

(** Structural equality of values. *)
Fixpoint sameValue (a b : JsValue) : bool :=
  match a, b with
  | JPrim (PNum x), JPrim (PNum y) =>
      match x, y with
      | S754_nan, S754_nan => true
      | S754_zero s, S754_zero t => Bool.eqb s t
      | _, _ => numEq x y
      end
  | JPrim p, JPrim q => primStrictEquals p q
  | JArr xs, JArr ys =>
      (fix all2 (l1 l2 : list JsValue) : bool :=
         match l1, l2 with
         | [], [] => true
         | x :: r1, y :: r2 => sameValue x y && all2 r1 r2
         | _, _ => false
         end) xs ys
  | JObj ps, JObj qs =>
      (fix all2 (l1 l2 : list (string * JsValue)) : bool :=
         match l1, l2 with
         | [], [] => true
         | (k, x) :: r1, (k', y) :: r2 =>
             String.eqb k k' && sameValue x y && all2 r1 r2
         | _, _ => false
         end) ps qs
  | _, _ => false
  end.

(** [a === b].  Primitives compare by value.  Two objects are equal when
    they are one and the same object; a tree carries no identity, and the
    model takes two structured operands with the same contents for the same
    object.  The component applies [===] to process identifiers only. *)
Definition strictEquals (a b : JsValue) : bool :=
  match a, b with
  | JPrim p, JPrim q => primStrictEquals p q
  | JPrim _, _ | _, JPrim _ => false
  | _, _ => sameValue a b
  end.

(** [Array.prototype.some]: stops at the first element the callback
    accepts; calling it on anything but an array is a [TypeError]. *)
Fixpoint someOf {A : Type} (f : A -> result bool) (l : list A) : result bool :=
  match l with
  | [] => Ok false
  | x :: r => b ← f x; if (b : bool) then Ok true else someOf f r
  end.

Definition arraySome (f : JsValue -> result bool) (v : JsValue) : result bool :=
  match v with
  | JArr items => someOf f items
  | _ => Throw TypeError
  end.

(** [Array.prototype.map]. *)
Definition arrayMap {B : Type} (f : JsValue -> result B) (v : JsValue)
  : result (list B) :=
  match v with
  | JArr items => mapM f items
  | _ => Throw TypeError
  end.

(** [Array.prototype.findIndex], [None] for [-1]. *)
Fixpoint findIndex {A : Type} (f : A -> bool) (l : list A) : option nat :=
  match l with
  | [] => None
  | x :: r => if f x then Some O else S <$> findIndex f r
  end.

End Js.

(* ===================================================================== *)
(** * Part II: the component                                              *)
(* ===================================================================== *)

Module Processes.
Import Js.

(** ** Data model *)

(** The view model [loadProcesses] builds for each raw record. *)
Record ProcessRecord := {
  id : JsValue;
  name : JsValue;
  workflowName : JsValue;
  description : JsValue;
  parameters : JsValue;
  active : string;
  status : JsValue;
  startedAt : JsValue;
  canExecute : bool
}.

(** The body of the partial update request. *)
Record PatchBody := {
  body_name : JsValue;
  body_description : JsValue;
  body_parameters : list JsValue
}.

(** The fields of the class.  [processService] and [snackBar] are injected
    collaborators: what the component asks of them is recorded as an
    [Effect].  [startingProcessIds] is a [Set<string>]. *)
Record Component := {
  processes : list ProcessRecord;
  loading : bool;
  error : option string;
  showOnlyExecutable : bool;
  startingProcessIds : gset string;
  selectedProcess : option ProcessRecord;
  editedProcess : option ProcessRecord;
  editedParameters : list JsValue
}.

Inductive Effect :=
| HttpGetProcesses
| HttpStartProcess (pid : string)
| HttpPatchProcess (pid : string) (body : PatchBody)
| SnackBarOpen (message : JsValue) (action : string) (duration : Z)
| ConsoleError (label : string) (err : JsValue).

(** What a method call or a callback leaves behind: the component, what it
    asked of its collaborators, in order, and the exception that ended it,
    if any. *)
Record Outcome := {
  after : Component;
  effects : list Effect;
  thrown : option JsError
}.

Definition done (st : Component) (effs : list Effect) : Outcome :=
  {| after := st; effects := effs; thrown := None |}.

Definition raise (st : Component) (effs : list Effect) (e : JsError) : Outcome :=
  {| after := st; effects := effs; thrown := Some e |}.

(** Field assignments. *)
Definition setProcesses (ps : list ProcessRecord) (st : Component) : Component :=
  {| processes := ps; loading := loading st; error := error st;
     showOnlyExecutable := showOnlyExecutable st;
     startingProcessIds := startingProcessIds st;
     selectedProcess := selectedProcess st;
     editedProcess := editedProcess st;
     editedParameters := editedParameters st |}.

Definition setShowOnlyExecutable (b : bool) (st : Component) : Component :=
  {| processes := processes st; loading := loading st; error := error st;
     showOnlyExecutable := b;
     startingProcessIds := startingProcessIds st;
     selectedProcess := selectedProcess st;
     editedProcess := editedProcess st;
     editedParameters := editedParameters st |}.

Definition setStartingProcessIds (ids : gset string) (st : Component) : Component :=
  {| processes := processes st; loading := loading st; error := error st;
     showOnlyExecutable := showOnlyExecutable st;
     startingProcessIds := ids;
     selectedProcess := selectedProcess st;
     editedProcess := editedProcess st;
     editedParameters := editedParameters st |}.

Definition setSelectedProcess (p : option ProcessRecord) (st : Component) : Component :=
  {| processes := processes st; loading := loading st; error := error st;
     showOnlyExecutable := showOnlyExecutable st;
     startingProcessIds := startingProcessIds st;
     selectedProcess := p;
     editedProcess := editedProcess st;
     editedParameters := editedParameters st |}.

Definition setEditedProcess (p : option ProcessRecord) (st : Component) : Component :=
  {| processes := processes st; loading := loading st; error := error st;
     showOnlyExecutable := showOnlyExecutable st;
     startingProcessIds := startingProcessIds st;
     selectedProcess := selectedProcess st;
     editedProcess := p;
     editedParameters := editedParameters st |}.

Definition setEditedParameters (ps : list JsValue) (st : Component) : Component :=
  {| processes := processes st; loading := loading st; error := error st;
     showOnlyExecutable := showOnlyExecutable st;
     startingProcessIds := startingProcessIds st;
     selectedProcess := selectedProcess st;
     editedProcess := editedProcess st;
     editedParameters := ps |}.

(** The field initialisers of the class. *)
Definition initial : Component :=
  {| processes := []; loading := false; error := None;
     showOnlyExecutable := false;
     startingProcessIds := ∅;
     selectedProcess := None;
     editedProcess := None;
     editedParameters := [] |}.

(** ** [displayedProcesses]

    [processes] is declared [Array<any>] and only ever holds an array, so
    the guard [if (!this.processes) return []] never fires. *)
Definition displayedProcesses (st : Component) : list ProcessRecord :=
  if negb (showOnlyExecutable st) then processes st
  else filter (fun p => canExecute p = true) (processes st).

(** ** [toggleEjecutable] *)
Definition toggleEjecutable (st : Component) : Outcome :=
  done (setShowOnlyExecutable (negb (showOnlyExecutable st)) st) [].

(** ** [loadProcesses] *)

(** The callback given to [tags.some]. *)
Definition isWebhookTag (t : JsValue) : result bool :=
  s ← toString (coalesce (optProp t "name") (JStr ""));
  Ok (String.eqb (toLowerCase s) "webhook").

(** The [canExecute] initialiser, [p.workflow] already read. *)
Definition canExecuteOf (workflow : JsValue) : result bool :=
  if truthy (optProp workflow "tags") then
    tags ← prop workflow "tags";
    if isArray tags then
      tags' ← prop workflow "tags";
      arraySome isWebhookTag tags'
    else Ok false
  else Ok false.

(** The object literal of the [res.map] callback, field by field. *)
Definition project (p : JsValue) : result ProcessRecord :=
  p_id ← prop p "id";
  p_name ← prop p "name";
  workflow ← prop p "workflow";
  p_description ← prop p "description";
  p_parameters ← prop p "parameters";
  workflow' ← prop p "workflow";
  executionBrief ← prop p "executionBrief";
  executionBrief' ← prop p "executionBrief";
  workflow'' ← prop p "workflow";
  can ← canExecuteOf workflow'';
  Ok {| id := p_id;
        name := p_name;
        workflowName := coalesce (optProp workflow "name") (JStr "");
        description := p_description;
        parameters := coalesce p_parameters (JArr []);
        active := if truthy (optProp workflow' "active")
                  then "Proceso Activo" else "Proceso Inactivo";
        status := coalesce (optProp executionBrief "status") (JStr "");
        startedAt := coalesce (optProp executionBrief' "startedAt") JNull;
        canExecute := can |}.

(** The method itself only subscribes to [getProcesses()]. *)
Definition loadProcesses (st : Component) : Outcome :=
  done st [HttpGetProcesses].

(** The subscriber: [res] is what [getProcesses()] emitted. *)
Definition loadProcesses_next (res : JsValue) (st : Component) : Outcome :=
  match arrayMap project res with
  | Ok ps => done (setProcesses ps st) []
  | Throw e => raise st [] e
  end.

(** ** [ngOnInit] *)
Definition ngOnInit (st : Component) : Outcome := loadProcesses st.

(** ** [selectProcess]

    [(process.parameters || []).map(p => ({ ...p }))], also used by
    [cancelEdit]. *)
Definition copyParameters (params : JsValue) : result (list JsValue) :=
  arrayMap (fun p => Ok (JObj (ownProps p)))
           (if truthy params then params else JArr []).

(** On immutable values the spread copy of a record is the record.  The
    first two assignments are done when the third statement throws. *)
Definition selectProcess (process : ProcessRecord) (st : Component) : Outcome :=
  let st1 := setSelectedProcess (Some process) st in
  let st2 := setEditedProcess (Some process) st1 in
  match copyParameters (parameters process) with
  | Ok ps => done (setEditedParameters ps st2) []
  | Throw e => raise st2 [] e
  end.

(** ** [isStarting] *)
Definition isStarting (process : option ProcessRecord) (st : Component)
  : result bool :=
  match process with
  | None => Ok false
  | Some p => i ← toString (id p); Ok (bool_decide (i ∈ startingProcessIds st))
  end.

(** ** [startProcess] *)
Definition startProcess (process : option ProcessRecord) (st : Component)
  : Outcome :=
  match process with
  | None => done st []
  | Some p =>
      if negb (truthy (id p)) then done st []
      else
        match toString (id p) with
        | Throw e => raise st [] e
        | Ok i =>
            if bool_decide (i ∈ startingProcessIds st) then done st []
            else done (setStartingProcessIds ({[i]} ∪ startingProcessIds st) st)
                      [HttpStartProcess i]
        end
  end.

(** The [next] callback of the start request for [i]. *)
Definition startProcess_next (i : string) (res : JsValue) (st : Component)
  : Outcome :=
  let success := truthy (optProp res "success") in
  let message :=
    coalesce (optProp res "message")
             (JStr (if success then "Proceso iniciado"
                    else "Error al iniciar proceso")) in
  let displayMessage :=
    coalesce (optProp res "message")
             (JStr (if truthy (optProp res "success") then "Proceso iniciado"
                    else "No se pudo iniciar el proceso")) in
  let shown := [SnackBarOpen displayMessage "Cerrar" 4000] in
  let st1 := setStartingProcessIds (startingProcessIds st ∖ {[i]}) st in
  if truthy (optProp res "success") then
    let reload := loadProcesses st1 in
    {| after := after reload;
       effects := shown ++ effects reload;
       thrown := thrown reload |}
  else done st1 shown.

(** The [error] callback of the start request for [i]. *)
Definition startProcess_error (i : string) (err : JsValue) (st : Component)
  : Outcome :=
  let errMsg :=
    coalesce (optProp (optProp err "error") "message")
      (coalesce (optProp err "message")
         (coalesce (optProp err "statusText") (JStr "Error de red"))) in
  done (setStartingProcessIds (startingProcessIds st ∖ {[i]}) st)
       [ConsoleError "Error starting process" err;
        SnackBarOpen errMsg "Cerrar" 4000].

(** ** [cancelEdit] *)
Definition cancelEdit (st : Component) : Outcome :=
  match selectedProcess st with
  | None => done st []
  | Some sel =>
      match copyParameters (parameters sel) with
      | Throw e => raise st [] e
      | Ok ps =>
          done (setSelectedProcess None
                  (setEditedProcess None (setEditedParameters ps st))) []
      end
  end.

(** ** [updateSelectedProcess] *)

(** The callback of [editedParameters.map]. *)
Definition normalizeParameter (p : JsValue) : result JsValue :=
  let copy := ownProps p in
  if strictEquals (getOwn JUndefined "type" copy) (JStr "number") then
    n ← toNumber (getOwn JUndefined "value" copy);
    Ok (JObj (assign "value"
                (if isNaN n then getOwn JUndefined "value" copy else JNum n)
                copy))
  else Ok (JObj copy).

Definition updateSelectedProcess (st : Component) : Outcome :=
  match selectedProcess st with
  | None => done st []
  | Some sel =>
      match
        paramsToSend ← mapM normalizeParameter (editedParameters st);
        edited ← (match editedProcess st with
                  | Some e => Ok e
                  | None => Throw TypeError
                  end);
        let body := {| body_name := name edited;
                       body_description := description edited;
                       body_parameters := paramsToSend |} in
        i ← toString (id sel);
        Ok (HttpPatchProcess i body)
      with
      | Ok request => done st [request]
      | Throw e => raise st [] e
      end
  end.

(** The [next] callback of the patch request; [body] is the object the
    method built, [body.parameters] being [paramsToSend].  [findIndex] reads
    [this.selectedProcess.id] once per inspected element. *)
Definition updateSelectedProcess_next (body : PatchBody) (res : JsValue)
    (st : Component) : Outcome :=
  match
    match processes st, selectedProcess st with
    | [], _ => Ok None
    | _ :: _, None => Throw TypeError
    | ps, Some sel => Ok (findIndex (fun p => strictEquals (id p) (id sel)) ps)
    end
  with
  | Throw e => raise st [] e
  | Ok idx =>
      let ps :=
        match idx with
        | Some i =>
            match processes st !! i with
            | Some p =>
                <[ i := {| id := id p;
                           name := body_name body;
                           workflowName := workflowName p;
                           description := body_description body;
                           parameters := JArr (body_parameters body);
                           active := active p;
                           status := status p;
                           startedAt := startedAt p;
                           canExecute := canExecute p |} ]> (processes st)
            | None => processes st
            end
        | None => processes st
        end in
      done (setEditedParameters []
              (setEditedProcess None
                 (setSelectedProcess None (setProcesses ps st)))) []
  end.

(** The [error] callback of the patch request. *)
Definition updateSelectedProcess_error (err : JsValue) (st : Component)
  : Outcome :=
  done st [ConsoleError "Error updating process" err].

(** ** [formatTimeAgo]

    [parse s] stands for [new Date(s).getTime()] and [now] for [Date.now()]:
    the time values, in milliseconds, [NaN] for a date that does not
    parse. *)
Definition formatTimeAgo (parse : string -> number) (now : number)
    (isoDate : option string) : string :=
  match isoDate with
  | None => ""
  | Some iso =>
      if negb (primTruthy (PStr iso)) then ""
      else
        let then_ := parse iso in
        let diff := floor (div (sub now then_) (ofZ 1000)) in
        if ltb diff (ofZ 60) then "Hace " +:+ NumberToString diff +:+ " seg"
        else
          let mins := floor (div diff (ofZ 60)) in
          if ltb mins (ofZ 60) then "Hace " +:+ NumberToString mins +:+ " min"
          else
            let hours := floor (div mins (ofZ 60)) in
            if ltb hours (ofZ 24) then "Hace " +:+ NumberToString hours +:+ " h"
            else
              let days := floor (div hours (ofZ 24)) in
              "Hace " +:+ NumberToString days +:+ " d"
  end.

(** ** The component at run time

    Between two events the component is idle.  An event is a call of one of
    its methods (by the framework or from the template), the completion of a
    request it has in flight (a request completes once, with a [next] value
    or with an [error]), or an edit of the drafts, [editedProcess] and
    [editedParameters], through the form they are bound to. *)

Inductive Method :=
| CallNgOnInit
| CallToggleEjecutable
| CallLoadProcesses
| CallSelectProcess (process : ProcessRecord)
| CallStartProcess (process : option ProcessRecord)
| CallCancelEdit
| CallUpdateSelectedProcess.

Definition call (m : Method) (st : Component) : Outcome :=
  match m with
  | CallNgOnInit => ngOnInit st
  | CallToggleEjecutable => toggleEjecutable st
  | CallLoadProcesses => loadProcesses st
  | CallSelectProcess p => selectProcess p st
  | CallStartProcess p => startProcess p st
  | CallCancelEdit => cancelEdit st
  | CallUpdateSelectedProcess => updateSelectedProcess st
  end.

Inductive Reply :=
| Next (res : JsValue)
| Error (err : JsValue).

(** The callbacks subscribed to each request; [loadProcesses] subscribes no
    [error] callback. *)
Definition settle (request : Effect) (r : Reply) (st : Component) : Outcome :=
  match request, r with
  | HttpGetProcesses, Next res => loadProcesses_next res st
  | HttpStartProcess i, Next res => startProcess_next i res st
  | HttpStartProcess i, Error err => startProcess_error i err st
  | HttpPatchProcess _ body, Next res => updateSelectedProcess_next body res st
  | HttpPatchProcess _ _, Error err => updateSelectedProcess_error err st
  | _, _ => done st []
  end.

Definition isRequest (e : Effect) : bool :=
  match e with
  | HttpGetProcesses | HttpStartProcess _ | HttpPatchProcess _ _ => true
  | _ => false
  end.

(** The component, the requests in flight (oldest first) and everything
    shown or logged so far. *)
Record World := {
  component : Component;
  pending : list Effect;
  shown : list Effect
}.

Definition boot : World :=
  {| component := initial; pending := []; shown := [] |}.

Definition absorb (o : Outcome) (inFlight : list Effect) (w : World) : World :=
  {| component := after o;
     pending := inFlight ++ List.filter isRequest (effects o);
     shown := shown w ++ List.filter (fun e => negb (isRequest e)) (effects o) |}.

Inductive step : World -> World -> Prop :=
| step_call (w : World) (m : Method) :
    step w (absorb (call m (component w)) (pending w) w)
| step_settle (w : World) (older newer : list Effect) (request : Effect) (r : Reply) :
    pending w = older ++ request :: newer ->
    step w (absorb (settle request r (component w)) (older ++ newer) w)
| step_edit (w : World) (draft : option ProcessRecord) (drafts : list JsValue) :
    step w {| component := setEditedParameters drafts
                             (setEditedProcess draft (component w));
              pending := pending w;
              shown := shown w |}.

Definition reachable (w : World) : Prop := rtc step boot w.

(** The identifiers of the start requests in flight. *)
Fixpoint startsInFlight (requests : list Effect) : list string :=
  match requests with
  | [] => []
  | HttpStartProcess i :: r => i :: startsInFlight r
  | _ :: r => startsInFlight r
  end.

End Processes.

(* ===================================================================== *)
(** * Part III: the edit session over an object store                     *)
(* ===================================================================== *)

(** [selectProcess] and [cancelEdit] copy objects, and what their copies
    share with the originals is a matter of object identity.  Here every
    object and array lives at an address of a store, and a value is a
    primitive or a reference. *)

Module Store.
Import Js.

Abbreviation loc := nat.

Inductive Val :=
| VPrim (p : Prim)
| VRef (l : loc).

Inductive Cell :=
| CObj (props : list (string * Val))
| CArr (items : list Val).

Abbreviation Heap := (list Cell).

(** A new object gets the next free address. *)
Definition alloc (c : Cell) (h : Heap) : loc * Heap := (length h, h ++ [c]).

Definition nullish (v : Val) : bool :=
  match v with VPrim p => primNullish p | VRef _ => false end.

Definition truthy (v : Val) : bool :=
  match v with VPrim p => primTruthy p | VRef _ => true end.

(** The own enumerable properties, as the spread [{...v}] copies them. *)
Definition ownProps (h : Heap) (v : Val) : list (string * Val) :=
  match v with
  | VRef l =>
      match h !! l with
      | Some (CObj props) => props
      | Some (CArr items) => indexed 0%N items
      | None => []
      end
  | VPrim (PStr s) => indexed 0%N (map (fun u => VPrim (PStr u)) (unitsOf s))
  | VPrim _ => []
  end.

(** [v?.k] and [v.k]. *)
Definition optProp (h : Heap) (v : Val) (k : string) : Val :=
  match v with
  | VRef l =>
      match h !! l with
      | Some (CArr items) =>
          if String.eqb k "length"
          then VPrim (PNum (ofZ (Z.of_nat (length items))))
          else getOwn (VPrim PUndefined) k (ownProps h v)
      | _ => getOwn (VPrim PUndefined) k (ownProps h v)
      end
  | VPrim (PStr s) =>
      if String.eqb k "length"
      then VPrim (PNum (ofZ (Z.of_nat (String.length s))))
      else getOwn (VPrim PUndefined) k (ownProps h v)
  | VPrim _ => VPrim PUndefined
  end.

Definition prop (h : Heap) (v : Val) (k : string) : result Val :=
  if nullish v then Throw TypeError else Ok (optProp h v k).

(** The four fields of the component the edit session reads or writes. *)
Record Editor := {
  processes : Val;
  selectedProcess : Val;
  editedProcess : Val;
  editedParameters : Val
}.

Record Outcome := {
  heap : Heap;
  editor : Editor;
  thrown : option JsError
}.

Definition setSelectedProcess (v : Val) (ed : Editor) : Editor :=
  {| processes := processes ed; selectedProcess := v;
     editedProcess := editedProcess ed;
     editedParameters := editedParameters ed |}.

Definition setEditedProcess (v : Val) (ed : Editor) : Editor :=
  {| processes := processes ed; selectedProcess := selectedProcess ed;
     editedProcess := v;
     editedParameters := editedParameters ed |}.

Definition setEditedParameters (v : Val) (ed : Editor) : Editor :=
  {| processes := processes ed; selectedProcess := selectedProcess ed;
     editedProcess := editedProcess ed;
     editedParameters := v |}.

(** The callback [p => ({ ...p })] along the items: one new object each. *)
Fixpoint copyItems (h : Heap) (items : list Val) : list Val * Heap :=
  match items with
  | [] => ([], h)
  | p :: r =>
      let '(l, h1) := alloc (CObj (ownProps h p)) h in
      let '(ls, h2) := copyItems h1 r in
      (VRef l :: ls, h2)
  end.

(** [(params || []).map(p => ({ ...p }))]: the new array and the store. *)
Definition copyParameters (h : Heap) (params : Val) : result (Val * Heap) :=
  let '(receiver, h0) :=
    if truthy params then (params, h)
    else let '(l, h') := alloc (CArr []) h in (VRef l, h') in
  match receiver with
  | VRef l =>
      match h0 !! l with
      | Some (CArr items) =>
          let '(copies, h1) := copyItems h0 items in
          let '(a, h2) := alloc (CArr copies) h1 in
          Ok (VRef a, h2)
      | _ => Throw TypeError
      end
  | VPrim _ => Throw TypeError
  end.

(** [selectProcess(process)]. *)
Definition selectProcess (h : Heap) (ed : Editor) (process : Val) : Outcome :=
  let ed1 := setSelectedProcess process ed in
  let '(l, h1) := alloc (CObj (ownProps h process)) h in
  let ed2 := setEditedProcess (VRef l) ed1 in
  match params ← prop h1 process "parameters"; copyParameters h1 params with
  | Ok (copies, h2) =>
      {| heap := h2; editor := setEditedParameters copies ed2; thrown := None |}
  | Throw e => {| heap := h1; editor := ed2; thrown := Some e |}
  end.

(** [cancelEdit()]. *)
Definition cancelEdit (h : Heap) (ed : Editor) : Outcome :=
  if negb (truthy (selectedProcess ed)) then
    {| heap := h; editor := ed; thrown := None |}
  else
    match
      params ← prop h (selectedProcess ed) "parameters"; copyParameters h params
    with
    | Ok (copies, h1) =>
        {| heap := h1;
           editor := setSelectedProcess (VPrim PNull)
                       (setEditedProcess (VPrim PNull)
                          (setEditedParameters copies ed));
           thrown := None |}
    | Throw e => {| heap := h; editor := ed; thrown := Some e |}
    end.

(** What editing a draft amounts to: [o.k = v] on the object at [l], and
    [a[i] = v] on the array at [l] (within bounds). *)
Definition assignProp (h : Heap) (l : loc) (k : string) (v : Val) : Heap :=
  match h !! l with
  | Some (CObj props) => <[ l := CObj (assign k v props) ]> h
  | _ => h
  end.

Definition assignItem (h : Heap) (l : loc) (i : nat) (v : Val) : Heap :=
  match h !! l with
  | Some (CArr items) => <[ l := CArr (<[ i := v ]> items) ]> h
  | _ => h
  end.

(** The objects a value leads to, through any number of properties and
    items. *)
Inductive reaches (h : Heap) : Val -> loc -> Prop :=
| reaches_self (l : loc) :
    reaches h (VRef l) l
| reaches_prop (l : loc) (props : list (string * Val)) (k : string) (v : Val) (l' : loc) :
    h !! l = Some (CObj props) ->
    (k, v) ∈ props ->
    reaches h v l' ->
    reaches h (VRef l) l'
| reaches_item (l : loc) (items : list Val) (v : Val) (l' : loc) :
    h !! l = Some (CArr items) ->
    v ∈ items ->
    reaches h v l' ->
    reaches h (VRef l) l'.

(** Two values alias when some object is reachable from both. *)
Definition aliased (h : Heap) (a b : Val) : Prop :=
  exists l, reaches h a l /\ reaches h b l.

(** Every reference points into the store. *)
Definition closedVal (h : Heap) (v : Val) : bool :=
  match v with
  | VRef l => bool_decide (l < length h)%nat
  | VPrim _ => true
  end.

Definition closedCell (h : Heap) (c : Cell) : bool :=
  match c with
  | CObj props => forallb (fun kv => closedVal h (snd kv)) props
  | CArr items => forallb (closedVal h) items
  end.

Definition closedHeap (h : Heap) : bool := forallb (closedCell h) h.

(** The items of the array [v], none when [v] is not an array. *)
Definition itemsOf (h : Heap) (v : Val) : list Val :=
  match v with
  | VRef l => match h !! l with Some (CArr items) => items | _ => [] end
  | VPrim _ => []
  end.

(** [copy] is a new object, absent from [h0], that holds the own properties
    of [src]: the same primitives and the same references. *)
Definition freshCopy (h0 h : Heap) (src copy : Val) : Prop :=
  exists c, copy = VRef c /\ (length h0 <= c)%nat /\
            h !! c = Some (CObj (ownProps h0 src)).

(** The drafts share no object with the record at [p]. *)
Definition independentDrafts (h : Heap) (ed : Editor) (p : loc) : Prop :=
  ~ aliased h (editedProcess ed) (VRef p) /\
  ~ aliased h (editedParameters ed) (VRef p).

(** The value a reference stands for, read out of the store down to a
    given depth. *)
Fixpoint load (depth : nat) (h : Heap) (v : Val) : JsValue :=
  match v with
  | VPrim p => JPrim p
  | VRef l =>
      match depth with
      | O => JUndefined
      | S d =>
          match h !! l with
          | Some (CObj props) =>
              JObj (map (fun kv => (fst kv, load d h (snd kv))) props)
          | Some (CArr items) => JArr (map (load d h) items)
          | None => JUndefined
          end
      end
  end.

End Store.

(* ===================================================================== *)
(** * Part IV: the vocabulary of the specification                        *)
(* ===================================================================== *)

Module Spec.
Import Js Processes.

(** ** Case-insensitive equality

    Two code units are the same letter when they are equal or one is the
    capital of the other (the capital of a letter lies 32 code units below
    it). *)
Definition sameLetter (c d : ascii) : bool :=
  Ascii.eqb c d
  || (isUpper c && (codeUnit d =? codeUnit c + 32)%N)
  || (isUpper d && (codeUnit c =? codeUnit d + 32)%N).

Fixpoint eqIgnoreCase (s t : string) : bool :=
  match s, t with
  | EmptyString, EmptyString => true
  | String c r, String d r' => sameLetter c d && eqIgnoreCase r r'
  | _, _ => false
  end.

(** No capital occurs in the string. *)
Fixpoint lowercase (s : string) : bool :=
  match s with
  | EmptyString => true
  | String c r => negb (isUpper c) && lowercase r
  end.

(** ** The tags of a raw record *)

(** The text of the name of a tag entry: its [name], when it has one. *)
Definition tagName (t : JsValue) (s : string) : Prop :=
  nullish (optProp t "name") = false /\ toString (optProp t "name") = Ok s.

(** The raw record's workflow carries a tag named "webhook", whatever the
    case of the letters. *)
Definition hasWebhookTag (raw : JsValue) : Prop :=
  exists (tags : list JsValue) (t : JsValue) (s : string),
    optProp (optProp raw "workflow") "tags" = JArr tags /\
    t ∈ tags /\
    tagName t s /\
    eqIgnoreCase s "webhook" = true.

(** The workflow, its tags or the entries are missing. *)
Definition noTags (raw : JsValue) : Prop :=
  nullish (optProp raw "workflow") = true \/
  nullish (optProp (optProp raw "workflow") "tags") = true \/
  optProp (optProp raw "workflow") "tags" = JArr [].

(** A raw record [project] accepts: an object (anything but [null] and
    [undefined]) whose tag names, if any, are primitive values. *)
Definition primitiveTagNames (raw : JsValue) : Prop :=
  forall tags t,
    optProp (optProp raw "workflow") "tags" = JArr tags ->
    t ∈ tags -> isPrimitive (optProp t "name") = true.

Definition wellFormedRaw (raw : JsValue) : Prop :=
  nullish raw = false /\ primitiveTagNames raw.

(** ** Filtering

    The executable records of a list, each as often and in the order it
    occurs in the list. *)
Inductive keepsExecutable : list ProcessRecord -> list ProcessRecord -> Prop :=
| keeps_nil : keepsExecutable [] []
| keeps_take (p : ProcessRecord) (ps kept : list ProcessRecord) :
    canExecute p = true ->
    keepsExecutable ps kept ->
    keepsExecutable (p :: ps) (p :: kept)
| keeps_drop (p : ProcessRecord) (ps kept : list ProcessRecord) :
    canExecute p = false ->
    keepsExecutable ps kept ->
    keepsExecutable (p :: ps) kept.

(** ** Starting *)

(** The first candidate that is neither [null] nor [undefined]. *)
Fixpoint firstPresent (candidates : list JsValue) (fallback : JsValue) : JsValue :=
  match candidates with
  | [] => fallback
  | c :: r => if nullish c then firstPresent r fallback else c
  end.

Definition isSnackBar (e : Effect) : bool :=
  match e with SnackBarOpen _ _ _ => true | _ => false end.

(** The in-flight set mirrors the start requests in flight, and no two of
    them are for the same identifier. *)
Definition startsTracked (w : World) : Prop :=
  NoDup (startsInFlight (pending w)) /\
  forall i, i ∈ startsInFlight (pending w) <->
            i ∈ startingProcessIds (component w).

(** ** Saving *)

(** How the payload carries a draft parameter [p]: as [q]. *)
Definition sentAs (p q : JsValue) : Prop :=
  (optProp p "type" = JStr "number" ->
   exists n, toNumber (optProp p "value") = Ok n /\
             q = JObj (assign "value"
                         (if isNaN n then optProp p "value" else JNum n)
                         (ownProps p))) /\
  (optProp p "type" <> JStr "number" -> q = JObj (ownProps p)).

(** All the characters of a string are white space. *)
Fixpoint blank (s : string) : bool :=
  match s with
  | EmptyString => true
  | String c r => isWhiteSpace c && blank r
  end.

(** A parameter declared a number whose value is [null] or a string of
    white space only, the empty string included. *)
Definition blankNumber (p : JsValue) : Prop :=
  optProp p "type" = JStr "number" /\
  (optProp p "value" = JNull \/
   exists s, optProp p "value" = JStr s /\ blank s = true).

(** The record that replaces [p] in the list after a successful save. *)
Definition merged (p : ProcessRecord) (body : PatchBody) : ProcessRecord :=
  {| id := id p;
     name := body_name body;
     workflowName := workflowName p;
     description := body_description body;
     parameters := JArr (body_parameters body);
     active := active p;
     status := status p;
     startedAt := startedAt p;
     canExecute := canExecute p |}.

(** ** The time-ago text *)

(** The text for a number of elapsed seconds, as the specification words
    it. *)
Definition agoText (d : number) : string :=
  if ltb d (ofZ 60) then "Hace " +:+ NumberToString d +:+ " seg"
  else
    let m := floor (div d (ofZ 60)) in
    if ltb m (ofZ 60) then "Hace " +:+ NumberToString m +:+ " min"
    else
      let h := floor (div m (ofZ 60)) in
      if ltb h (ofZ 24) then "Hace " +:+ NumberToString h +:+ " h"
      else "Hace " +:+ NumberToString (floor (div h (ofZ 24))) +:+ " d".

(** The text the specification gives for a timestamp: empty for a [null]
    timestamp, the text of the elapsed seconds otherwise. *)
Definition agoSpec (parse : string -> number) (now : number)
    (isoDate : option string) : string :=
  match isoDate with
  | None => ""
  | Some iso => agoText (floor (div (sub now (parse iso)) (ofZ 1000)))
  end.

End Spec.

(* ===================================================================== *)
(** * Part IV, continued: integers and numerals as numbers                *)
(* ===================================================================== *)

(** The time values the clock works on are integers, and so are the values
    typed into most number parameters.  This part names what the Number
    value of an integer is made of, and what a string of digits denotes. *)

Module Whole.
Import Js.

(** A shift record that has lost nothing: no round bit, no sticky bit. *)
Definition exactly (m : Z) : shr_record :=
  {| shr_m := m; shr_r := false; shr_s := false |}.

(** The mantissa and the exponent of the Number value of an integer [z]
    with [0 < |z| < 2^53]: [|z|] shifted up to 53 bits, and the shift. *)
Definition mantissa (z : Z) : positive :=
  Z.to_pos (Z.abs z * 2 ^ (53 - Zdigits2 z)).

Definition exponent (z : Z) : Z := Zdigits2 z - 53.

Definition isDigit (c : ascii) : bool := inRange 48 57 (codeUnit c).

Fixpoint allDigits (s : string) : bool :=
  match s with
  | EmptyString => true
  | String c r => isDigit c && allDigits r
  end.

(** A numeral: decimal digits, one at least, and nothing else. *)
Definition isNumeral (s : string) : bool :=
  negb (String.eqb s "") && allDigits s.

(** The integer a string of decimal digits denotes, after [acc]. *)
Fixpoint decimalFrom (acc : N) (s : string) : N :=
  match s with
  | EmptyString => acc
  | String c r => decimalFrom (acc * 10 + (codeUnit c - 48))%N r
  end.

Definition decimalValue (s : string) : Z := Z.of_N (decimalFrom 0 s).

End Whole.

(* ===================================================================== *)
(** * Part V: sample data                                                 *)
(* ===================================================================== *)

Module Samples.
Import Js Processes.

(** A raw record as [getProcesses()] serves it, with the given tags. *)
Definition rawProcess (pid : string) (tags : JsValue) : JsValue :=
  JObj [("id", JStr pid);
        ("name", JStr "Backup");
        ("description", JStr "Nightly backup");
        ("parameters",
          JArr [JObj [("name", JStr "retries"); ("type", JStr "number");
                      ("value", JStr "3")]]);
        ("workflow",
          JObj [("name", JStr "backup-flow"); ("active", JBool true);
                ("tags", tags)]);
        ("executionBrief",
          JObj [("status", JStr "success");
                ("startedAt", JStr "2025-01-01T00:00:00Z")])].

Definition tagged (tagName : string) : JsValue :=
  JArr [JObj [("name", JStr "nightly")]; JObj [("name", JStr tagName)]].

(** A record without workflow. *)
Definition bareProcess : JsValue :=
  JObj [("id", JNum (ofZ 7)); ("name", JStr "Orphan")].

Definition sampleResponse : list JsValue :=
  [rawProcess "p1" (tagged "Webhook");
   rawProcess "p2" (tagged "WEBHOOK");
   rawProcess "p3" (tagged "cron");
   rawProcess "p4" (JArr []);
   bareProcess].

Definition sampleProcess : ProcessRecord :=
  {| id := JStr "p1";
     name := JStr "Backup";
     workflowName := JStr "backup-flow";
     description := JStr "Nightly backup";
     parameters := JArr [];
     active := "Proceso Activo";
     status := JStr "success";
     startedAt := JStr "2025-01-01T00:00:00Z";
     canExecute := true |}.

Definition otherProcess : ProcessRecord :=
  {| id := JStr "p2";
     name := JStr "Report";
     workflowName := JStr "report-flow";
     description := JStr "Weekly report";
     parameters := JArr [];
     active := "Proceso Inactivo";
     status := JStr "";
     startedAt := JNull;
     canExecute := false |}.

(** The start of [sampleProcess] is in flight. *)
Definition sampleStarting : Component :=
  setStartingProcessIds {["p1"]} (setProcesses [otherProcess; sampleProcess] initial).

Definition numberParameter (value : JsValue) : JsValue :=
  JObj [("name", JStr "retries"); ("type", JStr "number"); ("value", value)].

Definition textParameter (value : JsValue) : JsValue :=
  JObj [("name", JStr "label"); ("type", JStr "string"); ("value", value)].

(** An edit session on [sampleProcess]. *)
Definition sampleDraft : ProcessRecord :=
  {| id := JStr "p1";
     name := JStr "Backup (edited)";
     workflowName := JStr "backup-flow";
     description := JStr "Every night";
     parameters := JArr [];
     active := "Proceso Activo";
     status := JStr "success";
     startedAt := JStr "2025-01-01T00:00:00Z";
     canExecute := true |}.

Definition sampleEditing : Component :=
  setEditedParameters
    [numberParameter (JStr "42"); numberParameter (JStr "abc");
     numberParameter (JStr ""); numberParameter (JStr "  ");
     numberParameter JNull; textParameter (JStr "42")]
    (setEditedProcess (Some sampleDraft)
       (setSelectedProcess (Some sampleProcess)
          (setProcesses [otherProcess; sampleProcess] initial))).

Definition sampleBody : PatchBody :=
  {| body_name := JStr "Backup (edited)";
     body_description := JStr "Every night";
     body_parameters :=
       [numberParameter (JNum (ofZ 42)); numberParameter (JStr "abc");
        numberParameter (JNum (S754_zero false));
        numberParameter (JNum (S754_zero false));
        numberParameter (JNum (S754_zero false));
        textParameter (JStr "42")] |}.

(** A listed process with two parameters, and the component that lists
    it. *)
Definition storedProcess : ProcessRecord :=
  {| id := JStr "p3";
     name := JStr "Import";
     workflowName := JStr "import-flow";
     description := JStr "Hourly import";
     parameters := JArr [numberParameter (JStr "3"); textParameter (JStr "daily")];
     active := "Proceso Activo";
     status := JStr "running";
     startedAt := JNull;
     canExecute := true |}.

Definition sampleListed : Component :=
  setProcesses [otherProcess; storedProcess] initial.

(** Two processes whose identifiers differ in type only. *)
Definition numberedProcess (pid : JsValue) : ProcessRecord :=
  {| id := pid;
     name := JStr "Cleanup";
     workflowName := JStr "";
     description := JUndefined;
     parameters := JArr [];
     active := "Proceso Inactivo";
     status := JStr "";
     startedAt := JNull;
     canExecute := true |}.

(** The component one event after its creation: [ngOnInit] was called, or
    the start of [sampleProcess] was asked for. *)
Definition sampleBooted : World :=
  absorb (call CallNgOnInit (component boot)) (pending boot) boot.

Definition sampleStarted : World :=
  absorb (call (CallStartProcess (Some sampleProcess)) (component boot))
         (pending boot) boot.

(** A clock and a date parser for one timestamp, 90 seconds in the past. *)
Definition sampleNow : number := ofZ 1735689690000.
Definition sampleParse (iso : string) : number :=
  if String.eqb iso "2025-01-01T00:00:00Z" then ofZ 1735689600000 else NaN.

End Samples.

Module StoreSamples.
Import Js Store.

(** A store with one process: the list at 0, the record at 1, its parameter
    array at 2, one parameter at 3 whose value is the array at 4. *)
Definition sampleHeap : Heap :=
  [ CArr [VRef 1%nat];
    CObj [("id", VPrim (PStr "p1")); ("name", VPrim (PStr "Backup"));
          ("description", VPrim (PStr "Nightly backup"));
          ("parameters", VRef 2%nat)];
    CArr [VRef 3%nat];
    CObj [("name", VPrim (PStr "hosts")); ("type", VPrim (PStr "list"));
          ("value", VRef 4%nat)];
    CArr [VPrim (PStr "alpha")] ].

Definition sampleEditor : Editor :=
  {| processes := VRef 0%nat;
     selectedProcess := VPrim PNull;
     editedProcess := VPrim PNull;
     editedParameters := VRef 0%nat |}.

(** The store and the fields after [selectProcess] of the record at 1. *)
Definition sampleSelected : Outcome :=
  selectProcess sampleHeap sampleEditor (VRef 1%nat).

End StoreSamples.

(* ===================================================================== *)
(** * Part VI: properties                                                 *)
(* ===================================================================== *)

(** ** The value layer *)

Module JsFacts.
Import Js Spec.

Lemma bind_Ok {A B : Type} (m : result A) (k : A -> result B) (b : B) :
  (x ← m; k x) = Ok b <-> exists a, m = Ok a /\ k a = Ok b.
Proof.
  destruct m as [a|e]; simpl; split.
  - eauto.
  - by intros (a' & [= <-] & H).
  - done.
  - by intros (a' & [=] & _).
Qed.

Lemma mapM_Ok {A B : Type} (f : A -> result B) (l : list A) (l' : list B) :
  mapM f l = Ok l' <-> Forall2 (fun x y => f x = Ok y) l l'.
Proof.
  revert l'. induction l as [|x l IH]; intros l'; simpl.
  - split; [intros [= <-]; constructor | by inversion 1].
  - split.
    + intros H. apply bind_Ok in H as (y & Hy & H).
      apply bind_Ok in H as (k & Hk & [= <-]).
      constructor; [done | by apply IH].
    + inversion 1 as [|? y ? k Hy Hk]; subst.
      apply IH in Hk. cbn. rewrite Hy. cbn. by rewrite Hk.
Qed.

Lemma someOf_true {A : Type} (f : A -> result bool) (l : list A) :
  someOf f l = Ok true -> exists x, x ∈ l /\ f x = Ok true.
Proof.
  induction l as [|x l IH]; simpl; [done|].
  intros H. apply bind_Ok in H as ([] & Hx & H).
  - exists x. split; [left | done].
  - destruct (IH H) as (y & Hy & Hfy). exists y. split; [by right | done].
Qed.

Lemma someOf_found {A : Type} (f : A -> result bool) (l : list A) (b : bool) (x : A) :
  someOf f l = Ok b -> x ∈ l -> f x = Ok true -> b = true.
Proof.
  induction l as [|y l IH]; simpl; [by inversion 2|].
  intros H Hin Hx. apply bind_Ok in H as ([] & Hy & H).
  - by injection H.
  - apply elem_of_cons in Hin as [->|Hin]; [congruence | by apply IH].
Qed.

Lemma someOf_total {A : Type} (f : A -> result bool) (l : list A) :
  (forall x, x ∈ l -> exists b, f x = Ok b) -> exists b, someOf f l = Ok b.
Proof.
  induction l as [|x l IH]; intros H; simpl; [eauto|].
  destruct (H x) as [[] ->]; [left | simpl; eauto |].
  simpl. apply IH. intros y Hy. apply H. by right.
Qed.

Lemma findIndex_Some {A : Type} (f : A -> bool) (l : list A) (i : nat) :
  findIndex f l = Some i <->
  exists x, l !! i = Some x /\ f x = true /\
            forall j y, (j < i)%nat -> l !! j = Some y -> f y = false.
Proof.
  revert i. induction l as [|a l IH]; intros i; simpl.
  - split; [done | by intros (? & ? & _)].
  - destruct (f a) eqn:Ha.
    + split.
      * intros [= <-]. exists a. repeat split; [done|]. lia.
      * intros (x & Hx & Hfx & Hfirst). destruct i as [|i]; [done|].
        rewrite (Hfirst O a) in Ha; [done | lia | done].
    + destruct i as [|i].
      * split; [by destruct (findIndex f l)|].
        intros (x & [= <-] & Hfx & _). congruence.
      * transitivity (findIndex f l = Some i).
        { destruct (findIndex f l); simpl; split; congruence. }
        rewrite IH. split.
        -- intros (x & Hx & Hfx & Hfirst). exists x. repeat split; [done..|].
           intros [|j] y Hj Hy; [by injection Hy as <-|].
           apply (Hfirst j); [lia | done].
        -- intros (x & Hx & Hfx & Hfirst). exists x. repeat split; [done..|].
           intros j y Hj Hy. apply (Hfirst (S j)); [lia | done].
Qed.

Lemma findIndex_None {A : Type} (f : A -> bool) (l : list A) :
  findIndex f l = None <-> forall x, x ∈ l -> f x = false.
Proof.
  induction l as [|a l IH]; simpl.
  - split; [by intros _ x Hx%elem_of_nil | done].
  - destruct (f a) eqn:Ha.
    + split; [done|]. intros H. rewrite H in Ha; [done | by left].
    + transitivity (findIndex f l = None).
      { by destruct (findIndex f l). }
      rewrite IH. split.
      * intros H x [->|Hx]%elem_of_cons; [done | by apply H].
      * intros H x Hx. apply H. by right.
Qed.

(** *** Property access *)

Lemma optProp_nullish (v : JsValue) (k : string) :
  nullish v = true -> optProp v k = JUndefined.
Proof. by destruct v as [[]| |]. Qed.

Lemma optProp_getOwn (v : JsValue) (k : string) :
  String.eqb k "length" = false ->
  optProp v k = getOwn JUndefined k (ownProps v).
Proof. intros Hk. destruct v as [[]| |]; simpl; by rewrite ?Hk. Qed.

Lemma getOwn_assign {A : Type} (d : A) (k : string) (v : A) (props : list (string * A)) :
  getOwn d k (assign k v props) = v.
Proof.
  induction props as [|[k' v'] props IH]; simpl.
  - by rewrite String.eqb_refl.
  - destruct (String.eqb k k') eqn:Hk; simpl.
    + by rewrite String.eqb_refl.
    + by rewrite Hk.
Qed.

Lemma getOwn_assign_ne {A : Type} (d : A) (k k' : string) (v : A)
    (props : list (string * A)) :
  k' <> k -> getOwn d k' (assign k v props) = getOwn d k' props.
Proof.
  intros Hne. induction props as [|[k0 v0] props IH]; simpl.
  - destruct (String.eqb k' k) eqn:Hk; [|done].
    by apply String.eqb_eq in Hk.
  - destruct (String.eqb k k0) eqn:Hk; simpl.
    + apply String.eqb_eq in Hk as <-.
      destruct (String.eqb k' k) eqn:Hk'; [|done].
      by apply String.eqb_eq in Hk'.
    + by rewrite IH.
Qed.

Lemma strictEquals_string (v : JsValue) (s : string) :
  strictEquals v (JStr s) = true <-> v = JStr s.
Proof.
  destruct v as [[| | | |x]| |]; simpl; split; try done.
  - by intros ->%String.eqb_eq.
  - intros [= ->]. apply String.eqb_refl.
Qed.

(** *** Letter case *)

Lemma codeUnit_inj (c d : ascii) : codeUnit c = codeUnit d -> c = d.
Proof.
  unfold codeUnit. intros H.
  rewrite <- (ascii_N_embedding c), <- (ascii_N_embedding d). by rewrite H.
Qed.

Lemma isUpper_room (c : ascii) : isUpper c = true -> (codeUnit c + 32 < 256)%N.
Proof.
  unfold isUpper, inRange. intros H.
  apply orb_true_iff in H as [H|H].
  - apply andb_true_iff in H as [_ H]. apply N.leb_le in H. lia.
  - apply andb_true_iff in H as [H _]. apply andb_true_iff in H as [_ H].
    apply N.leb_le in H. lia.
Qed.

Lemma codeUnit_lowerUnit (c : ascii) :
  isUpper c = true -> codeUnit (lowerUnit c) = (codeUnit c + 32)%N.
Proof.
  intros H. unfold lowerUnit. rewrite H. unfold codeUnit at 1.
  apply N_ascii_embedding. by apply isUpper_room.
Qed.

Lemma lowerUnit_sameLetter (c d : ascii) :
  isUpper d = false -> lowerUnit c = d <-> sameLetter c d = true.
Proof.
  intros Hd. unfold sameLetter. rewrite Hd, orb_false_r. split.
  - intros <-. destruct (isUpper c) eqn:Hc.
    + rewrite (codeUnit_lowerUnit _ Hc), N.eqb_refl. apply orb_true_r.
    + unfold lowerUnit. rewrite Hc, Ascii.eqb_refl. done.
  - intros H. apply orb_true_iff in H as [H|H].
    + apply Ascii.eqb_eq in H as ->. unfold lowerUnit. by rewrite Hd.
    + apply andb_true_iff in H as [Hc H]. apply N.eqb_eq in H.
      apply codeUnit_inj. by rewrite codeUnit_lowerUnit.
Qed.

(** Lowering a string gives a string without capitals exactly when the two
    are equal up to the case of their letters. *)
Lemma toLowerCase_eqIgnoreCase (s t : string) :
  lowercase t = true -> toLowerCase s = t <-> eqIgnoreCase s t = true.
Proof.
  revert t. induction s as [|c s IH]; intros [|d t] Ht; simpl; try done.
  simpl in Ht. apply andb_true_iff in Ht as [Hd Ht].
  apply negb_true_iff in Hd.
  rewrite andb_true_iff, <- (IH t Ht), <- (lowerUnit_sameLetter c d Hd).
  split; [by intros [= -> ->] | by intros [-> ->]].
Qed.

(** *** Numbers *)

Lemma trimStart_blank (s : string) : blank s = true -> trimStart s = "".
Proof.
  induction s as [|c s IH]; [done|]. simpl.
  intros [-> H]%andb_true_iff. by apply IH.
Qed.

(** [Number] of white space is [+0]. *)
Lemma StringToNumber_blank (s : string) :
  blank s = true -> StringToNumber s = S754_zero false.
Proof.
  intros H. unfold StringToNumber, trim. by rewrite (trimStart_blank s H).
Qed.

Example StringToNumber_samples :
  StringToNumber "42" = ofZ 42 /\
  isNaN (StringToNumber "abc") = true /\
  StringToNumber "" = S754_zero false /\
  StringToNumber "  " = S754_zero false /\
  StringToNumber " 0x1F " = ofZ 31 /\
  StringToNumber "-1.5e3" = ofZ (-1500) /\
  isNaN (StringToNumber "12px") = true /\
  StringToNumber "1e400" = Infinity false.
Proof. by vm_compute. Qed.

Example NumberToString_samples :
  NumberToString (ofZ 42) = "42" /\
  NumberToString (StringToNumber "0.1") = "0.1" /\
  NumberToString (StringToNumber "1e21") = "1e+21" /\
  NumberToString (StringToNumber "123456789012345680000") = "123456789012345680000" /\
  NumberToString (StringToNumber "0.0000001") = "1e-7" /\
  NumberToString (div (ofZ 1) (ofZ 3)) = "0.3333333333333333" /\
  NumberToString (floor (div (ofZ (-90500)) (ofZ 1000))) = "-91" /\
  NumberToString NaN = "NaN".
Proof. by vm_compute. Qed.

Example toString_samples :
  toString (JArr [JNum (ofZ 1); JNull; JArr [JStr "a"; JStr "b"]]) = Ok "1,,a,b" /\
  toString (JObj [("a", JNull)]) = Ok "[object Object]" /\
  toString (JObj [("toString", JNull)]) = Throw TypeError /\
  toNumber (JArr [JStr "42"]) = Ok (ofZ 42) /\
  toNumber (JArr []) = Ok (S754_zero false).
Proof. by vm_compute. Qed.

End JsFacts.

(** ** Loading: the projection of the raw records *)

Module LoadFacts.
Import Js Processes Spec Samples JsFacts.

Lemma isWebhookTag_true (t : JsValue) :
  isWebhookTag t = Ok true <->
  exists s, tagName t s /\ eqIgnoreCase s "webhook" = true.
Proof.
  unfold isWebhookTag, tagName, coalesce.
  destruct (nullish (optProp t "name")) eqn:Hn.
  - split; [done | by intros (s & [? _] & _)].
  - rewrite bind_Ok. split.
    + intros (s & Hs & [= H]). exists s. split; [done|].
      apply String.eqb_eq in H. by apply toLowerCase_eqIgnoreCase in H.
    + intros (s & [_ Hs] & H). exists s. split; [done|].
      apply toLowerCase_eqIgnoreCase in H; [|done]. by rewrite H.
Qed.

Lemma isWebhookTag_primitive (t : JsValue) :
  isPrimitive (optProp t "name") = true -> exists b, isWebhookTag t = Ok b.
Proof.
  unfold isWebhookTag, coalesce. destruct (optProp t "name") as [p| |]; try done.
  intros _. destruct (nullish (JPrim p)); simpl; eauto.
Qed.

Lemma canExecuteOf_true (workflow : JsValue) (b : bool) :
  canExecuteOf workflow = Ok b ->
  b = true <->
  exists tags t, optProp workflow "tags" = JArr tags /\ t ∈ tags /\
                 isWebhookTag t = Ok true.
Proof.
  unfold canExecuteOf.
  destruct (truthy (optProp workflow "tags")) eqn:Htruthy.
  - destruct (nullish workflow) eqn:Hnull.
    { by rewrite optProp_nullish in Htruthy. }
    unfold prop. rewrite Hnull. simpl.
    destruct (optProp workflow "tags") as [p|tags|props] eqn:Htags; simpl.
    + intros [= <-]. split; [done | by intros (? & ? & [=] & _)].
    + intros H. split.
      * intros ->. apply someOf_true in H as (t & Ht & Hw). eauto.
      * intros (tags' & t & [= <-] & Ht & Hw). by eapply someOf_found.
    + intros [= <-]. split; [done | by intros (? & ? & [=] & _)].
  - intros [= <-]. split; [done|].
    intros (tags & t & Htags & _). by rewrite Htags in Htruthy.
Qed.

Lemma canExecuteOf_total (workflow : JsValue) :
  (forall tags t, optProp workflow "tags" = JArr tags -> t ∈ tags ->
                  isPrimitive (optProp t "name") = true) ->
  exists b, canExecuteOf workflow = Ok b.
Proof.
  intros H. unfold canExecuteOf.
  destruct (truthy (optProp workflow "tags")) eqn:Htruthy; [|eauto].
  destruct (nullish workflow) eqn:Hnull.
  { by rewrite optProp_nullish in Htruthy. }
  unfold prop. rewrite Hnull. simpl.
  destruct (optProp workflow "tags") as [p|tags|props] eqn:Htags; simpl; eauto.
  apply someOf_total. intros t Ht. apply isWebhookTag_primitive. by eapply H.
Qed.

(** [project] throws on [null] and [undefined] only, at its first property
    read, unless a tag name cannot be turned into a string. *)
Lemma project_canExecute (p : JsValue) (r : ProcessRecord) :
  project p = Ok r ->
  nullish p = false /\ canExecuteOf (optProp p "workflow") = Ok (canExecute r).
Proof.
  unfold project, prop. destruct (nullish p); [done|]. simpl.
  intros H. apply bind_Ok in H as (can & Hcan & [= <-]). done.
Qed.

Lemma project_total (p : JsValue) :
  wellFormedRaw p -> exists r, project p = Ok r.
Proof.
  intros [Hp Htags]. unfold project, prop. rewrite Hp. simpl.
  destruct (canExecuteOf_total (optProp p "workflow")) as [b ->]; [done|].
  simpl. eauto.
Qed.

Lemma hasWebhookTag_iff (raw : JsValue) :
  hasWebhookTag raw <->
  exists tags t, optProp (optProp raw "workflow") "tags" = JArr tags /\
                 t ∈ tags /\ isWebhookTag t = Ok true.
Proof.
  unfold hasWebhookTag. split.
  - intros (tags & t & s & Htags & Ht & Hname & Hs).
    exists tags, t. repeat split; try done. apply isWebhookTag_true. eauto.
  - intros (tags & t & Htags & Ht & Hw).
    apply isWebhookTag_true in Hw as (s & Hname & Hs). exists tags, t, s. done.
Qed.

Lemma noTags_not_webhook (raw : JsValue) : noTags raw -> ~ hasWebhookTag raw.
Proof.
  intros Hno (tags & t & s & Htags & Ht & _).
  destruct Hno as [H|[H|H]].
  - by rewrite (optProp_nullish _ _ H) in Htags.
  - by rewrite Htags in H.
  - rewrite Htags in H. injection H as ->. by apply elem_of_nil in Ht.
Qed.



(** The flags of the sample response: "Webhook" and "WEBHOOK" make a process
    executable, another tag, no tag and no workflow do not. *)
Example loadProcesses_sample :
  map canExecute (processes (after (loadProcesses_next (JArr sampleResponse) initial)))
  = [true; true; false; false; false].
Proof. by vm_compute. Qed.

Example loadProcesses_sample_fields :
  (after (loadProcesses_next (JArr [bareProcess]) initial)).(processes)
  = [ {| id := JNum (ofZ 7); name := JStr "Orphan"; workflowName := JStr "";
         description := JUndefined; parameters := JArr [];
         active := "Proceso Inactivo"; status := JStr ""; startedAt := JNull;
         canExecute := false |} ].
Proof. by vm_compute. Qed.

Example loadProcesses_null_record :
  thrown (loadProcesses_next (JArr [JNull]) initial) = Some TypeError.
Proof. by vm_compute. Qed.

End LoadFacts.

(** ** The filter *)

Module FilterFacts.
Import Js Processes Spec Samples.

Lemma filter_keepsExecutable (ps : list ProcessRecord) :
  keepsExecutable ps (filter (fun p => canExecute p = true) ps).
Proof.
  induction ps as [|p ps IH]; [constructor|].
  destruct (canExecute p) eqn:Hp.
  - rewrite filter_cons_True by done. by constructor.
  - rewrite filter_cons_False by congruence. by constructor.
Qed.

Lemma keepsExecutable_unique (ps kept kept' : list ProcessRecord) :
  keepsExecutable ps kept -> keepsExecutable ps kept' -> kept = kept'.
Proof.
  intros H. revert kept'.
  induction H as [|p ps kept Hp _ IH|p ps kept Hp _ IH]; intros kept' H';
    inversion H'; subst; try congruence; try done.
  - f_equal. by apply IH.
  - by apply IH.
Qed.

Lemma keepsExecutable_sublist (ps kept : list ProcessRecord) :
  keepsExecutable ps kept -> sublist kept ps.
Proof. induction 1; by constructor. Qed.

Lemma keepsExecutable_elem (ps kept : list ProcessRecord) (p : ProcessRecord) :
  keepsExecutable ps kept -> p ∈ kept <-> p ∈ ps /\ canExecute p = true.
Proof.
  induction 1 as [|q ps kept Hq _ IH|q ps kept Hq _ IH].
  - rewrite elem_of_nil. tauto.
  - rewrite !elem_of_cons, IH. split; [|tauto].
    intros [->|[? ?]]; tauto.
  - rewrite elem_of_cons, IH. split; [tauto|].
    intros [[->|?] ?]; [congruence | tauto].
Qed.

(** Claim C3.  [displayedProcesses] is a function of the component alone,
    with no outcome but the list it returns: the list itself while
    [showOnlyExecutable] is off, and otherwise the records with
    [canExecute] set, each as often and in the order it occurs in the
    list. *)
Theorem displayedProcesses_view (st : Component) :
  if showOnlyExecutable st
  then keepsExecutable (processes st) (displayedProcesses st) /\
       sublist (displayedProcesses st) (processes st) /\
       (forall p, p ∈ displayedProcesses st <->
                  p ∈ processes st /\ canExecute p = true)
  else displayedProcesses st = processes st.
Proof.
  unfold displayedProcesses. destruct (showOnlyExecutable st); simpl; [|done].
  pose proof (filter_keepsExecutable (processes st)) as H.
  split; [done|]. split; [by apply keepsExecutable_sublist|].
  intros p. by apply keepsExecutable_elem.
Qed.

Example displayedProcesses_sample :
  displayedProcesses sampleStarting = [otherProcess; sampleProcess] /\
  displayedProcesses (after (toggleEjecutable sampleStarting)) = [sampleProcess].
Proof. split; reflexivity. Qed.

End FilterFacts.

(** ** Starting a process *)

Module StartFacts.
Import Js Processes Spec Samples.

Lemma not_elem_of_removed (i : string) (ids : gset string) : i ∉ ids ∖ {[i]}.
Proof. intros [_ H]%elem_of_difference. apply H. by apply elem_of_singleton. Qed.

Lemma startsInFlight_app (l1 l2 : list Effect) :
  startsInFlight (l1 ++ l2) = startsInFlight l1 ++ startsInFlight l2.
Proof.
  induction l1 as [|e l1 IH]; [done|]. destruct e; simpl; by rewrite ?IH.
Qed.

(** A method call either leaves the in-flight set alone and sends no start
    request, or adds a new identifier and sends the request for it. *)
Lemma call_starts (m : Method) (st : Component) :
  let o := call m st in
  (startingProcessIds (after o) = startingProcessIds st /\
   startsInFlight (List.filter isRequest (effects o)) = []) \/
  (exists i, (i ∉ startingProcessIds st) /\
             startingProcessIds (after o) = {[i]} ∪ startingProcessIds st /\
             startsInFlight (List.filter isRequest (effects o)) = [i]).
Proof.
  destruct m as [| | |p|p| |]; simpl.
  - by left.
  - by left.
  - by left.
  - left. unfold selectProcess. by destruct (copyParameters _).
  - unfold startProcess. destruct p as [p|]; [|by left].
    destruct (truthy (id p)); [|by left]. simpl.
    destruct (toString (id p)) as [i|e]; [|by left].
    destruct (bool_decide (i ∈ startingProcessIds st)) eqn:Hin; [by left|].
    right. exists i. apply bool_decide_eq_false in Hin. done.
  - left. unfold cancelEdit. destruct (selectedProcess st); [|done].
    by destruct (copyParameters _).
  - left. unfold updateSelectedProcess. destruct (selectedProcess st); [|done].
    destruct (mapM normalizeParameter (editedParameters st)); [|done]. simpl.
    destruct (editedProcess st); [|done]. simpl.
    by destruct (toString (id p)).
Qed.

(** A completed request sends no start request, and only the completion of
    a start request changes the in-flight set: it removes its identifier. *)
Lemma settle_starts (request : Effect) (r : Reply) (st : Component) :
  let o := settle request r st in
  startsInFlight (List.filter isRequest (effects o)) = [] /\
  startingProcessIds (after o) =
    match request with
    | HttpStartProcess i => startingProcessIds st ∖ {[i]}
    | _ => startingProcessIds st
    end.
Proof.
  destruct request as [|i|i body|?|?], r as [res|failure]; simpl; try done.
  - unfold loadProcesses_next. by destruct (arrayMap project res).
  - unfold startProcess_next. by destruct (truthy (optProp res "success")).
  - unfold updateSelectedProcess_next. by repeat case_match.
Qed.

Lemma startsTracked_step (w w' : World) :
  step w w' -> startsTracked w -> startsTracked w'.
Proof.
  intros Hstep [Hnodup Hiff].
  destruct Hstep as [w m|w older newer request r Hp|w draft drafts]; [| |done].
  - unfold startsTracked, absorb. simpl. rewrite startsInFlight_app.
    destruct (call_starts m (component w)) as [[-> ->]|(i & Hi & -> & ->)].
    + by rewrite app_nil_r.
    + split.
      * apply NoDup_app. split; [done|]. split; [|apply NoDup_singleton].
        intros j Hj [= ->]%list_elem_of_singleton. by apply Hi, Hiff.
      * intros j. rewrite elem_of_app, list_elem_of_singleton, elem_of_union,
          elem_of_singleton, Hiff. tauto.
  - rewrite Hp, startsInFlight_app in Hnodup, Hiff.
    unfold startsTracked, absorb. simpl.
    destruct (settle_starts request r (component w)) as [Hnone Hids].
    simpl in Hnone, Hids. rewrite startsInFlight_app, Hnone, app_nil_r, Hids.
    rewrite startsInFlight_app.
    destruct request as [|i|i body|?|?]; simpl in *; try done.
    apply NoDup_app in Hnodup as (Ho & Hdisj & Hn).
    apply NoDup_cons in Hn as [Hi Hn]. split.
    + apply NoDup_app. split; [done|]. split; [|done].
      intros j Hj Hj'. apply (Hdisj j Hj). by right.
    + intros j. rewrite elem_of_difference, elem_of_singleton, <- Hiff.
      rewrite !elem_of_app, elem_of_cons. split.
      * intros [Hj|Hj].
        -- split; [tauto|]. intros ->. apply (Hdisj i Hj). by left.
        -- split; [tauto|]. by intros ->.
      * tauto.
Qed.

Lemma startsTracked_reachable (w : World) : reachable w -> startsTracked w.
Proof.
  unfold reachable. revert w. apply rtc_ind_r.
  - split; [constructor|]. intros i. simpl.
    rewrite elem_of_nil, elem_of_empty. tauto.
  - intros w w' _ Hstep IH. by eapply startsTracked_step.
Qed.

(** Claim C2.  [startProcess(p)] returns at once, with the component as it
    was and nothing asked of the service or the snack bar, when [p] is
    absent, when [p.id] is absent (or falsy otherwise), and when [String(p.id)]
    is in the in-flight set.  Hence, whatever methods are called and
    whatever requests complete, the start requests in flight are for
    pairwise different identifiers, those of the in-flight set. *)
Theorem startProcess_dedup :
  (forall st, startProcess None st = done st []) /\
  (forall st p, truthy (id p) = false -> startProcess (Some p) st = done st []) /\
  (forall st p i,
     toString (id p) = Ok i -> i ∈ startingProcessIds st ->
     startProcess (Some p) st = done st []) /\
  (forall w, reachable w ->
     NoDup (startsInFlight (pending w)) /\
     forall i, i ∈ startsInFlight (pending w) <->
               i ∈ startingProcessIds (component w)).
Proof.
  split; [done|]. split; [|split].
  - intros st p Hid. unfold startProcess. by rewrite Hid.
  - intros st p i Hs Hin. unfold startProcess. rewrite Hs.
    destruct (truthy (id p)); [|done]. simpl.
    by rewrite bool_decide_eq_true_2.
  - apply startsTracked_reachable.
Qed.

Lemma startProcess_dedup_witness :
  startProcess (Some sampleProcess) sampleStarting = done sampleStarting [].
Proof.
  apply (proj1 (proj2 (proj2 startProcess_dedup)) sampleStarting sampleProcess "p1").
  - reflexivity.
  - vm_compute. reflexivity.
Defined.

(** Two calls in a row: the first sends the request, the second nothing. *)
Example startProcess_twice :
  startProcess (Some sampleProcess) initial
  = done (setStartingProcessIds ({["p1"]} ∪ ∅) initial) [HttpStartProcess "p1"] /\
  startProcess (Some sampleProcess) (setStartingProcessIds ({["p1"]} ∪ ∅) initial)
  = done (setStartingProcessIds ({["p1"]} ∪ ∅) initial) [].
Proof.
  split.
  - unfold startProcess. simpl. by rewrite bool_decide_eq_false_2.
  - unfold startProcess. simpl. rewrite bool_decide_eq_true_2; [done|].
    apply elem_of_union_l. by apply elem_of_singleton.
Qed.

(** Claim C4.  The [next] callback of a start request removes the
    identifier from the in-flight set whatever [res.success] is, opens the
    snack bar once, with [res.message], or with a fixed text when
    [res.message] is [null] or [undefined], and calls [loadProcesses()],
    which sends [getProcesses()], exactly when [res.success] is truthy.  It
    touches no other field. *)
Theorem startProcess_next_response (i : string) (res : JsValue) (st : Component) :
  let o := startProcess_next i res st in
  let message :=
    if nullish (optProp res "message")
    then JStr (if truthy (optProp res "success") then "Proceso iniciado"
               else "No se pudo iniciar el proceso")
    else optProp res "message" in
  thrown o = None /\
  startingProcessIds (after o) = (startingProcessIds st ∖ {[i]}) /\
  (i ∉ startingProcessIds (after o)) /\
  List.filter isSnackBar (effects o) = [SnackBarOpen message "Cerrar" 4000] /\
  effects o = [SnackBarOpen message "Cerrar" 4000]
              ++ (if truthy (optProp res "success")
                  then effects (loadProcesses (after o)) else []) /\
  (HttpGetProcesses ∈ effects o <-> truthy (optProp res "success") = true) /\
  processes (after o) = processes st /\
  selectedProcess (after o) = selectedProcess st /\
  editedProcess (after o) = editedProcess st /\
  editedParameters (after o) = editedParameters st /\
  showOnlyExecutable (after o) = showOnlyExecutable st.
Proof.
  unfold startProcess_next, coalesce.
  destruct (truthy (optProp res "success")) eqn:Hs; simpl;
    (split; [done|]); (split; [done|]); (split; [apply not_elem_of_removed|]);
    (split; [done|]); (split; [done|]); split; try done.
  - split; [done|]. intros _. apply elem_of_cons. right. by left.
  - split; [|done]. intros H%elem_of_cons.
    by destruct H as [?|H%elem_of_nil].
Qed.

(** The response [{success: true, message: "ok"}]: the snack bar shows "ok"
    and the list is loaded again. *)
Example startProcess_next_ok :
  effects (startProcess_next "p1"
             (JObj [("success", JBool true); ("message", JStr "ok")])
             sampleStarting)
  = [SnackBarOpen (JStr "ok") "Cerrar" 4000; HttpGetProcesses].
Proof. reflexivity. Qed.

Example startProcess_next_refused :
  effects (startProcess_next "p1" (JObj [("success", JBool false)]) sampleStarting)
  = [SnackBarOpen (JStr "No se pudo iniciar el proceso") "Cerrar" 4000].
Proof. reflexivity. Qed.

(** Claim C5.  The [error] callback of a start request logs the error and
    opens the snack bar with the first of [err.error.message],
    [err.message] and [err.statusText] that is neither [null] nor
    [undefined], and with "Error de red" when none is.  It sends no request,
    leaves the list as it is and removes the identifier from the in-flight
    set, so that calling [startProcess] again for it sends a new request. *)
Theorem startProcess_error_response (i : string) (err : JsValue) (st : Component) :
  let o := startProcess_error i err st in
  let message :=
    firstPresent [optProp (optProp err "error") "message";
                  optProp err "message";
                  optProp err "statusText"] (JStr "Error de red") in
  thrown o = None /\
  effects o = [ConsoleError "Error starting process" err;
               SnackBarOpen message "Cerrar" 4000] /\
  processes (after o) = processes st /\
  startingProcessIds (after o) = (startingProcessIds st ∖ {[i]}) /\
  (i ∉ startingProcessIds (after o)) /\
  (forall p, truthy (id p) = true -> toString (id p) = Ok i ->
             effects (startProcess (Some p) (after o)) = [HttpStartProcess i]).
Proof.
  unfold startProcess_error, coalesce. simpl.
  split; [done|]. split; [done|]. split; [done|]. split; [done|].
  split; [apply not_elem_of_removed|].
  intros p Hid Hs. unfold startProcess. rewrite Hid, Hs. simpl.
  rewrite bool_decide_eq_false_2 by apply not_elem_of_removed. done.
Qed.

Lemma startProcess_error_response_witness :
  effects (startProcess (Some sampleProcess)
             (after (startProcess_error "p1" JNull sampleStarting)))
  = [HttpStartProcess "p1"].
Proof.
  apply (proj2 (proj2 (proj2 (proj2 (proj2
           (startProcess_error_response "p1" JNull sampleStarting)))))
           sampleProcess); reflexivity.
Defined.

Example startProcess_error_messages :
  let shownFor err := effects (startProcess_error "p1" err sampleStarting) in
  shownFor (JObj [("error", JObj [("message", JStr "No existe")]);
                  ("message", JStr "Http failure"); ("statusText", JStr "Not Found")])
  = [ConsoleError "Error starting process"
       (JObj [("error", JObj [("message", JStr "No existe")]);
              ("message", JStr "Http failure"); ("statusText", JStr "Not Found")]);
     SnackBarOpen (JStr "No existe") "Cerrar" 4000] /\
  List.filter isSnackBar
    (shownFor (JObj [("error", JStr "<html>"); ("message", JStr "Http failure")]))
  = [SnackBarOpen (JStr "Http failure") "Cerrar" 4000] /\
  List.filter isSnackBar (shownFor (JObj [("statusText", JStr "Unknown Error")]))
  = [SnackBarOpen (JStr "Unknown Error") "Cerrar" 4000] /\
  List.filter isSnackBar (shownFor JUndefined)
  = [SnackBarOpen (JStr "Error de red") "Cerrar" 4000].
Proof. repeat split; reflexivity. Qed.

End StartFacts.

(** ** Saving an edit *)

Module EditFacts.
Import Js Processes Spec Samples JsFacts.

Lemma normalizeParameter_sentAs (p q : JsValue) :
  normalizeParameter p = Ok q -> sentAs p q.
Proof.
  unfold normalizeParameter, sentAs.
  rewrite <- !(optProp_getOwn p) by done.
  destruct (strictEquals (optProp p "type") (JStr "number")) eqn:Ht.
  - apply strictEquals_string in Ht.
    intros H. apply bind_Ok in H as (n & Hn & [= <-]). split; [eauto|done].
  - intros [= <-]. split; [|done].
    intros H. apply strictEquals_string in H. congruence.
Qed.

Lemma toNumber_blank (p : JsValue) :
  blankNumber p -> toNumber (optProp p "value") = Ok (S754_zero false).
Proof.
  intros [_ [->|(s & -> & Hs)]]; [done|].
  simpl. by rewrite StringToNumber_blank.
Qed.

(** What [updateSelectedProcess] sends, when it sends something. *)
Lemma updateSelectedProcess_request (st : Component) (i : string) (body : PatchBody) :
  effects (updateSelectedProcess st) = [HttpPatchProcess i body] ->
  exists sel edited,
    selectedProcess st = Some sel /\
    editedProcess st = Some edited /\
    toString (id sel) = Ok i /\
    body_name body = name edited /\
    body_description body = description edited /\
    mapM normalizeParameter (editedParameters st) = Ok (body_parameters body).
Proof.
  unfold updateSelectedProcess.
  destruct (selectedProcess st) as [sel|]; [|done].
  destruct (mapM normalizeParameter (editedParameters st)) as [ps|]; [|done].
  simpl. destruct (editedProcess st) as [edited|]; [|done]. simpl.
  destruct (toString (id sel)) as [j|] eqn:Hj; [|done]. simpl.
  intros [= -> <-]. by exists sel, edited.
Qed.

(** With a process selected and a draft in place, the request is sent
    unless a parameter value or the identifier is an object that hides
    [toString]. *)
Lemma updateSelectedProcess_sends (st : Component) (sel edited : ProcessRecord) :
  selectedProcess st = Some sel ->
  editedProcess st = Some edited ->
  isPrimitive (id sel) = true ->
  Forall (fun p => isPrimitive (optProp p "value") = true) (editedParameters st) ->
  exists i body, updateSelectedProcess st = done st [HttpPatchProcess i body].
Proof.
  intros Hsel Hedited Hid Hparams. unfold updateSelectedProcess.
  rewrite Hsel, Hedited.
  assert (exists ps, mapM normalizeParameter (editedParameters st) = Ok ps)
    as [ps ->].
  { induction Hparams as [|p l Hp _ [ps IH]]; [by exists []|].
    assert (exists q, normalizeParameter p = Ok q) as [q Hq].
    { unfold normalizeParameter.
      rewrite <- !(optProp_getOwn p) by done.
      destruct (strictEquals _ _); [|eauto].
      destruct (optProp p "value") as [v| |]; try done. simpl. eauto. }
    exists (q :: ps). cbn. rewrite Hq. cbn. by rewrite IH. }
  simpl. destruct (id sel) as [v| |]; try done. simpl. eauto.
Qed.

(** Claim C7.  In the payload [updateSelectedProcess] sends, the parameters
    are those of [editedParameters], in order, each as a copy: a parameter
    whose [type] is "number" has [Number(value)] for value, and its value as
    it was when that is [NaN]; any other parameter is copied as it is. *)
Theorem updateSelectedProcess_coerces_numbers
    (st : Component) (i : string) (body : PatchBody) :
  effects (updateSelectedProcess st) = [HttpPatchProcess i body] ->
  Forall2 (fun p q =>
             sentAs p q /\
             (optProp p "type" = JStr "number" ->
              exists n, toNumber (optProp p "value") = Ok n /\
                        optProp q "value" =
                          if isNaN n then optProp p "value" else JNum n) /\
             (optProp p "type" <> JStr "number" ->
              forall k, optProp q k = getOwn JUndefined k (ownProps p)))
          (editedParameters st) (body_parameters body).
Proof.
  intros H. apply updateSelectedProcess_request in H
    as (sel & edited & _ & _ & _ & _ & _ & H).
  apply mapM_Ok in H. eapply Forall2_impl; [exact H|].
  intros p q Hsent%normalizeParameter_sentAs. split; [done|].
  destruct Hsent as [Hnum Hother]. split.
  - intros Ht. destruct (Hnum Ht) as (n & Hn & ->). exists n. split; [done|].
    simpl. apply getOwn_assign.
  - intros Ht k. by rewrite (Hother Ht).
Qed.

Lemma updateSelectedProcess_coerces_numbers_witness :
  Forall2 (fun p q =>
             sentAs p q /\
             (optProp p "type" = JStr "number" ->
              exists n, toNumber (optProp p "value") = Ok n /\
                        optProp q "value" =
                          if isNaN n then optProp p "value" else JNum n) /\
             (optProp p "type" <> JStr "number" ->
              forall k, optProp q k = getOwn JUndefined k (ownProps p)))
          (editedParameters sampleEditing) (body_parameters sampleBody).
Proof.
  apply (updateSelectedProcess_coerces_numbers sampleEditing "p1" sampleBody).
  vm_compute. reflexivity.
Defined.

(** ["42"] becomes [42], ["abc"] stays, and a parameter of another type
    keeps its string. *)
Example normalizeParameter_samples :
  normalizeParameter (numberParameter (JStr "42"))
    = Ok (numberParameter (JNum (ofZ 42))) /\
  normalizeParameter (numberParameter (JStr "abc"))
    = Ok (numberParameter (JStr "abc")) /\
  normalizeParameter (textParameter (JStr "42"))
    = Ok (textParameter (JStr "42")) /\
  normalizeParameter (numberParameter (JStr "1e3"))
    = Ok (numberParameter (JNum (ofZ 1000))) /\
  normalizeParameter (numberParameter (JBool true))
    = Ok (numberParameter (JNum (ofZ 1))) /\
  normalizeParameter (JObj [("type", JStr "number")])
    = Ok (JObj [("type", JStr "number"); ("value", JUndefined)]).
Proof. by vm_compute. Qed.

Example updateSelectedProcess_sample :
  updateSelectedProcess sampleEditing
  = done sampleEditing [HttpPatchProcess "p1" sampleBody].
Proof. by vm_compute. Qed.

(** Claim C10.  In the payload, a parameter whose [type] is "number" and
    whose value is the empty string, a string of white space or [null] has
    the number [+0] for value, because [Number] maps these to [0]; more
    generally the value is [Number(value)] whenever that is not [NaN]. *)
Theorem updateSelectedProcess_blank_is_zero
    (st : Component) (i : string) (body : PatchBody) :
  effects (updateSelectedProcess st) = [HttpPatchProcess i body] ->
  Forall2 (fun p q =>
             (blankNumber p -> optProp q "value" = JNum (S754_zero false)) /\
             (optProp p "type" = JStr "number" ->
              forall n, toNumber (optProp p "value") = Ok n ->
                        isNaN n = false -> optProp q "value" = JNum n))
          (editedParameters st) (body_parameters body).
Proof.
  intros H. apply updateSelectedProcess_request in H
    as (sel & edited & _ & _ & _ & _ & _ & H).
  apply mapM_Ok in H. eapply Forall2_impl; [exact H|].
  intros p q [Hnum _]%normalizeParameter_sentAs. split.
  - intros Hb. pose proof (toNumber_blank p Hb) as Hz.
    destruct Hb as [Ht _]. destruct (Hnum Ht) as (n & Hn & ->).
    rewrite Hz in Hn. injection Hn as <-. simpl. apply getOwn_assign.
  - intros Ht n Hn Hnan. destruct (Hnum Ht) as (n' & Hn' & ->).
    rewrite Hn in Hn'. injection Hn' as <-. rewrite Hnan. simpl.
    apply getOwn_assign.
Qed.

Lemma updateSelectedProcess_blank_is_zero_witness :
  Forall2 (fun p q =>
             (blankNumber p -> optProp q "value" = JNum (S754_zero false)) /\
             (optProp p "type" = JStr "number" ->
              forall n, toNumber (optProp p "value") = Ok n ->
                        isNaN n = false -> optProp q "value" = JNum n))
          (editedParameters sampleEditing) (body_parameters sampleBody).
Proof.
  apply (updateSelectedProcess_blank_is_zero sampleEditing "p1" sampleBody).
  vm_compute. reflexivity.
Defined.

Example normalizeParameter_blank_samples :
  normalizeParameter (numberParameter (JStr ""))
    = Ok (numberParameter (JNum (S754_zero false))) /\
  normalizeParameter (numberParameter (JStr "  "))
    = Ok (numberParameter (JNum (S754_zero false))) /\
  normalizeParameter (numberParameter JNull)
    = Ok (numberParameter (JNum (S754_zero false))) /\
  normalizeParameter (numberParameter JUndefined)
    = Ok (numberParameter JUndefined) /\
  blankNumber (numberParameter (JStr "  ")).
Proof.
  repeat split; try (by vm_compute). right. by exists "  ".
Qed.



(** Saving the sample session, and the callback firing after the session
    was cancelled. *)
Example updateSelectedProcess_next_sample :
  after (updateSelectedProcess_next sampleBody JNull sampleEditing)
  = setProcesses [otherProcess; merged sampleProcess sampleBody] initial /\
  thrown (updateSelectedProcess_next sampleBody JNull
            (setSelectedProcess None sampleEditing)) = Some TypeError.
Proof. split; reflexivity. Qed.

End EditFacts.

(** ** The time-ago text *)

Module TimeFacts.
Import Js Processes Spec Samples.

Lemma agoText_nonempty (d : number) : agoText d <> "".
Proof. unfold agoText. by repeat case_match. Qed.

Lemma formatTimeAgo_present (parse : string -> number) (now : number) (iso : string) :
  iso <> "" ->
  formatTimeAgo parse now (Some iso) =
  agoText (floor (div (sub now (parse iso)) (ofZ 1000))).
Proof. intros Hiso. by destruct iso. Qed.

(** Claim C9, amended.  [formatTimeAgo] returns the empty string for a
    [null] timestamp and for the empty string; for any other timestamp it
    returns the text of the specification for the whole seconds elapsed
    since then: seconds below 60, else minutes below 60, else hours below
    24, else days.  A timestamp 90 seconds old reads "Hace 1 min". *)
Theorem formatTimeAgo_text (parse : string -> number) (now : number)
    (isoDate : option string) :
  isoDate <> Some "" ->
  formatTimeAgo parse now isoDate = agoSpec parse now isoDate /\
  formatTimeAgo parse now None = "" /\
  formatTimeAgo parse now (Some "") = "" /\
  (forall iso, isoDate = Some iso ->
     sub now (parse iso) = ofZ 90000 ->
     formatTimeAgo parse now isoDate = "Hace 1 min").
Proof.
  intros Hne. split; [|split; [done|split; [done|]]].
  - destruct isoDate as [iso|]; [|done]. simpl agoSpec.
    apply formatTimeAgo_present. congruence.
  - intros iso -> Hdiff. rewrite formatTimeAgo_present by congruence.
    rewrite Hdiff. by vm_compute.
Qed.

Lemma formatTimeAgo_text_witness :
  formatTimeAgo sampleParse sampleNow (Some "2025-01-01T00:00:00Z") = "Hace 1 min".
Proof.
  apply (proj2 (proj2 (proj2
           (formatTimeAgo_text sampleParse sampleNow
              (Some "2025-01-01T00:00:00Z") ltac:(discriminate))))
           "2025-01-01T00:00:00Z").
  - reflexivity.
  - vm_compute. reflexivity.
Defined.

(** Claim C9 as stated fails on the empty string: it is a timestamp that is
    not [null], and the component answers the empty string where the
    specification has a text that starts with "Hace". *)
Lemma formatTimeAgo_empty_string :
  ~ (forall parse now isoDate,
       formatTimeAgo parse now isoDate = agoSpec parse now isoDate).
Proof.
  intros H. specialize (H (fun _ => NaN) (ofZ 0) (Some "")).
  by vm_compute in H.
Qed.

Example formatTimeAgo_samples :
  let at_ (secondsAgo : Z) :=
    formatTimeAgo (fun _ => ofZ 1735689600000)
                  (ofZ (1735689600000 + secondsAgo * 1000 + 999)) (Some "t") in
  at_ 0 = "Hace 0 seg" /\
  at_ 59 = "Hace 59 seg" /\
  at_ 60 = "Hace 1 min" /\
  at_ 90 = "Hace 1 min" /\
  at_ 3599 = "Hace 59 min" /\
  at_ 3600 = "Hace 1 h" /\
  at_ 86399 = "Hace 23 h" /\
  at_ 86400 = "Hace 1 d" /\
  at_ 864000 = "Hace 10 d" /\
  at_ (-5) = "Hace -5 seg" /\
  formatTimeAgo (fun _ => NaN) (ofZ 0) (Some "garbage") = "Hace NaN d".
Proof. by vm_compute. Qed.

End TimeFacts.

(** ** The edit session over the store *)

Module StoreFacts.
Import Js Store StoreSamples JsFacts.

Lemma closedVal_extend (h new : Heap) (v : Val) :
  closedVal h v = true -> closedVal (h ++ new) v = true.
Proof.
  destruct v as [|l]; [done|]. simpl. rewrite !bool_decide_eq_true, length_app. lia.
Qed.

Lemma ownProps_extend (h new : Heap) (v : Val) :
  closedVal h v = true -> ownProps (h ++ new) v = ownProps h v.
Proof.
  destruct v as [|l]; [done|]. simpl. intros Hl%bool_decide_eq_true.
  by rewrite lookup_app_l.
Qed.

Lemma optProp_extend (h new : Heap) (v : Val) (k : string) :
  closedVal h v = true -> optProp (h ++ new) v k = optProp h v k.
Proof.
  destruct v as [|l]; [done|]. intros Hl. unfold optProp.
  rewrite (ownProps_extend h new (VRef l) Hl).
  simpl in Hl. apply bool_decide_eq_true in Hl. by rewrite lookup_app_l.
Qed.

Lemma closedHeap_cell (h : Heap) (l : loc) (c : Cell) :
  closedHeap h = true -> h !! l = Some c -> closedCell h c = true.
Proof.
  unfold closedHeap. rewrite forallb_forall. intros H Hl. apply H.
  apply list_elem_of_In. by eapply list_elem_of_lookup_2.
Qed.

Lemma closedHeap_items (h : Heap) (v : Val) :
  closedHeap h = true -> Forall (fun x => closedVal h x = true) (itemsOf h v).
Proof.
  intros Hh. destruct v as [|l]; simpl; [constructor|].
  destruct (h !! l) as [[props|items]|] eqn:Hl; try constructor.
  pose proof (closedHeap_cell h l _ Hh Hl) as Hc. simpl in Hc.
  rewrite forallb_forall in Hc. apply Forall_forall. intros x Hx.
  apply Hc. by apply list_elem_of_In.
Qed.

Lemma closedHeap_prop (h : Heap) (l : loc) (k : string) :
  closedHeap h = true -> closedVal h (optProp h (VRef l) k) = true.
Proof.
  intros Hh. unfold optProp, ownProps.
  assert (forall (ps : list (string * Val)),
            forallb (fun kv => closedVal h (snd kv)) ps = true ->
            closedVal h (getOwn (VPrim PUndefined) k ps) = true) as Hlookup.
  { induction ps as [|[k' v] ps IH]; simpl; [done|].
    intros [Hv Hps]%andb_true_iff. destruct (String.eqb k k'); auto. }
  assert (forall (items : list Val) n,
            forallb (closedVal h) items = true ->
            forallb (fun kv => closedVal h (snd kv)) (indexed n items) = true)
    as Hindexed.
  { induction items as [|x items IH]; intros n; simpl; [done|].
    intros [Hx Hitems]%andb_true_iff. rewrite Hx. simpl. by apply IH. }
  destruct (h !! l) as [[props|items]|] eqn:Hl; simpl; try done.
  - apply Hlookup. apply (closedHeap_cell h l _ Hh Hl).
  - destruct (String.eqb k "length"); [done|].
    apply Hlookup, Hindexed. apply (closedHeap_cell h l _ Hh Hl).
Qed.

Lemma Forall2_refine {A B : Type} (P : A -> Prop) (R R' : A -> B -> Prop)
    (l : list A) (l' : list B) :
  Forall P l -> Forall2 R l l' ->
  (forall x y, P x -> R x y -> R' x y) ->
  Forall2 R' l l'.
Proof.
  intros HP HR Himpl. induction HR as [|x y l l' Hxy _ IH]; [constructor|].
  apply Forall_cons in HP as [Hx HP]. constructor; auto.
Qed.

Lemma copyItems_spec (h : Heap) (items copies : list Val) (h' : Heap) :
  Forall (fun x => closedVal h x = true) items ->
  copyItems h items = (copies, h') ->
  (exists new, h' = h ++ new) /\
  Forall2 (freshCopy h h') items copies.
Proof.
  revert h copies h'. induction items as [|p items IH]; intros h copies h' Hc; simpl.
  - intros [= <- <-]. split; [exists []; by rewrite app_nil_r | constructor].
  - apply Forall_cons in Hc as [Hp Hitems].
    destruct (copyItems (h ++ [CObj (ownProps h p)]) items) as [ls h2] eqn:Hrest.
    intros [= <- <-].
    apply IH in Hrest as [[new ->] Hcopies].
    2:{ eapply Forall_impl; [exact Hitems|]. intros x. apply closedVal_extend. }
    split; [exists (CObj (ownProps h p) :: new); by rewrite <- app_assoc|].
    constructor.
    + exists (length h). repeat split; [done|].
      rewrite <- app_assoc. by rewrite lookup_app_r, Nat.sub_diag by done.
    + eapply Forall2_refine; [exact Hitems | exact Hcopies |].
      intros src copy Hsrc (c & -> & Hc & Hcell). exists c.
      rewrite length_app in Hc. simpl in Hc. repeat split; [lia|].
      by rewrite Hcell, ownProps_extend.
Qed.

(** [copyParameters] succeeds on an array and on a falsy value. *)
Lemma copyParameters_spec (h : Heap) (params copies : Val) (h' : Heap) :
  closedHeap h = true ->
  copyParameters h params = Ok (copies, h') ->
  (exists new, h' = h ++ new) /\
  (truthy params = true -> exists l items, params = VRef l /\ h !! l = Some (CArr items)) /\
  exists a ls,
    copies = VRef a /\ (length h <= a)%nat /\ h' !! a = Some (CArr ls) /\
    Forall2 (freshCopy h h') (if truthy params then itemsOf h params else []) ls.
Proof.
  intros Hh. unfold copyParameters.
  destruct (truthy params) eqn:Ht.
  - destruct params as [|l]; [done|]. simpl.
    destruct (h !! l) as [[props|items]|] eqn:Hl; try done.
    destruct (copyItems h items) as [ls h1] eqn:Hcopy.
    intros [= <- <-].
    apply copyItems_spec in Hcopy as [[new ->] Hcopies].
    2:{ pose proof (closedHeap_items h (VRef l) Hh) as H. simpl in H.
        by rewrite Hl in H. }
    split; [exists (new ++ [CArr ls]); by rewrite app_assoc|].
    split; [eauto|].
    exists (length (h ++ new)), ls. repeat split.
    + rewrite length_app. lia.
    + by rewrite lookup_app_r, Nat.sub_diag by done.
    + eapply Forall2_impl; [exact Hcopies|].
      intros src copy (c & -> & Hc & Hcell). exists c. repeat split; [done|].
      rewrite lookup_app_l; [done|]. by eapply lookup_lt_Some.
  - simpl. rewrite lookup_app_r, Nat.sub_diag by done. simpl.
    intros [= <- <-].
    split; [exists [CArr []; CArr []]; by rewrite <- app_assoc|].
    split; [done|].
    exists (length (h ++ [CArr []])), []. repeat split.
    + rewrite length_app. lia.
    + by rewrite lookup_app_r, Nat.sub_diag by done.
    + constructor.
Qed.

(** [copyParameters] succeeds on an array and on a falsy value, in the
    store and in every extension of it. *)
Lemma copyParameters_array (h new : Heap) (params : Val) :
  closedHeap h = true ->
  closedVal h params = true ->
  (truthy params = true ->
   exists l items, params = VRef l /\ h !! l = Some (CArr items)) ->
  exists copies more,
    copyParameters (h ++ new) params = Ok (copies, h ++ new ++ more).
Proof.
  intros Hh Hp Harr.
  unfold copyParameters. destruct (truthy params) eqn:Ht.
  - destruct (Harr eq_refl) as (l & items & -> & Hl).
    rewrite (lookup_app_l_Some _ _ _ _ Hl).
    destruct (copyItems (h ++ new) items) as [ls h1] eqn:Hitems.
    apply copyItems_spec in Hitems as [[more ->] _].
    2:{ pose proof (closedHeap_items h (VRef l) Hh) as H. simpl in H.
        rewrite Hl in H. eapply Forall_impl; [exact H|].
        intros x. apply closedVal_extend. }
    simpl. eexists _, (more ++ [_]). by rewrite !app_assoc.
  - simpl. rewrite lookup_app_r, Nat.sub_diag by done. simpl.
    eexists _, [_; _]. f_equal. f_equal. by rewrite <- !app_assoc.
Qed.

Lemma closedCell_extend (h new : Heap) (c : Cell) :
  closedCell h c = true -> closedCell (h ++ new) c = true.
Proof.
  destruct c as [props|items]; simpl; rewrite !forallb_forall;
    intros H x Hx; apply closedVal_extend; by apply H.
Qed.

Lemma closedHeap_alloc (h : Heap) (c : Cell) :
  closedHeap h = true -> closedCell h c = true -> closedHeap (h ++ [c]) = true.
Proof.
  unfold closedHeap. intros Hh Hc. rewrite forallb_app. simpl.
  rewrite (closedCell_extend h [c] c Hc), andb_true_r.
  rewrite forallb_forall in Hh. apply forallb_forall.
  intros x Hx. apply closedCell_extend. by apply Hh.
Qed.

Lemma closedCell_indexed (h : Heap) (items : list Val) (n : N) :
  forallb (closedVal h) items = true ->
  forallb (fun kv => closedVal h (snd kv)) (indexed n items) = true.
Proof.
  revert n. induction items as [|x items IH]; intros n; simpl; [done|].
  intros [-> Hitems]%andb_true_iff. simpl. by apply IH.
Qed.

Lemma closedCell_ownProps (h : Heap) (l : loc) :
  closedHeap h = true -> closedCell h (CObj (ownProps h (VRef l))) = true.
Proof.
  intros Hh. simpl. destruct (h !! l) as [[props|items]|] eqn:Hl; [| |done].
  - apply (closedHeap_cell h l _ Hh Hl).
  - apply closedCell_indexed. apply (closedHeap_cell h l _ Hh Hl).
Qed.

Lemma freshCopy_weaken (h h1 h2 : Heap) (new : Heap) (src copy : Val) :
  h1 = h ++ new ->
  closedVal h src = true ->
  freshCopy h1 h2 src copy -> freshCopy h h2 src copy.
Proof.
  intros -> Hsrc (c & -> & Hc & Hcell). exists c.
  rewrite length_app in Hc. repeat split; [lia|].
  by rewrite Hcell, ownProps_extend.
Qed.

(** What [selectProcess] leaves behind when it returns: the store grown by
    the new objects, the drafts among them. *)
Lemma selectProcess_outcome (h : Heap) (ed : Editor) (p : loc) :
  closedHeap h = true ->
  (p < length h)%nat ->
  thrown (selectProcess h ed (VRef p)) = None ->
  exists new a copies,
    selectProcess h ed (VRef p)
    = {| heap := h ++ new;
         editor := setEditedParameters (VRef a)
                     (setEditedProcess (VRef (length h))
                        (setSelectedProcess (VRef p) ed));
         thrown := None |} /\
    (h ++ new) !! length h = Some (CObj (ownProps h (VRef p))) /\
    (length h <= a)%nat /\
    (h ++ new) !! a = Some (CArr copies) /\
    Forall2 (freshCopy h (h ++ new))
            (itemsOf h (optProp h (VRef p) "parameters")) copies /\
    (truthy (optProp h (VRef p) "parameters") = true ->
     exists l items, optProp h (VRef p) "parameters" = VRef l /\
                     h !! l = Some (CArr items)).
Proof.
  intros Hh Hp. unfold selectProcess, alloc, prop.
  cbn [nullish mbind result_bind]. cbv zeta.
  set (h1 := h ++ [CObj _]).
  assert (closedVal h (VRef p) = true) as Hcp by by apply bool_decide_eq_true.
  assert (closedHeap h1 = true) as Hh1.
  { apply closedHeap_alloc; [done|]. by apply closedCell_ownProps. }
  assert (optProp h1 (VRef p) "parameters" = optProp h (VRef p) "parameters")
    as Hparams by by apply optProp_extend.
  rewrite Hparams.
  set (params := optProp h (VRef p) "parameters") in *.
  assert (closedVal h params = true) as Hcparams by by apply closedHeap_prop.
  destruct (copyParameters h1 params) as [[copies h2]|e] eqn:Hcopy; [|done].
  intros _.
  destruct (copyParameters_spec _ _ _ _ Hh1 Hcopy)
    as ([new ->] & Harr & a & ls & -> & Ha & Hcell & Hcopies).
  assert (forall l items, params = VRef l -> h1 !! l = Some (CArr items) ->
                          h !! l = Some (CArr items)) as Hback.
  { intros l items Hl Hitems. rewrite Hl in Hcparams. simpl in Hcparams.
    apply bool_decide_eq_true in Hcparams. unfold h1 in Hitems.
    by rewrite lookup_app_l in Hitems. }
  assert ((if truthy params then itemsOf h1 params else []) = itemsOf h params)
    as Hitems.
  { destruct (truthy params) eqn:Ht.
    - destruct (Harr eq_refl) as (l & items & Hl & Hcell').
      rewrite Hl. simpl. by rewrite Hcell', (Hback l items Hl Hcell').
    - by destruct params. }
  rewrite Hitems in Hcopies.
  assert (Forall2 (freshCopy h (h1 ++ new)) (itemsOf h params) ls) as Hfresh.
  { eapply Forall2_refine; [apply (closedHeap_items h params Hh) | exact Hcopies |].
    intros src copy Hsrc Hcopy'.
    by apply (freshCopy_weaken h h1 _ [CObj (ownProps h (VRef p))] src copy). }
  assert (length h <= a)%nat as Hage.
  { unfold h1 in Ha. rewrite length_app in Ha. lia. }
  assert (h1 ++ new = h ++ CObj (ownProps h (VRef p)) :: new) as Hheap.
  { unfold h1. by rewrite <- app_assoc. }
  exists (CObj (ownProps h (VRef p)) :: new), a, ls.
  rewrite <- Hheap. split; [done|]. split.
  { rewrite Hheap. by rewrite lookup_app_r, Nat.sub_diag by done. }
  split; [done|]. split; [done|]. split; [done|].
  intros Ht. destruct (Harr Ht) as (l & items & Hl & Hcell').
  exists l, items. split; [done|]. by apply Hback.
Qed.

(** What [cancelEdit] leaves behind after it: a store grown again, the
    session closed. *)
Lemma cancelEdit_outcome (h new : Heap) (ed : Editor) (p : loc) :
  closedHeap h = true ->
  (p < length h)%nat ->
  selectedProcess ed = VRef p ->
  (truthy (optProp h (VRef p) "parameters") = true ->
   exists l items, optProp h (VRef p) "parameters" = VRef l /\
                   h !! l = Some (CArr items)) ->
  exists copies more,
    cancelEdit (h ++ new) ed
    = {| heap := h ++ new ++ more;
         editor := setSelectedProcess (VPrim PNull)
                     (setEditedProcess (VPrim PNull)
                        (setEditedParameters copies ed));
         thrown := None |}.
Proof.
  intros Hh Hp Hsel Harr. unfold cancelEdit, prop. rewrite Hsel.
  cbn [truthy negb nullish mbind result_bind].
  assert (closedVal h (VRef p) = true) as Hcp by by apply bool_decide_eq_true.
  rewrite (optProp_extend h new (VRef p) "parameters" Hcp).
  destruct (copyParameters_array h new (optProp h (VRef p) "parameters") Hh)
    as (copies & more & ->); [by apply closedHeap_prop | done |].
  by exists copies, more.
Qed.

(** Claim C6, amended.  For a record [p] of the store, [selectProcess(p)]
    allocates: it changes no object that existed, the record and the list
    included.  [editedProcess] is a new object with the own properties of
    [p] (a shallow copy: the same primitives, the same references), and
    [editedParameters] a new array of new objects, one per parameter, each
    with the own properties of its source.  Whatever is then written into
    these new objects leaves every older object as it was.  [cancelEdit]
    after it again changes no older object and closes the session. *)
Theorem selectProcess_shallow_snapshot (h : Heap) (ed : Editor) (p : loc) :
  closedHeap h = true ->
  (p < length h)%nat ->
  let o := selectProcess h ed (VRef p) in
  let o' := cancelEdit (heap o) (editor o) in
  thrown o = None ->
  (forall l c, h !! l = Some c -> heap o !! l = Some c) /\
  processes (editor o) = processes ed /\
  selectedProcess (editor o) = VRef p /\
  freshCopy h (heap o) (VRef p) (editedProcess (editor o)) /\
  (exists a copies,
     editedParameters (editor o) = VRef a /\ (length h <= a)%nat /\
     heap o !! a = Some (CArr copies) /\
     Forall2 (freshCopy h (heap o))
             (itemsOf h (optProp h (VRef p) "parameters")) copies) /\
  (forall l c l',
     (length h <= l)%nat -> (l' < length h)%nat ->
     <[ l := c ]> (heap o) !! l' = h !! l') /\
  thrown o' = None /\
  (forall l c, h !! l = Some c -> heap o' !! l = Some c) /\
  processes (editor o') = processes ed /\
  selectedProcess (editor o') = VPrim PNull /\
  editedProcess (editor o') = VPrim PNull.
Proof.
  intros Hh Hp o o' Hok. subst o o'.
  destruct (selectProcess_outcome h ed p Hh Hp Hok)
    as (new & a & copies & -> & Hdraft & Ha & Hcell & Hcopies & Harr).
  cbn [heap editor].
  destruct (cancelEdit_outcome h new
              (setEditedParameters (VRef a)
                 (setEditedProcess (VRef (length h))
                    (setSelectedProcess (VRef p) ed))) p Hh Hp eq_refl Harr)
    as (copies' & more & ->).
  cbn [heap editor thrown].
  split; [intros l c Hl; by apply lookup_app_l_Some|].
  split; [done|]. split; [done|].
  split; [by exists (length h)|].
  split; [by exists a, copies|].
  split.
  { intros l c l' Hl Hl'. rewrite list_lookup_insert_ne by lia.
    by rewrite lookup_app_l. }
  split; [done|].
  split; [intros l c Hl; by apply lookup_app_l_Some|].
  done.
Qed.

(** Claim C6 as stated fails: the drafts are not independent of the record.
    In the sample store the metadata draft holds the parameter array of the
    record itself. *)
Lemma selectProcess_drafts_alias :
  ~ (forall h ed p,
       closedHeap h = true -> (p < length h)%nat ->
       thrown (selectProcess h ed (VRef p)) = None ->
       independentDrafts (heap (selectProcess h ed (VRef p)))
                         (editor (selectProcess h ed (VRef p))) p).
Proof.
  intros H.
  destruct (H sampleHeap sampleEditor 1%nat) as [Hmeta _]; [done | simpl; lia | done |].
  apply Hmeta. exists 2%nat. split.
  - eapply (reaches_prop _ 5%nat _ "parameters" (VRef 2%nat)); [done| |constructor].
    vm_compute. do 3 right. left.
  - eapply (reaches_prop _ 1%nat _ "parameters" (VRef 2%nat)); [done| |constructor].
    do 3 right. left.
Qed.

(** In the sample store: [editedProcess.parameters] is [p.parameters], and
    the copied parameter holds the very array its source holds.  Writing an
    item through the draft changes what the record reads; writing a
    property of the draft does not. *)
Example selectProcess_sample :
  let h := heap sampleSelected in
  let ed := editor sampleSelected in
  thrown sampleSelected = None /\
  editedProcess ed = VRef 5%nat /\
  editedParameters ed = VRef 7%nat /\
  optProp h (editedProcess ed) "parameters" = optProp h (VRef 1%nat) "parameters" /\
  optProp h (optProp h (editedParameters ed) "0") "value" = VRef 4%nat /\
  optProp h (optProp h (optProp h (VRef 1%nat) "parameters") "0") "value" = VRef 4%nat /\
  (let h' := assignItem h 2%nat 0%nat (VPrim (PStr "changed")) in
   optProp h' (optProp h' (editedProcess ed) "parameters") "0" = VPrim (PStr "changed") /\
   optProp h' (optProp h' (VRef 1%nat) "parameters") "0" = VPrim (PStr "changed")) /\
  (let h' := assignProp h 5%nat "name" (VPrim (PStr "Renamed")) in
   optProp h' (editedProcess ed) "name" = VPrim (PStr "Renamed") /\
   optProp h' (VRef 1%nat) "name" = VPrim (PStr "Backup")).
Proof. by vm_compute. Qed.

Lemma selectProcess_shallow_snapshot_witness :
  heap (cancelEdit (heap sampleSelected) (editor sampleSelected)) !! 1%nat
  = sampleHeap !! 1%nat.
Proof.
  destruct (selectProcess_shallow_snapshot sampleHeap sampleEditor 1%nat)
    as (_ & _ & _ & _ & _ & _ & _ & Hframe & _).
  - vm_compute. reflexivity.
  - vm_compute. lia.
  - vm_compute. reflexivity.
  - apply (Hframe 1%nat). reflexivity.
Defined.

(** *** Reading the store as values

    The drafts, read out of the store as values, are what the value-level
    [Processes.selectProcess] computes. *)

Lemma load_ref (d : nat) (h : Heap) (l : loc) :
  load (S d) h (VRef l) =
  match h !! l with
  | Some (CObj props) => JObj (map (fun kv => (fst kv, load d h (snd kv))) props)
  | Some (CArr items) => JArr (map (load d h) items)
  | None => JUndefined
  end.
Proof. reflexivity. Qed.

Lemma load_extend (d : nat) (h new : Heap) (v : Val) :
  closedHeap h = true -> closedVal h v = true ->
  load d (h ++ new) v = load d h v.
Proof.
  intros Hh. revert v. induction d as [|d IH].
  all: intros [p|l] Hv; [done|].
  { done. }
  rewrite !load_ref. unfold closedVal in Hv. apply bool_decide_eq_true in Hv.
  destruct (lookup_lt_is_Some_2 h l Hv) as [c Hl].
  rewrite (lookup_app_l_Some _ _ _ _ Hl), Hl.
  pose proof (closedHeap_cell h l _ Hh Hl) as Hc.
  destruct c as [props|items]; simpl in Hc; rewrite forallb_forall in Hc.
  - f_equal. apply map_ext_in. intros [k x] Hx.
    simpl. f_equal. apply IH. by apply (Hc (k, x)).
  - f_equal. apply map_ext_in. intros x Hx. apply IH. by apply Hc.
Qed.

Lemma indexed_map {A B : Type} (g : A -> B) (l : list A) (n : N) :
  indexed n (map g l) = map (fun kv => (fst kv, g (snd kv))) (indexed n l).
Proof.
  revert n. induction l as [|x l IH]; intros n; simpl; [done|]. by rewrite IH.
Qed.

Lemma load_ownProps (d : nat) (h : Heap) (v : Val) :
  Js.ownProps (load (S d) h v)
  = map (fun kv => (fst kv, load d h (snd kv))) (Store.ownProps h v).
Proof.
  destruct v as [p|l].
  - destruct p as [| | | |s]; try done. simpl.
    rewrite <- indexed_map. f_equal. rewrite !map_map. apply map_ext.
    intros u. by destruct d.
  - rewrite load_ref. simpl. destruct (h !! l) as [[props|items]|]; try done.
    simpl. apply indexed_map.
Qed.

(** A new copy reads as an object with the properties its source reads. *)
Lemma freshCopy_load (d : nat) (h new : Heap) (src copy : Val) :
  closedHeap h = true -> closedVal h src = true ->
  freshCopy h (h ++ new) src copy ->
  load (S d) (h ++ new) copy = JObj (Js.ownProps (load (S d) h src)).
Proof.
  intros Hh Hsrc (c & -> & Hc & Hcell). rewrite load_ref, Hcell.
  rewrite load_ownProps. f_equal. apply map_ext_in. intros [k x] Hx. simpl.
  f_equal. apply load_extend; [done|].
  destruct src as [p|l].
  - destruct p as [| | | |s]; simpl in Hx; try done.
    clear -Hx. revert Hx. generalize 0%N.
    induction (unitsOf s) as [|u us IH]; intros n; simpl; [done|].
    intros [[= _ <-]|Hx]; [done | by eapply IH].
  - pose proof (closedCell_ownProps h l Hh) as Hcl. simpl in Hcl.
    rewrite forallb_forall in Hcl. by apply (Hcl (k, x)).
Qed.

Lemma freshCopies_load (d : nat) (h new : Heap) (srcs copies : list Val) :
  closedHeap h = true ->
  Forall (fun x => closedVal h x = true) srcs ->
  Forall2 (freshCopy h (h ++ new)) srcs copies ->
  map (load (S d) (h ++ new)) copies
  = map (fun x => JObj (Js.ownProps x)) (map (load (S d) h) srcs).
Proof.
  intros Hh Hclosed Hcopies.
  induction Hcopies as [|src copy srcs cps Hc _ IH]; [done|].
  apply Forall_cons in Hclosed as [Hsrc Hclosed]. cbn [map].
  rewrite (freshCopy_load d h new src copy Hh Hsrc Hc). f_equal. by apply IH.
Qed.

Lemma mapM_pure {A B : Type} (g : A -> B) (l : list A) :
  mapM (fun x => Ok (g x)) l = Ok (map g l).
Proof. induction l as [|x l IH]; [done|]. cbn. by rewrite IH. Qed.

(** [selectProcess] over the store refines [selectProcess] over values: for
    a value-level record whose [parameters] are those the store record
    reads, both return or both throw; the parameter drafts of the store
    read as the value-level drafts, and the metadata draft reads as an
    object with the properties of the record. *)
Theorem selectProcess_refines (d : nat) (h : Heap) (ed : Editor) (p : loc)
    (r : Processes.ProcessRecord) (st : Processes.Component) :
  closedHeap h = true ->
  (p < length h)%nat ->
  Processes.parameters r = load (S (S d)) h (optProp h (VRef p) "parameters") ->
  let o := selectProcess h ed (VRef p) in
  let o' := Processes.selectProcess r st in
  thrown o = None ->
  Processes.thrown o' = None /\
  load (S (S d)) (heap o) (editedParameters (editor o))
    = JArr (Processes.editedParameters (Processes.after o')) /\
  load (S d) (heap o) (editedProcess (editor o))
    = JObj (Js.ownProps (load (S d) h (VRef p))).
Proof.
  intros Hh Hp Hr o o' Hok. subst o o'.
  destruct (selectProcess_outcome h ed p Hh Hp Hok)
    as (new & a & copies & -> & Hdraft & Ha & Hcell & Hcopies & Harr).
  cbn [heap editor editedParameters editedProcess setEditedParameters
       setEditedProcess setSelectedProcess].
  assert (closedVal h (VRef p) = true) as Hcp by by apply bool_decide_eq_true.
  remember (optProp h (VRef p) "parameters") as params eqn:Hparams.
  pose proof (freshCopies_load d h new _ _ Hh
                (closedHeap_items h params Hh) Hcopies) as Hread.
  assert (Processes.copyParameters (load (S (S d)) h params)
          = Ok (map (load (S d) (h ++ new)) copies)) as Hvalue.
  { rewrite Hread. unfold Processes.copyParameters.
    destruct (truthy params) eqn:Ht.
    - destruct (Harr eq_refl) as (l & items & Hl & Hitems).
      rewrite Hl, load_ref, Hitems. simpl. rewrite Hitems. apply mapM_pure.
    - destruct params as [prim|l]; [|done]. simpl in *. by rewrite Ht. }
  unfold Processes.selectProcess. rewrite Hr, Hvalue.
  cbn [Processes.thrown Processes.after Processes.done
       Processes.editedParameters Processes.setEditedParameters].
  split; [done|]. split.
  - by rewrite load_ref, Hcell.
  - apply (freshCopy_load d h new (VRef p) (VRef (length h)) Hh Hcp).
    by exists (length h).
Qed.

Example selectProcess_reads_sample :
  load 3 (heap sampleSelected) (editedParameters (editor sampleSelected))
  = JArr [JObj [("name", JStr "hosts"); ("type", JStr "list");
                ("value", JArr [JStr "alpha"])]] /\
  load 3 (heap sampleSelected) (editedProcess (editor sampleSelected))
  = load 3 sampleHeap (VRef 1%nat).
Proof. by vm_compute. Qed.

(** *** The store stays closed

    so that sessions can follow one another. *)

Lemma closedCell_ownProps_val (h : Heap) (v : Val) :
  closedHeap h = true -> closedCell h (CObj (ownProps h v)) = true.
Proof.
  intros Hh. destruct v as [p|l]; [|by apply closedCell_ownProps].
  destruct p as [| | | |s]; try done. simpl.
  generalize 0%N. induction (unitsOf s) as [|u us IH]; intros n; simpl; [done|].
  apply IH.
Qed.

Lemma copyItems_closed (h : Heap) (items copies : list Val) (h' : Heap) :
  closedHeap h = true ->
  copyItems h items = (copies, h') ->
  closedHeap h' = true /\ forallb (closedVal h') copies = true.
Proof.
  revert h copies h'. induction items as [|p items IH]; intros h copies h' Hh; simpl.
  - by intros [= <- <-].
  - destruct (copyItems (h ++ [CObj (ownProps h p)]) items) as [ls h2] eqn:Hrest.
    intros [= <- <-].
    pose proof Hrest as Hext.
    apply IH in Hrest as [Hh2 Hls].
    2:{ apply closedHeap_alloc; [done|]. by apply closedCell_ownProps_val. }
    split; [done|]. simpl. rewrite Hls, andb_true_r.
    apply bool_decide_eq_true.
    assert (exists new, h2 = (h ++ [CObj (ownProps h p)]) ++ new) as [new ->].
    { clear -Hext. revert Hext. generalize (h ++ [CObj (ownProps h p)]).
      revert ls h2. induction items as [|q items IH]; intros ls h2 h0; simpl.
      - intros [= <- <-]. exists []. by rewrite app_nil_r.
      - destruct (copyItems (h0 ++ [CObj (ownProps h0 q)]) items) as [ls' h3] eqn:H.
        intros [= <- <-]. apply IH in H as [new ->].
        exists (CObj (ownProps h0 q) :: new). by rewrite <- app_assoc. }
    rewrite !length_app. simpl. lia.
Qed.

Lemma copyParameters_closed (h : Heap) (params copies : Val) (h' : Heap) :
  closedHeap h = true ->
  copyParameters h params = Ok (copies, h') ->
  closedHeap h' = true /\ closedVal h' copies = true.
Proof.
  intros Hh. unfold copyParameters.
  assert (forall h0 l, closedHeap h0 = true ->
            match h0 !! l with
            | Some (CArr items) =>
                let '(copies, h1) := copyItems h0 items in
                let '(a, h2) := alloc (CArr copies) h1 in Ok (VRef a, h2)
            | _ => Throw TypeError
            end = Ok (copies, h') ->
            closedHeap h' = true /\ closedVal h' copies = true) as Hmap.
  { intros h0 l Hh0. destruct (h0 !! l) as [[props|items]|]; try done.
    destruct (copyItems h0 items) as [ls h1] eqn:Hcopy. simpl.
    intros [= <- <-]. apply copyItems_closed in Hcopy as [Hh1 Hls]; [|done].
    split.
    - apply closedHeap_alloc; [done|]. done.
    - simpl. apply bool_decide_eq_true. rewrite length_app. simpl. lia. }
  destruct (truthy params).
  - destruct params as [|l]; [done|]. by apply Hmap.
  - simpl. apply Hmap. by apply closedHeap_alloc.
Qed.

Lemma selectProcess_closed (h : Heap) (ed : Editor) (p : loc) :
  closedHeap h = true ->
  (p < length h)%nat ->
  thrown (selectProcess h ed (VRef p)) = None ->
  closedHeap (heap (selectProcess h ed (VRef p))) = true.
Proof.
  intros Hh Hp. unfold selectProcess, alloc, prop.
  cbn [nullish mbind result_bind]. cbv zeta.
  destruct (copyParameters _ _) as [[copies h2]|e] eqn:Hcopy; [|done].
  intros _. simpl. apply copyParameters_closed in Hcopy as [H _]; [done|].
  apply closedHeap_alloc; [done|]. by apply closedCell_ownProps.
Qed.

(** [cancelEdit] over the store refines [cancelEdit] over values in the
    same way. *)
Theorem cancelEdit_refines (d : nat) (h : Heap) (ed : Editor) (p : loc)
    (r : Processes.ProcessRecord) (st : Processes.Component) :
  closedHeap h = true ->
  (p < length h)%nat ->
  selectedProcess ed = VRef p ->
  Processes.selectedProcess st = Some r ->
  Processes.parameters r = load (S (S d)) h (optProp h (VRef p) "parameters") ->
  let o := cancelEdit h ed in
  let o' := Processes.cancelEdit st in
  thrown o = None ->
  Processes.thrown o' = None /\
  load (S (S d)) (heap o) (editedParameters (editor o))
    = JArr (Processes.editedParameters (Processes.after o')) /\
  selectedProcess (editor o) = VPrim PNull /\
  Processes.selectedProcess (Processes.after o') = None /\
  editedProcess (editor o) = VPrim PNull /\
  Processes.editedProcess (Processes.after o') = None.
Proof.
  intros Hh Hp Hsel Hsel' Hr o o'. subst o o'.
  unfold cancelEdit, Processes.cancelEdit, prop. rewrite Hsel, Hsel', Hr.
  cbn [truthy negb nullish mbind result_bind].
  remember (optProp h (VRef p) "parameters") as params eqn:Hparams.
  destruct (copyParameters h params) as [[copies h']|e] eqn:Hcopy; [|done].
  intros _.
  destruct (copyParameters_spec _ _ _ _ Hh Hcopy)
    as ([new ->] & Harr & a & ls & -> & Ha & Hcell & Hcopies).
  assert ((if truthy params then itemsOf h params else []) = itemsOf h params)
    as Hitems.
  { destruct (truthy params) eqn:Ht; [done|]. by destruct params. }
  rewrite Hitems in Hcopies.
  pose proof (freshCopies_load d h new _ _ Hh
                (closedHeap_items h params Hh) Hcopies) as Hread.
  assert (Processes.copyParameters (load (S (S d)) h params)
          = Ok (map (load (S d) (h ++ new)) ls)) as ->.
  { rewrite Hread. unfold Processes.copyParameters.
    destruct (truthy params) eqn:Ht.
    - destruct (Harr eq_refl) as (l & items & Hl & Hcells).
      rewrite Hl, load_ref, Hcells. simpl. rewrite Hcells. apply mapM_pure.
    - destruct params as [prim|l]; [|done]. simpl in *. by rewrite Ht. }
  cbn [heap editor thrown editedParameters selectedProcess editedProcess
       setEditedParameters setEditedProcess setSelectedProcess
       Processes.thrown Processes.after Processes.done
       Processes.editedParameters Processes.selectedProcess
       Processes.editedProcess Processes.setEditedParameters
       Processes.setEditedProcess Processes.setSelectedProcess].
  split; [done|]. split; [|done].
  by rewrite load_ref, Hcell.
Qed.

End StoreFacts.

(* ===================================================================== *)
(** * Part VII: further properties of the component                       *)
(* ===================================================================== *)

(** ** The list: loading, filtering, toggling *)

Module ListFacts.
Import Js Processes Spec Samples JsFacts LoadFacts FilterFacts.

(** The fields [project] reads, when it returns. *)
Lemma project_fields (p : JsValue) (r : ProcessRecord) :
  project p = Ok r ->
  id r = optProp p "id" /\
  name r = optProp p "name" /\
  description r = optProp p "description" /\
  workflowName r = coalesce (optProp (optProp p "workflow") "name") (JStr "") /\
  parameters r = coalesce (optProp p "parameters") (JArr []) /\
  active r = (if truthy (optProp (optProp p "workflow") "active")
              then "Proceso Activo" else "Proceso Inactivo") /\
  status r = coalesce (optProp (optProp p "executionBrief") "status") (JStr "") /\
  startedAt r = coalesce (optProp (optProp p "executionBrief") "startedAt") JNull.
Proof.
  unfold project, prop. destruct (nullish p); [done|]. simpl.
  intros H. apply bind_Ok in H as (can & _ & [= <-]). done.
Qed.

Lemma coalesce_present (a b : JsValue) :
  nullish b = false -> nullish (coalesce a b) = false.
Proof. unfold coalesce. by destruct (nullish a) eqn:Ha. Qed.

(** [map] throws as soon as its callback throws on one element. *)
Lemma mapM_throws {A B : Type} (f : A -> result B) (l : list A) (x : A) (e : JsError) :
  x ∈ l -> f x = Throw e -> mapM f l = Throw TypeError.
Proof.
  induction l as [|y l IH]; [by intros ?%elem_of_nil|].
  intros [->|Hx]%elem_of_cons Hf; cbn.
  - rewrite Hf. by destruct e.
  - destruct (f y) as [b|[]]; [|done]. cbn. by rewrite IH.
Qed.

Lemma mapM_length {A B : Type} (f : A -> result B) (l : list A) (l' : list B) :
  mapM f l = Ok l' -> length l' = length l.
Proof. intros H%mapM_Ok. symmetry. by eapply Forall2_length. Qed.

(** Property X1.  In the list [loadProcesses] builds from a response, every
    record takes [id], [name] and [description] from its raw record as they
    are ([undefined] included), and falls back to a default for the others:
    [workflowName] and [status] to the empty string, [parameters] to the
    empty array, [startedAt] to [null], when the raw record has [null] or
    [undefined] there (or no [workflow], no [executionBrief]).  [active] is
    "Proceso Activo" exactly when [workflow.active] is truthy and
    "Proceso Inactivo" otherwise.  So [workflowName], [parameters] and
    [status] of a listed record are never [null] or [undefined], and
    [startedAt] is never [undefined]. *)
Theorem loadProcesses_defaults (res : list JsValue) (st : Component) :
  let o := loadProcesses_next (JArr res) st in
  thrown o = None ->
  Forall2 (fun raw r =>
             id r = optProp raw "id" /\
             name r = optProp raw "name" /\
             description r = optProp raw "description" /\
             workflowName r =
               (if nullish (optProp (optProp raw "workflow") "name")
                then JStr "" else optProp (optProp raw "workflow") "name") /\
             parameters r =
               (if nullish (optProp raw "parameters")
                then JArr [] else optProp raw "parameters") /\
             status r =
               (if nullish (optProp (optProp raw "executionBrief") "status")
                then JStr "" else optProp (optProp raw "executionBrief") "status") /\
             startedAt r =
               (if nullish (optProp (optProp raw "executionBrief") "startedAt")
                then JNull else optProp (optProp raw "executionBrief") "startedAt") /\
             (active r = "Proceso Activo" <->
              truthy (optProp (optProp raw "workflow") "active") = true) /\
             (active r = "Proceso Inactivo" <->
              truthy (optProp (optProp raw "workflow") "active") = false) /\
             nullish (workflowName r) = false /\
             nullish (parameters r) = false /\
             nullish (status r) = false /\
             startedAt r <> JUndefined)
          res (processes (after o)).
Proof.
  unfold loadProcesses_next, arrayMap.
  destruct (mapM project res) as [ps|e] eqn:Hmap; [|done].
  intros _. simpl. apply mapM_Ok in Hmap.
  eapply Forall2_impl; [exact Hmap|].
  intros raw r Hr. simpl in Hr.
  apply project_fields in Hr
    as (Hid & Hname & Hdesc & Hwf & Hparams & Hactive & Hstatus & Hstarted).
  repeat split; try done.
  - rewrite Hactive. by destruct (truthy _).
  - rewrite Hactive. by destruct (truthy _).
  - rewrite Hactive. by destruct (truthy _).
  - rewrite Hactive. by destruct (truthy _).
  - rewrite Hwf. by apply coalesce_present.
  - rewrite Hparams. by apply coalesce_present.
  - rewrite Hstatus. by apply coalesce_present.
  - rewrite Hstarted. unfold coalesce.
    destruct (nullish _) eqn:Hn; [done|]. intros H. by rewrite H in Hn.
Qed.

Lemma loadProcesses_defaults_witness :
  Forall2 (fun raw r => nullish (parameters r) = false /\ startedAt r <> JUndefined)
          sampleResponse
          (processes (after (loadProcesses_next (JArr sampleResponse) initial))).
Proof.
  eapply Forall2_impl.
  - apply (loadProcesses_defaults sampleResponse initial). vm_compute. reflexivity.
  - intros raw r H. split; apply H.
Defined.

(** Property X2.  A response that is processed replaces the list as a
    whole: the new list has one record per raw record, in the order of the
    response, with the identifiers of the response, and owes nothing to the
    list it replaces.  The callback sends nothing and leaves the filter, the
    in-flight set and an edit session that is open as they are. *)
Theorem loadProcesses_replaces (res : list JsValue) (st : Component) :
  let o := loadProcesses_next (JArr res) st in
  thrown o = None ->
  effects o = [] /\
  length (processes (after o)) = length res /\
  map id (processes (after o)) = map (fun raw => optProp raw "id") res /\
  (forall st', loadProcesses_next (JArr res) st'
               = done (setProcesses (processes (after o)) st') []) /\
  showOnlyExecutable (after o) = showOnlyExecutable st /\
  startingProcessIds (after o) = startingProcessIds st /\
  selectedProcess (after o) = selectedProcess st /\
  editedProcess (after o) = editedProcess st /\
  editedParameters (after o) = editedParameters st.
Proof.
  unfold loadProcesses_next, arrayMap.
  destruct (mapM project res) as [ps|e] eqn:Hmap; [|done].
  intros _. simpl. split; [done|]. split; [by eapply mapM_length|].
  split; [|done].
  apply mapM_Ok in Hmap. induction Hmap as [|raw r res ps Hr _ IH]; [done|].
  simpl. rewrite IH. f_equal. by apply project_fields in Hr as [-> _].
Qed.

Lemma loadProcesses_replaces_witness :
  length (processes (after (loadProcesses_next (JArr sampleResponse) sampleStarting)))
  = 5%nat.
Proof.
  apply (loadProcesses_replaces sampleResponse sampleStarting). vm_compute. reflexivity.
Defined.

(** Property X3.  The subscriber of [getProcesses()] throws a [TypeError]
    when the response is not an array, and when one of its records is
    [null] or [undefined].  Whenever it throws, the component is left as it
    was, the former list included, and nothing is shown or logged. *)
Theorem loadProcesses_next_failure (res : JsValue) (st : Component) :
  let o := loadProcesses_next res st in
  (isArray res = false -> thrown o = Some TypeError) /\
  (forall items raw,
     res = JArr items -> raw ∈ items -> nullish raw = true ->
     thrown o = Some TypeError) /\
  (thrown o <> None -> after o = st /\ effects o = []).
Proof.
  unfold loadProcesses_next. split; [|split].
  - by destruct res.
  - intros items raw -> Hin Hnull. simpl.
    rewrite (mapM_throws project items raw TypeError Hin); [done|].
    unfold project, prop. by rewrite Hnull.
  - by destruct (arrayMap project res).
Qed.



(** Property X5.  [toggleEjecutable] flips [showOnlyExecutable] and nothing
    else, and sends nothing; calling it twice gives the component back as it
    was.  After one call the displayed list is the full list if the filter
    was on, and the executable records of the list if it was off. *)
Theorem toggleEjecutable_involution (st : Component) :
  let once := toggleEjecutable st in
  after (toggleEjecutable (after once)) = st /\
  effects once = [] /\ thrown once = None /\
  showOnlyExecutable (after once) = negb (showOnlyExecutable st) /\
  processes (after once) = processes st /\
  startingProcessIds (after once) = startingProcessIds st /\
  selectedProcess (after once) = selectedProcess st /\
  editedProcess (after once) = editedProcess st /\
  editedParameters (after once) = editedParameters st /\
  displayedProcesses (after once) =
    (if showOnlyExecutable st then processes st
     else filter (fun p => canExecute p = true) (processes st)).
Proof.
  destruct st as [ps l e b ids sel ed eps]. unfold toggleEjecutable, displayedProcesses.
  simpl. rewrite negb_involutive. by destruct b.
Qed.

End ListFacts.

(** ** The edit session: selecting, cancelling, saving *)

Module SessionFacts.
Import Js Processes Spec Samples JsFacts.

(** The items [copyParameters] maps over: those of an array, none for a
    falsy value; anything else has no [map] to call. *)
Lemma copyParameters_Ok (params : JsValue) :
  truthy params = false \/ isArray params = true ->
  copyParameters params
  = Ok (map (fun p => JObj (ownProps p))
            (match params with JArr items => items | _ => [] end)).
Proof.
  unfold copyParameters. intros [H|H].
  - rewrite H. by destruct params.
  - destruct params as [|items|]; try done. simpl. apply StoreFacts.mapM_pure.
Qed.

Lemma copyParameters_Throw (params : JsValue) :
  truthy params = true -> isArray params = false ->
  copyParameters params = Throw TypeError.
Proof. unfold copyParameters. intros -> H. by destruct params. Qed.

Lemma copyParameters_cases (params : JsValue) :
  (truthy params = false \/ isArray params = true) \/
  (truthy params = true /\ isArray params = false).
Proof. destruct (truthy params), (isArray params); tauto. Qed.

(** Property X6.  [selectProcess(p)] throws a [TypeError] exactly when
    [p.parameters] is truthy and not an array (a string, a number, a plain
    object).  It throws half way: [selectedProcess] and [editedProcess] are
    set to [p] and its copy, [editedParameters] is what it was, nothing is
    sent.  From there [cancelEdit()] throws as well and changes nothing, so
    the selection it should drop stays. *)
Theorem selectProcess_not_an_array (p : ProcessRecord) (st : Component) :
  let o := selectProcess p st in
  (thrown o = Some TypeError <->
   truthy (parameters p) = true /\ isArray (parameters p) = false) /\
  (thrown o = Some TypeError ->
   effects o = [] /\
   after o = setEditedProcess (Some p) (setSelectedProcess (Some p) st) /\
   editedParameters (after o) = editedParameters st /\
   cancelEdit (after o) = raise (after o) [] TypeError).
Proof.
  unfold selectProcess.
  destruct (copyParameters_cases (parameters p)) as [H|[Ht Ha]].
  - rewrite (copyParameters_Ok _ H). simpl. split; [|done].
    split; [done|]. intros [Ht Ha]. destruct H; congruence.
  - rewrite (copyParameters_Throw _ Ht Ha). simpl. split; [done|].
    intros _. repeat split. unfold cancelEdit. simpl.
    by rewrite (copyParameters_Throw _ Ht Ha).
Qed.

(** A process whose parameters are a string cannot be selected, nor the
    selection cancelled. *)
Example selectProcess_text_parameters :
  let p := {| id := JStr "p5"; name := JStr "Legacy"; workflowName := JStr "";
              description := JNull; parameters := JStr "retries=3";
              active := "Proceso Inactivo"; status := JStr "";
              startedAt := JNull; canExecute := false |} in
  thrown (selectProcess p initial) = Some TypeError /\
  selectedProcess (after (selectProcess p initial)) = Some p /\
  thrown (cancelEdit (after (selectProcess p initial))) = Some TypeError.
Proof. by vm_compute. Qed.

(** Property X7.  The last selection wins: selecting [q] while [p] is
    selected gives the component that selecting [q] alone gives, whatever
    became of the selection of [p], provided the selection of [q]
    returns. *)
Theorem selectProcess_last_wins (p q : ProcessRecord) (st : Component) :
  thrown (selectProcess q st) = None ->
  selectProcess q (after (selectProcess p st)) = selectProcess q st.
Proof.
  unfold selectProcess.
  destruct (copyParameters (parameters q)) as [qs|e]; [|done]. intros _.
  by destruct (copyParameters (parameters p)).
Qed.

Lemma selectProcess_last_wins_witness :
  selectProcess otherProcess (after (selectProcess storedProcess sampleListed))
  = selectProcess otherProcess sampleListed.
Proof.
  apply (selectProcess_last_wins storedProcess otherProcess sampleListed).
  reflexivity.
Defined.

(** Property X8.  With a process selected whose parameters are an array (or
    falsy), [cancelEdit()] sets [selectedProcess] and [editedProcess] to
    [null] and sends nothing.  It does not empty [editedParameters]: it
    leaves there one new object per parameter of the process that was
    selected, with the own properties of that parameter.  What the drafts
    held plays no part in the outcome, the list, the filter and the
    in-flight set are untouched, and a second [cancelEdit()] does
    nothing. *)
Theorem cancelEdit_closes (st : Component) (sel : ProcessRecord) :
  selectedProcess st = Some sel ->
  truthy (parameters sel) = false \/ isArray (parameters sel) = true ->
  let o := cancelEdit st in
  thrown o = None /\ effects o = [] /\
  selectedProcess (after o) = None /\
  editedProcess (after o) = None /\
  editedParameters (after o)
  = map (fun p => JObj (ownProps p))
        (match parameters sel with JArr items => items | _ => [] end) /\
  processes (after o) = processes st /\
  startingProcessIds (after o) = startingProcessIds st /\
  showOnlyExecutable (after o) = showOnlyExecutable st /\
  (forall draft drafts,
     cancelEdit (setEditedParameters drafts (setEditedProcess draft st)) = o) /\
  cancelEdit (after o) = done (after o) [].
Proof.
  intros Hsel Hparams. unfold cancelEdit. rewrite Hsel.
  rewrite (copyParameters_Ok _ Hparams). simpl. repeat split.
  intros draft drafts. rewrite Hsel. by rewrite (copyParameters_Ok _ Hparams).
Qed.

Lemma cancelEdit_closes_witness :
  editedParameters
    (after (cancelEdit (setEditedParameters [] (after (selectProcess storedProcess sampleListed)))))
  = [numberParameter (JStr "3"); textParameter (JStr "daily")].
Proof.
  apply (cancelEdit_closes
           (setEditedParameters [] (after (selectProcess storedProcess sampleListed)))
           storedProcess eq_refl (or_intror eq_refl)).
Defined.

(** *** Saving *)

Lemma assign_assign {A : Type} (k : string) (v v' : A) (props : list (string * A)) :
  assign k v (assign k v' props) = assign k v props.
Proof.
  induction props as [|[k0 v0] props IH]; simpl.
  - by rewrite String.eqb_refl.
  - destruct (String.eqb k k0) eqn:Hk; simpl.
    + by rewrite String.eqb_refl.
    + by rewrite Hk, IH.
Qed.

(** Property X9.  What [updateSelectedProcess] sends is already normal: the
    callback that prepares a parameter for the payload, applied to a
    parameter it has prepared, returns it as it is.  A value that became a
    number stays that number, a value that stayed a string stays that
    string. *)
Theorem normalizeParameter_idempotent (p q : JsValue) :
  normalizeParameter p = Ok q -> normalizeParameter q = Ok q.
Proof.
  unfold normalizeParameter.
  destruct (strictEquals (getOwn JUndefined "type" (ownProps p)) (JStr "number"))
    eqn:Ht.
  - intros H. apply bind_Ok in H as (n & Hn & [= <-]).
    cbn [ownProps]. rewrite getOwn_assign_ne by done. rewrite Ht.
    rewrite getOwn_assign. destruct (isNaN n) eqn:Hnan.
    + rewrite Hn. cbn. by rewrite Hnan, assign_assign.
    + cbn. by rewrite Hnan, assign_assign.
  - intros [= <-]. cbn [ownProps]. by rewrite Ht.
Qed.

Lemma normalizeParameter_idempotent_witness :
  normalizeParameter (numberParameter (JNum (ofZ 42)))
  = Ok (numberParameter (JNum (ofZ 42))).
Proof.
  apply (normalizeParameter_idempotent (numberParameter (JStr "42"))).
  vm_compute. reflexivity.
Defined.

(** Property X10.  [updateSelectedProcess()] never changes the component:
    the numbers go into copies, the drafts keep their strings.  Without a
    selected process it sends nothing.  With a selected process and no
    draft ([editedProcess] is [null]) it throws a [TypeError] and sends
    nothing.  When it returns with a process selected it has sent one patch
    request, addressed to [String(selectedProcess.id)], whose name and
    description are those of the draft [editedProcess] and which has one
    parameter per entry of [editedParameters]. *)
Theorem updateSelectedProcess_guards (st : Component) :
  let o := updateSelectedProcess st in
  after o = st /\
  (selectedProcess st = None -> effects o = [] /\ thrown o = None) /\
  (selectedProcess st <> None -> editedProcess st = None ->
   effects o = [] /\ thrown o = Some TypeError) /\
  (thrown o = None -> selectedProcess st <> None ->
   exists sel edited i body,
     selectedProcess st = Some sel /\ editedProcess st = Some edited /\
     effects o = [HttpPatchProcess i body] /\
     toString (id sel) = Ok i /\
     body_name body = name edited /\
     body_description body = description edited /\
     length (body_parameters body) = length (editedParameters st)).
Proof.
  unfold updateSelectedProcess.
  destruct (selectedProcess st) as [sel|]; [|by repeat split].
  destruct (mapM normalizeParameter (editedParameters st)) as [ps|e] eqn:Hps.
  - cbn. destruct (editedProcess st) as [edited|]; cbn.
    + destruct (toString (id sel)) as [i|e] eqn:Hi; cbn.
      * repeat split; try done. intros _ _.
        exists sel, edited, i, {| body_name := name edited;
                                 body_description := description edited;
                                 body_parameters := ps |}.
        repeat split; try done. simpl. apply mapM_Ok in Hps. symmetry.
        by eapply Forall2_length.
      * by repeat split.
    + by repeat split.
  - cbn. split; [done|]. split; [done|]. split; [|done].
    intros _ _. split; [done|]. by destruct e.
Qed.

(** The [next] callback of a patch request with no process selected:
    [findIndex] calls its callback on the first record, which reads
    [this.selectedProcess.id]. *)
Lemma updateSelectedProcess_next_unselected (st : Component) (body : PatchBody)
    (res : JsValue) :
  selectedProcess st = None ->
  updateSelectedProcess_next body res st
  = match processes st with
    | [] => done (setEditedParameters [] (setEditedProcess None st)) []
    | _ :: _ => raise st [] TypeError
    end.
Proof.
  intros Hsel. unfold updateSelectedProcess_next. rewrite Hsel.
  destruct st as [ps l e b ids sel ed eps]. simpl in *. subst sel.
  by destruct ps.
Qed.

(** With a process selected the callback returns. *)
Lemma updateSelectedProcess_next_selected (st : Component) (sel : ProcessRecord)
    (body : PatchBody) (res : JsValue) :
  selectedProcess st = Some sel ->
  updateSelectedProcess_next body res st
  = done (setEditedParameters []
            (setEditedProcess None
               (setSelectedProcess None
                  (setProcesses
                     match findIndex (fun p => strictEquals (id p) (id sel))
                                     (processes st) with
                     | Some i =>
                         match processes st !! i with
                         | Some p => <[ i := merged p body ]> (processes st)
                         | None => processes st
                         end
                     | None => processes st
                     end st)))) [].
Proof.
  intros Hsel. unfold updateSelectedProcess_next. rewrite Hsel.
  by destruct (processes st).
Qed.

(** Property X11.  A save that completes after the edit was cancelled is
    lost for the list: with a list that is not empty, the [next] callback of
    the patch request throws a [TypeError] (it reads the [id] of
    [selectedProcess], which [cancelEdit] has set to [null]) and leaves the
    component as [cancelEdit] left it, its list being the list from before
    the save. *)
Theorem updateSelectedProcess_next_after_cancel
    (st : Component) (sel : ProcessRecord) (body : PatchBody) (res : JsValue) :
  selectedProcess st = Some sel ->
  thrown (cancelEdit st) = None ->
  processes st <> [] ->
  let st' := after (cancelEdit st) in
  updateSelectedProcess_next body res st' = raise st' [] TypeError /\
  processes st' = processes st.
Proof.
  intros Hsel Hok Hps. unfold cancelEdit in *. rewrite Hsel in *.
  destruct (copyParameters (parameters sel)) as [ps|e]; [|done]. simpl.
  rewrite updateSelectedProcess_next_unselected by done. simpl.
  by destruct (processes st).
Qed.

Lemma updateSelectedProcess_next_after_cancel_witness :
  thrown (updateSelectedProcess_next sampleBody JNull (after (cancelEdit sampleEditing)))
  = Some TypeError.
Proof.
  exact (f_equal thrown
           (proj1 (updateSelectedProcess_next_after_cancel sampleEditing
                     sampleProcess sampleBody JNull eq_refl eq_refl
                     ltac:(discriminate)))).
Defined.

Lemma map_insert_same {A B : Type} (f : A -> B) (l : list A) (i : nat) (x y : A) :
  l !! i = Some x -> f y = f x -> map f (<[ i := y ]> l) = map f l.
Proof.
  revert i. induction l as [|a l IH]; intros [|i] Hx Hf; simpl in *; try done.
  - injection Hx as ->. by rewrite Hf.
  - by rewrite (IH i).
Qed.

Lemma filter_length_flags (l l' : list ProcessRecord) :
  map canExecute l = map canExecute l' ->
  length (filter (fun p => canExecute p = true) l)
  = length (filter (fun p => canExecute p = true) l').
Proof.
  revert l'. induction l as [|p l IH]; intros [|p' l'] H; simpl in H; try done.
  injection H as Hp H. specialize (IH l' H).
  destruct (canExecute p) eqn:Hc.
  - rewrite !filter_cons_True by congruence. simpl. by rewrite IH.
  - rewrite !filter_cons_False by congruence. done.
Qed.

(** The list after the [next] callback of a patch request: the list as it
    was, or with one record replaced by its merge with the body. *)
Lemma updateSelectedProcess_next_list (st : Component) (body : PatchBody)
    (res : JsValue) :
  let o := updateSelectedProcess_next body res st in
  effects o = [] /\
  startingProcessIds (after o) = startingProcessIds st /\
  showOnlyExecutable (after o) = showOnlyExecutable st /\
  (processes (after o) = processes st \/
   exists i p, processes st !! i = Some p /\
               processes (after o) = <[ i := merged p body ]> (processes st)).
Proof.
  unfold updateSelectedProcess_next.
  destruct (match processes st with
            | [] => _
            | _ :: _ => _
            end) as [[i|]|e]; simpl; try by (repeat split; left).
  destruct (processes st !! i) as [p|] eqn:Hp; [|by repeat split; left].
  repeat split. right. by exists i, p.
Qed.

(** Property X12.  Whatever the response, the selection and the body, the
    [next] callback of a patch request keeps the list in shape: as many
    records as before, in the same places, with the same [id],
    [workflowName], [active], [status], [startedAt] and [canExecute].  So a
    save never adds, drops or moves a record and never changes which
    records the filter shows.  The callback sends nothing and leaves the
    filter and the in-flight set alone. *)
Theorem updateSelectedProcess_next_keeps_identity
    (st : Component) (body : PatchBody) (res : JsValue) :
  let o := updateSelectedProcess_next body res st in
  length (processes (after o)) = length (processes st) /\
  map id (processes (after o)) = map id (processes st) /\
  map canExecute (processes (after o)) = map canExecute (processes st) /\
  map workflowName (processes (after o)) = map workflowName (processes st) /\
  map active (processes (after o)) = map active (processes st) /\
  map status (processes (after o)) = map status (processes st) /\
  map startedAt (processes (after o)) = map startedAt (processes st) /\
  length (displayedProcesses (after o)) = length (displayedProcesses st) /\
  effects o = [] /\
  startingProcessIds (after o) = startingProcessIds st /\
  showOnlyExecutable (after o) = showOnlyExecutable st.
Proof.
  intros o.
  destruct (updateSelectedProcess_next_list st body res) as (Heff & Hids & Hshow & Hps).
  fold o in Heff, Hids, Hshow, Hps.
  assert (map canExecute (processes (after o)) = map canExecute (processes st))
    as Hflags.
  { destruct Hps as [->|(i & p & Hp & ->)]; [done|]. by eapply map_insert_same. }
  repeat split; try done.
  - destruct Hps as [->|(i & p & Hp & ->)]; [done|]. apply length_insert.
  - destruct Hps as [->|(i & p & Hp & ->)]; [done|]. by eapply map_insert_same.
  - destruct Hps as [->|(i & p & Hp & ->)]; [done|]. by eapply map_insert_same.
  - destruct Hps as [->|(i & p & Hp & ->)]; [done|]. by eapply map_insert_same.
  - destruct Hps as [->|(i & p & Hp & ->)]; [done|]. by eapply map_insert_same.
  - destruct Hps as [->|(i & p & Hp & ->)]; [done|]. by eapply map_insert_same.
  - unfold displayedProcesses. rewrite Hshow.
    destruct (showOnlyExecutable st); simpl.
    + by apply filter_length_flags.
    + destruct Hps as [->|(i & p & Hp & ->)]; [done|]. apply length_insert.
Qed.

(** Property X13.  A whole session without an edit: for a listed process
    [p] (the first of the list with its identifier, a primitive other than
    [NaN]) whose parameters are an array or falsy, [selectProcess(p)]
    returns, [updateSelectedProcess()] then sends one patch request for
    [String(p.id)] with the name and the description of [p] and its
    parameters normalised, and the [next] callback puts at the place of [p]
    a record that differs from [p] in its parameters only, which are the
    ones sent, then closes the session.  Saving without editing therefore
    can change the list: a number parameter that held the string "3" holds
    the number 3 afterwards. *)
Theorem save_without_edits
    (st : Component) (p : ProcessRecord) (i : nat) (pid : string)
    (sent : list JsValue) (res : JsValue) :
  processes st !! i = Some p ->
  (forall j q, (j < i)%nat -> processes st !! j = Some q ->
               strictEquals (id q) (id p) = false) ->
  isPrimitive (id p) = true ->
  strictEquals (id p) (id p) = true ->
  toString (id p) = Ok pid ->
  truthy (parameters p) = false \/ isArray (parameters p) = true ->
  mapM normalizeParameter
       (map (fun x => JObj (ownProps x))
            (match parameters p with JArr items => items | _ => [] end))
  = Ok sent ->
  let st1 := after (selectProcess p st) in
  let body := {| body_name := name p;
                 body_description := description p;
                 body_parameters := sent |} in
  thrown (selectProcess p st) = None /\
  updateSelectedProcess st1 = done st1 [HttpPatchProcess pid body] /\
  updateSelectedProcess_next body res st1
  = done (setEditedParameters []
            (setEditedProcess None
               (setSelectedProcess None
                  (setProcesses
                     (<[ i := {| id := id p;
                                 name := name p;
                                 workflowName := workflowName p;
                                 description := description p;
                                 parameters := JArr sent;
                                 active := active p;
                                 status := status p;
                                 startedAt := startedAt p;
                                 canExecute := canExecute p |} ]> (processes st))
                     st)))) [].
Proof.
  intros Hp Hfirst _ Hrefl Hpid Hparams Hsent. unfold selectProcess.
  rewrite (copyParameters_Ok _ Hparams). simpl. split; [done|]. split.
  - unfold updateSelectedProcess. simpl. rewrite Hsent. cbn. by rewrite Hpid.
  - rewrite (updateSelectedProcess_next_selected _ p) by done.
    cbn [processes setEditedParameters setEditedProcess setSelectedProcess].
    assert (findIndex (fun q => strictEquals (id q) (id p)) (processes st) = Some i)
      as ->.
    { apply findIndex_Some. by exists p. }
    by rewrite Hp.
Qed.

Lemma save_without_edits_witness :
  map parameters
      (processes
         (after (updateSelectedProcess_next
                   {| body_name := JStr "Import";
                      body_description := JStr "Hourly import";
                      body_parameters :=
                        [numberParameter (JNum (ofZ 3)); textParameter (JStr "daily")] |}
                   JNull (after (selectProcess storedProcess sampleListed)))))
  = [JArr [];
     JArr [numberParameter (JNum (ofZ 3)); textParameter (JStr "daily")]].
Proof.
  refine (f_equal (fun o => map parameters (processes (after o)))
            (proj2 (proj2 (save_without_edits sampleListed storedProcess 1%nat "p3"
                             [numberParameter (JNum (ofZ 3)); textParameter (JStr "daily")]
                             JNull eq_refl _ eq_refl eq_refl eq_refl
                             (or_intror eq_refl) _)))).
  - intros [|j] q Hj Hq; [|lia]. injection Hq as <-. reflexivity.
  - vm_compute. reflexivity.
Defined.

End SessionFacts.

(** ** Processes being started *)

Module StartingFacts.
Import Js Processes Spec Samples JsFacts StartFacts.

(** Property X14.  Whatever methods were called and whatever requests
    completed, [isStarting(p)] tells whether a start request for
    [String(p.id)] is in flight: it returns [true] exactly when there is
    one, [false] exactly when there is none.  When it returns [true],
    [startProcess(p)] does nothing. *)
Theorem isStarting_tracks_requests (w : World) (p : ProcessRecord) (i : string) :
  reachable w ->
  toString (id p) = Ok i ->
  (isStarting (Some p) (component w) = Ok true <->
   i ∈ startsInFlight (pending w)) /\
  (isStarting (Some p) (component w) = Ok false <->
   i ∉ startsInFlight (pending w)) /\
  (isStarting (Some p) (component w) = Ok true ->
   startProcess (Some p) (component w) = done (component w) []).
Proof.
  intros [_ Hiff]%startsTracked_reachable Hi. unfold isStarting, startProcess.
  rewrite Hi. cbn. rewrite Hiff.
  destruct (bool_decide (i ∈ startingProcessIds (component w))) eqn:Hin.
  - apply bool_decide_eq_true in Hin. split; [done|]. split; [done|].
    intros _. by destruct (truthy (id p)).
  - apply bool_decide_eq_false in Hin. split; [|done]. split; [done|].
    intros H. by apply Hin in H.
Qed.

Lemma isStarting_tracks_requests_witness :
  isStarting (Some sampleProcess) (component sampleStarted) = Ok true <->
  "p1" ∈ startsInFlight (pending sampleStarted).
Proof.
  apply (isStarting_tracks_requests sampleStarted sampleProcess "p1").
  - apply rtc_once. apply step_call.
  - reflexivity.
Defined.

(** Property X15.  Once [startProcess(p)] has been called for a process
    with a truthy identifier, [isStarting] returns [true] for [p] and for
    every process whose identifier has the same string form (the number 7
    and the string "7" are one process here), and [startProcess] does
    nothing for them.  After the [next] or the [error] callback of the
    request for that identifier, [isStarting] returns [false] for them.
    [isStarting] of no process is [false]. *)
Theorem isStarting_follows_start (st : Component) (p q : ProcessRecord) (i : string) :
  truthy (id p) = true ->
  toString (id p) = Ok i ->
  toString (id q) = Ok i ->
  isStarting (Some q) (after (startProcess (Some p) st)) = Ok true /\
  startProcess (Some q) (after (startProcess (Some p) st))
  = done (after (startProcess (Some p) st)) [] /\
  (forall res st', isStarting (Some q) (after (startProcess_next i res st')) = Ok false) /\
  (forall err st', isStarting (Some q) (after (startProcess_error i err st')) = Ok false) /\
  isStarting None st = Ok false.
Proof.
  intros Hid Hp Hq.
  assert (i ∈ startingProcessIds (after (startProcess (Some p) st))) as Hin.
  { unfold startProcess. rewrite Hid, Hp. simpl.
    destruct (bool_decide (i ∈ startingProcessIds st)) eqn:Hin; simpl.
    - by apply bool_decide_eq_true in Hin.
    - apply elem_of_union_l. by apply elem_of_singleton. }
  split; [|split; [|split; [|split]]].
  - unfold isStarting. rewrite Hq. cbn. by rewrite bool_decide_eq_true_2.
  - unfold startProcess at 1. rewrite Hq.
    destruct (truthy (id q)); [|done]. simpl. by rewrite bool_decide_eq_true_2.
  - intros res st'. unfold isStarting. rewrite Hq. cbn.
    rewrite bool_decide_eq_false_2; [done|].
    unfold startProcess_next.
    destruct (truthy (optProp res "success")); apply not_elem_of_removed.
  - intros err st'. unfold isStarting. rewrite Hq. cbn.
    rewrite bool_decide_eq_false_2; [done|]. apply not_elem_of_removed.
  - done.
Qed.

Lemma isStarting_follows_start_witness :
  isStarting (Some (numberedProcess (JStr "7")))
             (after (startProcess (Some (numberedProcess (JNum (ofZ 7)))) initial))
  = Ok true.
Proof.
  apply (isStarting_follows_start initial (numberedProcess (JNum (ofZ 7)))
           (numberedProcess (JStr "7")) "7"); by vm_compute.
Defined.

End StartingFacts.

(** ** The component over its life *)

Module LifeFacts.
Import Js Processes Spec Samples JsFacts.

Ltac frame :=
  simpl; repeat split; try done; try lia; try (intros H; by elim H).

(** A method call leaves the list, [loading] and [error] alone, shows and
    logs nothing and sends one request at most, none when it throws. *)
Lemma call_frame (m : Method) (st : Component) :
  let o := call m st in
  processes (after o) = processes st /\
  loading (after o) = loading st /\
  error (after o) = error st /\
  List.filter (fun e => negb (isRequest e)) (effects o) = [] /\
  (length (effects o) <= 1)%nat /\
  (thrown o <> None -> effects o = []).
Proof.
  destruct m as [| | |p|p| |]; simpl.
  - frame.
  - frame.
  - frame.
  - unfold selectProcess. destruct (copyParameters _); frame.
  - unfold startProcess. destruct p as [p|]; [|frame].
    destruct (truthy (id p)); [|frame]. simpl.
    destruct (toString (id p)) as [i|e]; [|frame].
    destruct (bool_decide _); frame.
  - unfold cancelEdit. destruct (selectedProcess st); [|frame].
    destruct (copyParameters _); frame.
  - unfold updateSelectedProcess.
    destruct (selectedProcess st) as [sel|]; [|frame].
    destruct (mapM normalizeParameter (editedParameters st)); [|frame].
    cbn. destruct (editedProcess st); [|frame]. cbn.
    destruct (toString (id sel)); frame.
Qed.

Lemma settle_frame (request : Effect) (r : Reply) (st : Component) :
  let o := settle request r st in
  loading (after o) = loading st /\ error (after o) = error st.
Proof.
  destruct request as [|i|i body|?|?], r as [res|failure]; simpl; try done.
  - unfold loadProcesses_next. by destruct (arrayMap project res).
  - unfold startProcess_next. by destruct (truthy (optProp res "success")).
  - unfold updateSelectedProcess_next. by repeat case_match.
Qed.

(** Property X16.  The fields [loading] and [error] are declared and never
    assigned: whatever methods are called, whatever requests complete or
    fail and whatever is typed into the form, [loading] is [false] and
    [error] is [null].  A load under way or a load that failed cannot be
    told from these fields. *)
Theorem loading_and_error_never_set (w : World) :
  reachable w ->
  loading (component w) = false /\ error (component w) = None.
Proof.
  unfold reachable. revert w. apply rtc_ind_r; [done|].
  intros w w' _ Hstep [Hl He].
  destruct Hstep as [w m|w older newer request r _|w draft drafts]; simpl.
  - destruct (call_frame m (component w)) as (_ & -> & -> & _). done.
  - destruct (settle_frame request r (component w)) as [-> ->]. done.
  - done.
Qed.

Lemma loading_and_error_never_set_witness :
  loading (component sampleBooted) = false /\ error (component sampleBooted) = None.
Proof.
  apply (loading_and_error_never_set sampleBooted).
  apply rtc_once. apply step_call.
Defined.

(** Property X17.  No method changes the list by itself, [ngOnInit],
    [selectProcess], [startProcess] and [updateSelectedProcess] included:
    the list changes when a response arrives, not before.  A method call
    opens no snack bar and logs nothing, sends one request at most, and none
    when it throws.  The [error] callbacks leave the list alone too, and so
    does the [next] callback of a start request. *)
Theorem calls_keep_the_list (m : Method) (st : Component) :
  let o := call m st in
  processes (after o) = processes st /\
  List.filter (fun e => negb (isRequest e)) (effects o) = [] /\
  (length (effects o) <= 1)%nat /\
  (thrown o <> None -> effects o = []) /\
  (forall request err,
     processes (after (settle request (Error err) st)) = processes st) /\
  (forall i res,
     processes (after (settle (HttpStartProcess i) (Next res) st)) = processes st).
Proof.
  destruct (call_frame m st) as (Hps & _ & _ & Hshown & Hlen & Hthrown).
  repeat split; try done.
  - by intros [| | | |].
  - intros i res. simpl. unfold startProcess_next.
    by destruct (truthy (optProp res "success")).
Qed.

End LifeFacts.

(** ** Integers as numbers

    The arithmetic of the component on the integers it meets: the Number
    value of an integer below [2^53] in magnitude, the difference of two of
    them, their comparison, and the whole part of a quotient. *)

Module NumberFacts.
Import Js Whole.

(** *** Binary digits *)

Lemma digits2_pos_size (p : positive) : digits2_pos p = Pos.size p.
Proof. induction p as [p IH|p IH|]; simpl; by rewrite ?IH. Qed.

Lemma digits2_bounds (p : positive) :
  2 ^ (Z.pos (digits2_pos p) - 1) <= Z.pos p < 2 ^ Z.pos (digits2_pos p).
Proof.
  rewrite digits2_pos_size.
  pose proof (Pos.size_gt p) as Hgt. pose proof (Pos.size_le p) as Hle.
  apply Pos2Z.pos_lt_pos in Hgt. apply Pos2Z.pos_le_pos in Hle.
  rewrite Pos2Z.inj_pow in Hgt, Hle.
  change (Z.pos p~0) with (2 * Z.pos p) in Hle.
  assert (2 ^ Z.pos (Pos.size p) = 2 * 2 ^ (Z.pos (Pos.size p) - 1)) as Hpow.
  { rewrite <- Z.pow_succ_r by lia. f_equal. lia. }
  lia.
Qed.

Lemma digits2_unique (p : positive) (d : Z) :
  2 ^ (d - 1) <= Z.pos p < 2 ^ d -> Z.pos (digits2_pos p) = d.
Proof.
  intros [Hlo Hhi]. pose proof (digits2_bounds p) as [Hlo' Hhi'].
  assert (0 < d).
  { destruct (Z_lt_le_dec 0 d) as [|Hd]; [done|].
    assert (2 ^ d <= 2 ^ 0) by (destruct (Z_lt_le_dec d 0);
      [rewrite Z.pow_neg_r by lia; simpl; lia | apply Z.pow_le_mono_r; lia]).
    simpl in *. lia. }
  destruct (Z_lt_le_dec (Z.pos (digits2_pos p)) d) as [Hlt|Hge].
  - assert (2 ^ Z.pos (digits2_pos p) <= 2 ^ (d - 1)) by (apply Z.pow_le_mono_r; lia).
    lia.
  - destruct (Z_lt_le_dec d (Z.pos (digits2_pos p))) as [Hlt|Hle]; [|lia].
    assert (2 ^ d <= 2 ^ (Z.pos (digits2_pos p) - 1)) by (apply Z.pow_le_mono_r; lia).
    lia.
Qed.


(** *** Shifting and rounding *)

Lemma fexp_normal (x : Z) : -1021 <= x -> fexp prec emax x = x - 53.
Proof. unfold fexp, SpecFloat.emin, prec, emax. lia. Qed.

Lemma shr_1_exact (z : Z) : 0 <= z -> shr_1 (exactly (2 * z)) = exactly z.
Proof. by destruct z as [|p|p]. Qed.

(** Shifting out zeros loses nothing. *)
Lemma shr_exact (p : positive) (z : Z) :
  0 <= z -> SpecFloat.iter_pos shr_1 p (exactly (2 ^ Z.pos p * z)) = exactly z.
Proof.
  revert z. induction p as [p IH|p IH|]; intros z Hz; cbn [SpecFloat.iter_pos].
  - replace (2 ^ Z.pos p~1 * z) with (2 * (2 ^ Z.pos p * (2 ^ Z.pos p * z))).
    + rewrite shr_1_exact by lia. rewrite IH by lia. by rewrite IH.
    + replace (Z.pos p~1) with (Z.pos p + Z.pos p + 1) by lia.
      rewrite !Z.pow_add_r by lia. rewrite Z.pow_1_r. lia.
  - replace (2 ^ Z.pos p~0 * z) with (2 ^ Z.pos p * (2 ^ Z.pos p * z)).
    + rewrite IH by lia. by rewrite IH.
    + replace (Z.pos p~0) with (Z.pos p + Z.pos p) by lia.
      rewrite Z.pow_add_r by lia. lia.
  - by rewrite shr_1_exact.
Qed.


Lemma shr_fexp_keep (m : positive) (e : Z) (l : location) :
  Z.pos (digits2_pos m) = 53 -> -1074 <= e ->
  shr_fexp prec emax (Z.pos m) e l = (shr_record_of_loc (Z.pos m) l, e).
Proof.
  intros Hd He. unfold shr_fexp. cbn [Zdigits2]. rewrite Hd.
  rewrite fexp_normal by lia. replace (53 + e - 53 - e) with 0 by lia. done.
Qed.

(** A mantissa of 53 bits within the exponent range is a number as it
    stands. *)
Lemma binary_round_aux_keep (s : bool) (m : positive) (e : Z) :
  Z.pos (digits2_pos m) = 53 -> -1074 <= e <= 971 ->
  binary_round_aux prec emax s (Z.pos m) e loc_Exact = S754_finite s m e.
Proof.
  intros Hd He. unfold binary_round_aux.
  rewrite shr_fexp_keep by (done || lia). cbn [shr_record_of_loc shr_m loc_of_shr_record round_nearest_even].
  rewrite shr_fexp_keep by (done || lia). cbn [shr_record_of_loc shr_m].
  unfold emax, prec. rewrite (proj2 (Z.leb_le e (1024 - 53))) by lia. done.
Qed.

(** Longer mantissas whose low bits are zero are shifted to 53 bits. *)
Lemma binary_round_aux_shift (s : bool) (m M : positive) (e : Z) (k : positive) :
  Z.pos m = 2 ^ Z.pos k * Z.pos M ->
  Z.pos (digits2_pos M) = 53 -> -1074 <= e -> e + Z.pos k <= 971 ->
  binary_round_aux prec emax s (Z.pos m) e loc_Exact = S754_finite s M (e + Z.pos k).
Proof.
  intros Hm Hd He He'.
  assert (Z.pos (digits2_pos m) = 53 + Z.pos k) as Hdm.
  { apply digits2_unique. pose proof (digits2_bounds M) as HM. rewrite Hd in HM.
    rewrite Hm. replace (53 + Z.pos k - 1) with (Z.pos k + 52) by lia.
    replace (53 + Z.pos k) with (Z.pos k + 53) by lia.
    rewrite !Z.pow_add_r by lia. simpl (53 - 1) in HM.
    assert (0 < 2 ^ Z.pos k) by (apply Z.pow_pos_nonneg; lia). nia. }
  unfold binary_round_aux.
  assert (shr_fexp prec emax (Z.pos m) e loc_Exact = (exactly (Z.pos M), e + Z.pos k))
    as ->.
  { unfold shr_fexp. cbn [Zdigits2]. rewrite Hdm.
    rewrite fexp_normal by lia.
    replace (53 + Z.pos k + e - 53 - e) with (Z.pos k) by lia.
    unfold shr, shr_record_of_loc. rewrite Hm.
    pose proof (shr_exact k (Z.pos M)) as Hs. unfold exactly in *.
    by rewrite Hs. }
  cbn [exactly shr_m loc_of_shr_record round_nearest_even].
  rewrite shr_fexp_keep by (done || lia). cbn [shr_record_of_loc shr_m].
  unfold emax, prec. rewrite (proj2 (Z.leb_le _ (1024 - 53))) by lia. done.
Qed.

Lemma iter_xO (m d : positive) : Z.pos (Pos.iter xO m d) = Z.pos m * 2 ^ Z.pos d.
Proof.
  induction d as [|d IH] using Pos.peano_ind.
  - simpl. lia.
  - rewrite Pos.iter_succ. rewrite Pos2Z.inj_succ, Z.pow_succ_r by lia.
    change (Z.pos (Pos.iter xO m d)~0) with (2 * Z.pos (Pos.iter xO m d)).
    rewrite IH. lia.
Qed.

(** [binary_round] of a mantissa and an exponent that stand for a number
    with a 53-bit mantissa [M] and exponent [E] in range is that number. *)
Lemma binary_round_exact (s : bool) (m M : positive) (e E : Z) :
  Z.pos (digits2_pos M) = 53 -> -1074 <= E <= 971 -> -1074 <= e ->
  (E <= e /\ Z.pos M = Z.pos m * 2 ^ (e - E)) \/
  (e < E /\ Z.pos m = Z.pos M * 2 ^ (E - e)) ->
  binary_round prec emax s m e = S754_finite s M E.
Proof.
  intros Hd HE He Hval. pose proof (digits2_bounds M) as HM. rewrite Hd in HM.
  simpl (53 - 1) in HM. pose proof (Pos2Z.is_pos m) as Hm.
  assert (Z.pos (digits2_pos m) + e = 53 + E) as Hdm.
  { assert (Z.pos (digits2_pos m) = 53 + E - e) as ->; [|lia].
    apply digits2_unique. destruct Hval as [[Hle Hv]|[Hlt Hv]].
    - assert (0 < 2 ^ (e - E)) by (apply Z.pow_pos_nonneg; lia).
      assert (e - E <= 52) as Hj.
      { destruct (Z_lt_le_dec 52 (e - E)) as [Hbig|]; [|done].
        exfalso. assert (2 ^ 53 <= 2 ^ (e - E)) by (apply Z.pow_le_mono_r; lia).
        assert (2 ^ (e - E) <= Z.pos m * 2 ^ (e - E)) by nia. lia. }
      assert (2 ^ 52 = 2 ^ (53 + E - e - 1) * 2 ^ (e - E)) as H52.
      { rewrite <- Z.pow_add_r by lia. f_equal. lia. }
      assert (2 ^ 53 = 2 ^ (53 + E - e) * 2 ^ (e - E)) as H53.
      { rewrite <- Z.pow_add_r by lia. f_equal. lia. }
      change (2 ^ (53 - 1)) with (2 ^ 52) in HM.
      rewrite H52, H53, Hv in HM. destruct HM as [Hlo Hhi]. split.
      + by apply Z.mul_le_mono_pos_r in Hlo.
      + by apply Z.mul_lt_mono_pos_r in Hhi.
    - rewrite Hv. replace (53 + E - e - 1) with (52 + (E - e)) by lia.
      replace (53 + E - e) with (53 + (E - e)) by lia.
      rewrite !Z.pow_add_r by lia.
      assert (0 < 2 ^ (E - e)) by (apply Z.pow_pos_nonneg; lia). nia. }
  unfold binary_round. rewrite Hdm, fexp_normal by lia.
  replace (53 + E - 53) with E by lia. unfold shl_align.
  destruct Hval as [[Hle Hv]|[Hlt Hv]].
  - destruct (E - e) as [|d|d] eqn:Hdiff; try lia.
    + replace (e - E) with 0 in Hv by lia. rewrite Z.mul_1_r in Hv.
      injection Hv as <-. replace e with E by lia.
      by apply binary_round_aux_keep.
    + assert (Pos.iter xO m d = M) as ->.
      { apply Pos2Z.inj. rewrite iter_xO, Hv. do 2 f_equal. lia. }
      by apply binary_round_aux_keep.
  - destruct (E - e) as [|d|d] eqn:Hdiff; try lia.
    replace E with (e + Z.pos d) by lia.
    apply binary_round_aux_shift; lia.
Qed.


(** *** Integers as numbers *)

Lemma Zdigits2_abs (z : Z) : Zdigits2 (Z.abs z) = Zdigits2 z.
Proof. by destruct z. Qed.

Lemma Zdigits2_bounds (z : Z) :
  0 < z -> 2 ^ (Zdigits2 z - 1) <= z < 2 ^ Zdigits2 z.
Proof. destruct z as [|p|p]; try lia. intros _. apply digits2_bounds. Qed.

Lemma Zdigits2_range (z : Z) : 0 < z < 2 ^ 53 -> 1 <= Zdigits2 z <= 53.
Proof.
  intros [Hlo Hhi]. pose proof (Zdigits2_bounds z Hlo) as [Hb _].
  destruct z as [|p|p]; try lia. cbn [Zdigits2] in *. split; [lia|].
  destruct (Z_lt_le_dec 53 (Z.pos (digits2_pos p))) as [Hbig|]; [|done].
  assert (2 ^ 53 <= 2 ^ (Z.pos (digits2_pos p) - 1)) by (apply Z.pow_le_mono_r; lia).
  lia.
Qed.

(** The mantissa of a positive integer below [2^53]: the integer shifted
    up to 53 bits. *)
Lemma mantissa_spec (z : Z) :
  0 < z < 2 ^ 53 ->
  Z.pos (mantissa z) = z * 2 ^ (53 - Zdigits2 z) /\
  2 ^ 52 <= Z.pos (mantissa z) < 2 ^ 53 /\
  Z.pos (digits2_pos (mantissa z)) = 53.
Proof.
  intros Hz. pose proof (Zdigits2_range z Hz) as Hd.
  pose proof (Zdigits2_bounds z (proj1 Hz)) as [Hlo Hhi].
  assert (0 < 2 ^ (53 - Zdigits2 z)) as Hp by (apply Z.pow_pos_nonneg; lia).
  assert (Z.pos (mantissa z) = z * 2 ^ (53 - Zdigits2 z)) as Hm.
  { unfold mantissa. rewrite Z.abs_eq by lia. rewrite Z2Pos.id by nia. done. }
  assert (2 ^ 52 = 2 ^ (Zdigits2 z - 1) * 2 ^ (53 - Zdigits2 z)) as H52.
  { rewrite <- Z.pow_add_r by lia. f_equal. lia. }
  assert (2 ^ 53 = 2 ^ Zdigits2 z * 2 ^ (53 - Zdigits2 z)) as H53.
  { rewrite <- Z.pow_add_r by lia. f_equal. lia. }
  assert (2 ^ 52 <= Z.pos (mantissa z) < 2 ^ 53) as Hb.
  { rewrite Hm, H52, H53. split.
    - by apply Z.mul_le_mono_pos_r.
    - by apply Z.mul_lt_mono_pos_r. }
  split; [done|]. split; [done|]. by apply digits2_unique.
Qed.

Lemma mantissa_opp (z : Z) : mantissa (- z) = mantissa z.
Proof. unfold mantissa. rewrite Z.abs_opp. by destruct z. Qed.

Lemma exponent_opp (z : Z) : exponent (- z) = exponent z.
Proof. by destruct z. Qed.

(** The Number value of an integer of magnitude below [2^53], zero
    apart. *)
Lemma ofZ_pos (z : Z) :
  0 < z < 2 ^ 53 -> ofZ z = S754_finite false (mantissa z) (exponent z).
Proof.
  intros Hz. pose proof (mantissa_spec z Hz) as (Hm & Hb & Hd).
  pose proof (Zdigits2_range z Hz) as Hr.
  destruct z as [|p|p]; try lia. unfold ofZ, binary_normalize.
  apply binary_round_exact; try done; unfold exponent; try lia.
  left. split; [lia|]. rewrite Hm. do 2 f_equal. lia.
Qed.

Lemma ofZ_neg (z : Z) :
  0 < z < 2 ^ 53 -> ofZ (- z) = S754_finite true (mantissa z) (exponent z).
Proof.
  intros Hz. pose proof (mantissa_spec z Hz) as (Hm & Hb & Hd).
  pose proof (Zdigits2_range z Hz) as Hr.
  destruct z as [|p|p]; try lia. unfold ofZ, binary_normalize. cbn [Z.opp].
  apply binary_round_exact; try done; unfold exponent; try lia.
  left. split; [lia|]. rewrite Hm. do 2 f_equal. lia.
Qed.


(** *** Comparison *)

Lemma compare_pos (a b : Z) :
  0 < a < 2 ^ 53 -> 0 < b < 2 ^ 53 ->
  match exponent a ?= exponent b with
  | Lt => Lt
  | Gt => Gt
  | Eq => Pos.compare_cont Eq (mantissa a) (mantissa b)
  end = (a ?= b).
Proof.
  intros Ha Hb. unfold exponent.
  pose proof (Zdigits2_bounds a (proj1 Ha)) as [Hal Hah].
  pose proof (Zdigits2_bounds b (proj1 Hb)) as [Hbl Hbh].
  pose proof (Zdigits2_range a Ha) as Hda. pose proof (Zdigits2_range b Hb) as Hdb.
  destruct (Z.compare_spec (Zdigits2 a - 53) (Zdigits2 b - 53)) as [Heq|Hlt|Hgt].
  - assert (Zdigits2 a = Zdigits2 b) as Hd by lia.
    change (Pos.compare_cont Eq (mantissa a) (mantissa b))
      with (Z.pos (mantissa a) ?= Z.pos (mantissa b)).
    destruct (mantissa_spec a Ha) as [-> _], (mantissa_spec b Hb) as [-> _].
    rewrite Hd.
    assert (0 < 2 ^ (53 - Zdigits2 b)) by (apply Z.pow_pos_nonneg; lia).
    destruct (Z.compare_spec a b) as [->|Hlt|Hgt].
    + apply Z.compare_refl.
    + apply Z.compare_lt_iff. nia.
    + apply Z.compare_gt_iff. nia.
  - symmetry. apply Z.compare_lt_iff.
    assert (2 ^ Zdigits2 a <= 2 ^ (Zdigits2 b - 1)) by (apply Z.pow_le_mono_r; lia).
    lia.
  - symmetry. apply Z.compare_gt_iff.
    assert (2 ^ Zdigits2 b <= 2 ^ (Zdigits2 a - 1)) by (apply Z.pow_le_mono_r; lia).
    lia.
Qed.

(** [<] on integers below [2^53], the right one positive. *)
Lemma ltb_ofZ (a b : Z) :
  - 2 ^ 53 < a < 2 ^ 53 -> 0 < b < 2 ^ 53 -> ltb (ofZ a) (ofZ b) = (a <? b).
Proof.
  intros Ha Hb. rewrite (ofZ_pos b Hb). unfold ltb, SFltb.
  destruct (Z.compare_spec a 0) as [->|Hneg|Hpos].
  - simpl. symmetry. apply Z.ltb_lt. lia.
  - replace a with (- - a) by lia. rewrite ofZ_neg by lia. simpl.
    symmetry. apply Z.ltb_lt. lia.
  - rewrite ofZ_pos by lia. cbn [SFcompare]. rewrite compare_pos by lia.
    unfold Z.ltb. by destruct (a ?= b).
Qed.


(** *** Subtraction *)

Lemma mantissa_scaled (z : Z) :
  0 < z < 2 ^ 53 -> Z.pos (mantissa z) = z * 2 ^ (- exponent z).
Proof.
  intros Hz. destruct (mantissa_spec z Hz) as [-> _]. unfold exponent.
  do 2 f_equal. lia.
Qed.

Lemma exponent_range (z : Z) : 0 < z < 2 ^ 53 -> -52 <= exponent z <= 0.
Proof. intros Hz%Zdigits2_range. unfold exponent. lia. Qed.

Lemma shl_align_value (m : positive) (e e' : Z) :
  e' <= e -> Z.pos (fst (shl_align m e e')) = Z.pos m * 2 ^ (e - e').
Proof.
  intros He. unfold shl_align. destruct (e' - e) as [|d|d] eqn:Hd; try lia.
  - replace (e - e') with 0 by lia. simpl. lia.
  - simpl. rewrite iter_xO. do 2 f_equal. lia.
Qed.

(** An integer below [2^53] given with a scale is normalised to its Number
    value. *)
Lemma binary_normalize_scaled (D v e : Z) :
  -52 <= e <= 0 -> - 2 ^ 53 < v < 2 ^ 53 -> D = v * 2 ^ (- e) ->
  binary_normalize prec emax D e false = ofZ v.
Proof.
  intros He Hv HD.
  assert (0 < 2 ^ (- e)) as Hp by (apply Z.pow_pos_nonneg; lia).
  assert (forall w p s, 0 < w < 2 ^ 53 -> Z.pos p = w * 2 ^ (- e) ->
            binary_round prec emax s p e = S754_finite s (mantissa w) (exponent w))
    as Hround.
  { intros w p s Hw Hpw. pose proof (mantissa_spec w Hw) as (_ & _ & Hd).
    pose proof (exponent_range w Hw) as HE.
    pose proof (mantissa_scaled w Hw) as HM.
    apply binary_round_exact; try done; try lia.
    destruct (Z_le_gt_dec (exponent w) e) as [Hle|Hgt]; [left|right].
    - split; [done|]. rewrite HM, Hpw, <- Z.mul_assoc, <- Z.pow_add_r by lia.
      do 2 f_equal. lia.
    - split; [lia|]. rewrite HM, Hpw, <- Z.mul_assoc, <- Z.pow_add_r by lia.
      do 2 f_equal. lia. }
  destruct (Z.compare_spec v 0) as [->|Hneg|Hpos].
  - by subst D.
  - destruct D as [|p|p]; try nia. cbn [binary_normalize].
    rewrite (Hround (- v) p true) by (lia || nia).
    replace v with (- - v) at 3 by lia. by rewrite ofZ_neg by lia.
  - destruct D as [|p|p]; try nia. cbn [binary_normalize].
    rewrite (Hround v p false) by (lia || nia). by rewrite ofZ_pos by lia.
Qed.

(** The difference of two time values is exact. *)
Lemma sub_ofZ (a b : Z) :
  0 <= a < 2 ^ 53 -> 0 <= b < 2 ^ 53 -> sub (ofZ a) (ofZ b) = ofZ (a - b).
Proof.
  intros Ha Hb.
  destruct (Z.eq_dec a 0) as [->|Ha0], (Z.eq_dec b 0) as [->|Hb0].
  - done.
  - rewrite (ofZ_pos b) by lia. simpl sub. change (0 - b) with (- b).
    by rewrite ofZ_neg by lia.
  - rewrite Z.sub_0_r, (ofZ_pos a) by lia. done.
  - rewrite (ofZ_pos a), (ofZ_pos b) by lia. unfold sub, SFsub.
    pose proof (exponent_range a ltac:(lia)) as Hea.
    pose proof (exponent_range b ltac:(lia)) as Heb.
    apply binary_normalize_scaled; try lia.
    cbn [cond_Zopp]. rewrite !shl_align_value by lia.
    rewrite !mantissa_scaled by lia.
    rewrite <- !Z.mul_assoc, <- !Z.pow_add_r by lia.
    replace (- exponent a + (exponent a - Z.min (exponent a) (exponent b)))
      with (- Z.min (exponent a) (exponent b)) by lia.
    replace (- exponent b + (exponent b - Z.min (exponent a) (exponent b)))
      with (- Z.min (exponent a) (exponent b)) by lia.
    lia.
Qed.


(** *** Division *)

(** Where the remainder [r] of a division by [n] lies: nowhere, below,
    at or above the half of [n]. *)
Lemma new_location_spec (n r : Z) :
  0 < n -> 0 <= r < n ->
  new_location n r = if r =? 0 then loc_Exact else loc_Inexact (2 * r ?= n).
Proof.
  intros Hn Hr. unfold new_location, new_location_even, new_location_odd.
  destruct (Z.even n) eqn:Heven; [done|].
  destruct (r =? 0); [done|]. f_equal.
  assert (Z.odd n = true) as Hodd by (rewrite <- Z.negb_even; by rewrite Heven).
  apply Z.odd_spec in Hodd as [k ->].
  destruct (Z.compare_spec (2 * r + 1) (2 * k + 1)) as [Heq|Hlt|Hgt]; symmetry.
  - apply Z.compare_lt_iff. lia.
  - apply Z.compare_lt_iff. lia.
  - apply Z.compare_gt_iff. lia.
Qed.

(** Two quotients agree, rounded down and rounded up, when [M / P] is
    within half a unit of [X / c] and [P] is fine enough. *)
Lemma quotient_agree (M P X c : Z) :
  0 < P -> 0 < c -> 0 <= M -> 0 <= X ->
  Z.abs (2 * M * c - 2 * X * P) <= c -> c < 2 * P ->
  M / P = X / c /\ (- M) / P = (- X) / c.
Proof.
  intros HP Hc HM HX Herr Hfine.
  apply Z.abs_le in Herr as [Hlo Hhi]. split.
  - pose proof (Z.mul_div_le X c Hc) as Hdown.
    pose proof (Z.mul_succ_div_gt X c Hc) as Hup.
    set (K := X / c) in *.
    assert (P * K <= M).
    { assert (2 * c * (K * P - M) <= c) by nia. nia. }
    assert (M < P * (K + 1)).
    { assert (2 * c * M < 2 * c * (P * (K + 1))) by nia. nia. }
    symmetry. apply (Z.div_unique M P K (M - P * K)); lia.
  - pose proof (Z.mul_div_le (- X) c Hc) as Hdown.
    pose proof (Z.mul_succ_div_gt (- X) c Hc) as Hup.
    set (K := (- X) / c) in *.
    assert (P * K <= - M).
    { assert (2 * c * (M + K * P) <= c) by nia. nia. }
    assert (- M < P * (K + 1)).
    { assert (2 * c * (P * (- K - 1)) < 2 * c * M) by nia. nia. }
    symmetry. apply (Z.div_unique (- M) P K (- M - P * K)); lia.
Qed.


Lemma shr_fexp_one (q : positive) (e : Z) (l : location) :
  Z.pos (digits2_pos q) = 54 -> -1074 <= e ->
  shr_fexp prec emax (Z.pos q) e l = (shr_1 (shr_record_of_loc (Z.pos q) l), e + 1).
Proof.
  intros Hd He. unfold shr_fexp. cbn [Zdigits2]. rewrite Hd.
  rewrite fexp_normal by lia. replace (54 + e - 53 - e) with 1 by lia. done.
Qed.

(** The last step of rounding: a mantissa of 53 bits is kept, [2^53] is
    halved. *)
Lemma round_finish (s : bool) (M0 E0 : Z) :
  2 ^ 52 <= M0 <= 2 ^ 53 -> -1074 <= E0 <= 900 ->
  exists M E,
    (let '(mrs, e) := shr_fexp prec emax M0 E0 loc_Exact in
     match shr_m mrs with
     | Z0 => S754_zero s
     | Z.pos m => if e <=? emax - prec then S754_finite s m e else S754_infinity s
     | Z.neg _ => S754_nan
     end) = S754_finite s M E /\
    ((Z.pos M = M0 /\ E = E0) \/ (M0 = 2 * Z.pos M /\ E = E0 + 1)).
Proof.
  intros HM HE. destruct (Z.eq_dec M0 (2 ^ 53)) as [->|Hne].
  - exists (Z.to_pos (2 ^ 52)), (E0 + 1).
    rewrite (shr_fexp_one (Z.to_pos (2 ^ 53))) by (done || lia).
    cbn [shr_record_of_loc shr_1 shr_m Z.to_pos Z.pow Z.pow_pos Pos.iter Z.mul Pos.mul].
    unfold emax, prec. rewrite (proj2 (Z.leb_le _ (1024 - 53))) by lia.
    split; [done|]. right. done.
  - destruct M0 as [|p|p]; try lia. exists p, E0.
    rewrite shr_fexp_keep; [|apply digits2_unique; simpl (53 - 1); lia|lia].
    cbn [shr_record_of_loc shr_m].
    unfold emax, prec. rewrite (proj2 (Z.leb_le _ (1024 - 53))) by lia.
    split; [done|]. by left.
Qed.


(** Rounding the quotient [m' / n], which has 53 or 54 bits: the result has
    a mantissa [M0] (before a last halving, should it be [2^53]) within
    half a unit of [m' / n] at its scale. *)
Lemma round_quotient (s : bool) (m' n e' : Z) :
  0 < n -> 2 ^ 52 * n <= m' < 2 ^ 54 * n -> -1074 <= e' <= 890 ->
  exists M E M0 j,
    binary_round_aux prec emax s (m' / n) e' (new_location n (m' mod n))
    = S754_finite s M E /\
    (j = 0 \/ j = 1) /\
    ((Z.pos M = M0 /\ E = e' + j) \/ (M0 = 2 * Z.pos M /\ E = e' + j + 1)) /\
    Z.abs (2 * M0 * n * 2 ^ j - 2 * m') <= n * 2 ^ j.
Proof.
  intros Hn Hm He.
  pose proof (Z.div_mod m' n ltac:(lia)) as Hdiv.
  pose proof (Z.mod_pos_bound m' n Hn) as Hr.
  assert (2 ^ 52 <= m' / n) as Hqlo by (apply Z.div_le_lower_bound; lia).
  assert (m' / n < 2 ^ 54) as Hqhi by (apply Z.div_lt_upper_bound; lia).
  rewrite new_location_spec by done.
  set (q := m' / n) in *. set (r := m' mod n) in *.
  unfold binary_round_aux.
  destruct (Z_lt_le_dec q (2 ^ 53)) as [Hsmall|Hbig].
  - (* 53 bits *)
    destruct q as [|p|p] eqn:Hq; try lia.
    rewrite shr_fexp_keep; [|apply digits2_unique; simpl (53 - 1); lia|lia].
    set (loc := if r =? 0 then loc_Exact else loc_Inexact (2 * r ?= n)).
    assert (shr_m (shr_record_of_loc (Z.pos p) loc) = Z.pos p) as ->
      by (by destruct loc as [|[]]).
    assert (loc_of_shr_record (shr_record_of_loc (Z.pos p) loc) = loc) as ->
      by (by destruct loc as [|[]]).
    set (M0 := round_nearest_even (Z.pos p) loc).
    assert (Z.pos p <= M0 <= Z.pos p + 1 /\
            Z.abs (2 * M0 * n - 2 * m') <= n) as [HM0 Herr].
    { unfold M0, loc. destruct (Z.eqb_spec r 0) as [Hr0|Hr0].
      - cbn [round_nearest_even]. split; [lia|]. apply Z.abs_le. nia.
      - destruct (Z.compare_spec (2 * r) n) as [Heq|Hlt|Hgt];
          cbn [round_nearest_even].
        + destruct (Z.even (Z.pos p)); (split; [lia|]); apply Z.abs_le; nia.
        + split; [lia|]. apply Z.abs_le. nia.
        + split; [lia|]. apply Z.abs_le. nia. }
    destruct (round_finish s M0 e') as (M & E & -> & Hcarry); [lia|lia|].
    exists M, E, M0, 0. split; [done|]. split; [by left|].
    rewrite Z.add_0_r, Z.pow_0_r, !Z.mul_1_r. done.
  - (* 54 bits *)
    destruct q as [|p|p] eqn:Hq; try lia.
    rewrite shr_fexp_one; [|apply digits2_unique; simpl (54 - 1); lia|lia].
    set (loc := if r =? 0 then loc_Exact else loc_Inexact (2 * r ?= n)).
    set (mrs := shr_1 (shr_record_of_loc (Z.pos p) loc)).
    set (M0 := round_nearest_even (shr_m mrs) (loc_of_shr_record mrs)).
    assert (2 ^ 52 <= M0 <= 2 ^ 53 /\
            Z.abs (2 * M0 * n * 2 - 2 * m') <= n * 2) as [HM0 Herr].
    { unfold M0, mrs, loc. destruct (Z.eqb_spec r 0) as [Hr0|Hr0].
      - destruct p as [p|p|]; try lia;
          cbn [shr_record_of_loc shr_1 shr_m shr_r shr_s loc_of_shr_record orb
               round_nearest_even].
        + destruct (Z.even (Z.pos p)); (split; [lia|]); apply Z.abs_le; nia.
        + split; [lia|]. apply Z.abs_le. nia.
      - destruct (Z.compare_spec (2 * r) n) as [Heq|Hlt|Hgt];
          destruct p as [p|p|]; try lia;
          cbn [shr_record_of_loc shr_1 shr_m shr_r shr_s loc_of_shr_record orb
               round_nearest_even];
          (split; [lia|]); apply Z.abs_le; nia. }
    destruct (round_finish s M0 (e' + 1)) as (M & E & -> & Hcarry); [lia|lia|].
    exists M, E, M0, 1. split; [done|]. split; [by right|].
    rewrite Z.pow_1_r. split; [|done]. destruct Hcarry as [[? ->]|[? ->]]; [by left|right]. done.
Qed.


Lemma SFdiv_core_53 (mx mc : positive) (ex ec : Z) :
  Z.pos (digits2_pos mx) = 53 -> Z.pos (digits2_pos mc) = 53 ->
  -1000 <= ex - ec ->
  SFdiv_core_binary prec emax (Z.pos mx) ex (Z.pos mc) ec
  = ((Z.pos mx * 2 ^ 53) / Z.pos mc, ex - ec - 53,
     new_location (Z.pos mc) ((Z.pos mx * 2 ^ 53) mod Z.pos mc)).
Proof.
  intros Hx Hc He. unfold SFdiv_core_binary. cbn [Zdigits2]. rewrite Hx, Hc.
  replace (53 + ex - (53 + ec)) with (ex - ec) by lia.
  rewrite fexp_normal by lia.
  replace (Z.min (ex - ec - 53) (ex - ec)) with (ex - ec - 53) by lia.
  replace (ex - ec - (ex - ec - 53)) with 53 by lia.
  rewrite Z.shiftl_mul_pow2 by lia.
  unfold Z.div, Z.modulo.
  by destruct (Z.div_eucl (Z.pos mx * 2 ^ 53) (Z.pos mc)).
Qed.

(** The quotient of an integer below [2^53] by an integer from 4 on, as a
    Number: its whole part is the whole part of the quotient of the
    integers, rounded down as well as rounded up. *)
Lemma div_ofZ_pos (s : bool) (A c : Z) :
  0 < A < 2 ^ 53 -> 4 <= c < 2 ^ 53 ->
  exists M E,
    div (S754_finite s (mantissa A) (exponent A)) (ofZ c) = S754_finite s M E /\
    E < 0 /\
    Z.pos M / 2 ^ (- E) = A / c /\
    (- Z.pos M) / 2 ^ (- E) = (- A) / c.
Proof.
  intros HA Hc. rewrite (ofZ_pos c) by lia.
  pose proof (mantissa_spec A HA) as (_ & HbA & HdA).
  pose proof (mantissa_spec c ltac:(lia)) as (_ & Hbc & Hdc).
  pose proof (mantissa_scaled A HA) as HmA.
  pose proof (mantissa_scaled c ltac:(lia)) as Hmc.
  pose proof (exponent_range A HA) as HeA.
  pose proof (exponent_range c ltac:(lia)) as Hec.
  assert (-50 <= exponent c) as Hec'.
  { unfold exponent. pose proof (Zdigits2_bounds c ltac:(lia)) as [_ Hhi].
    destruct (Z_lt_le_dec (Zdigits2 c) 3) as [Hlow|]; [|lia].
    assert (2 ^ Zdigits2 c <= 2 ^ 2) by (apply Z.pow_le_mono_r; lia).
    simpl in *; lia. }
  assert (c < 2 ^ (53 + exponent c)) as Hcd.
  { unfold exponent. replace (53 + (Zdigits2 c - 53)) with (Zdigits2 c) by lia.
    apply Zdigits2_bounds. lia. }
  unfold div, SFdiv. rewrite SFdiv_core_53 by (done || lia).
  rewrite xorb_false_r.
  set (mx := Z.pos (mantissa A)) in *. set (mc := Z.pos (mantissa c)) in *.
  set (ex := exponent A) in *. set (ec := exponent c) in *.
  destruct (round_quotient s (mx * 2 ^ 53) mc (ex - ec - 53))
    as (M & E & M0 & j & -> & Hj & Hcarry & Herr); [lia|nia|lia|].
  exists M, E.
  assert (0 <= j <= 1) as Hj' by lia.
  set (P0 := 2 ^ (- (ex - ec - 53 + j))).
  assert (0 < P0) as HP0 by (apply Z.pow_pos_nonneg; lia).
  assert (0 <= M0) as HM0 by (destruct Hcarry as [[<- _]|[-> _]]; lia).
  (* the error, free of the scale *)
  set (F := 2 ^ (j - ec)).
  assert (0 < F) as HF by (apply Z.pow_pos_nonneg; lia).
  assert (mc * 2 ^ j = c * F) as HnF.
  { unfold F. rewrite Hmc. rewrite <- Z.mul_assoc, <- Z.pow_add_r by lia.
    do 2 f_equal. lia. }
  assert (mx * 2 ^ 53 = A * P0 * F) as HmF.
  { unfold F, P0. rewrite HmA.
    rewrite <- !Z.mul_assoc, <- !Z.pow_add_r by lia. do 2 f_equal. lia. }
  assert (Z.abs (2 * M0 * c - 2 * A * P0) <= c) as Hclose.
  { apply Z.mul_le_mono_pos_r with (p := F); [done|].
    rewrite <- (Z.abs_eq F) at 1 by lia. rewrite <- Z.abs_mul.
    replace ((2 * M0 * c - 2 * A * P0) * F)
      with (2 * M0 * (c * F) - 2 * (A * P0 * F)) by ring.
    rewrite <- HnF, <- HmF. replace (2 * M0 * (mc * 2 ^ j)) with (2 * M0 * mc * 2 ^ j) by ring.
    done. }
  assert (c < 2 * P0) as Hfine.
  { assert (2 ^ (53 + ec) <= 2 * P0); [|lia].
    unfold P0. rewrite <- (Z.pow_succ_r 2) by lia. apply Z.pow_le_mono_r; lia. }
  destruct (quotient_agree M0 P0 A c) as [Hdown Hup]; try lia.
  destruct Hcarry as [[HM ->]|[HM ->]].
  - fold P0. rewrite HM. split; [done|]. split; [lia|]. done.
  - split; [done|]. split; [lia|].
    assert (P0 = 2 * 2 ^ (- (ex - ec - 53 + j + 1))) as HP.
    { unfold P0. rewrite <- (Z.pow_succ_r 2) by lia. f_equal. lia. }
    assert (0 < 2 ^ (- (ex - ec - 53 + j + 1))) by (apply Z.pow_pos_nonneg; lia).
    rewrite <- Hdown, <- Hup, HM, HP. split.
    + by rewrite Z.div_mul_cancel_l by lia.
    + replace (- (2 * Z.pos M)) with (2 * - Z.pos M) by lia.
      by rewrite Z.div_mul_cancel_l by lia.
Qed.


(** *** Whole parts *)

Lemma floor_finite (s : bool) (M : positive) (E : Z) :
  E < 0 ->
  floor (S754_finite s M E)
  = ofZ (if s then (- Z.pos M) / 2 ^ (- E) else Z.pos M / 2 ^ (- E)).
Proof.
  intros HE. unfold floor. rewrite (proj2 (Z.leb_gt 0 E)) by lia.
  destruct s; [|done]. f_equal.
  assert (2 ^ (- E) <> 0) as Hp.
  { assert (0 < 2 ^ (- E)) by (apply Z.pow_pos_nonneg; lia). lia. }
  destruct (Z.eqb_spec (Z.pos M mod 2 ^ (- E)) 0) as [Hz|Hnz].
  - by rewrite Z.div_opp_l_z.
  - rewrite Z.div_opp_l_nz by done. lia.
Qed.

(** [Math.floor(x / c)] on integers below [2^53] is the quotient of the
    integers, rounded down. *)
Lemma floor_div_ofZ (X c : Z) :
  - 2 ^ 53 < X < 2 ^ 53 -> 4 <= c < 2 ^ 53 ->
  floor (div (ofZ X) (ofZ c)) = ofZ (X / c).
Proof.
  intros HX Hc. destruct (Z.compare_spec X 0) as [->|Hneg|Hpos].
  - rewrite (ofZ_pos c) by lia. done.
  - replace X with (- - X) at 1 by lia. rewrite ofZ_neg by lia.
    destruct (div_ofZ_pos true (- X) c) as (M & E & -> & HE & _ & Hup); [lia|lia|].
    rewrite floor_finite by done. rewrite Hup. f_equal. f_equal. lia.
  - rewrite ofZ_pos by lia.
    destruct (div_ofZ_pos false X c) as (M & E & -> & HE & Hdown & _); [lia|lia|].
    rewrite floor_finite by done. by rewrite Hdown.
Qed.


Example floor_div_samples :
  floor (div (ofZ 90500) (ofZ 1000)) = ofZ 90 /\
  floor (div (ofZ (-1)) (ofZ 1000)) = ofZ (-1) /\
  floor (div (ofZ 9007199254740991) (ofZ 24)) = ofZ 375299968947541.
Proof. by vm_compute. Qed.

(** The sign goes in front of the digits. *)
Lemma NumberToString_opp (k : Z) :
  0 < k < 2 ^ 53 -> NumberToString (ofZ (- k)) = "-" +:+ NumberToString (ofZ k).
Proof.
  intros Hk. rewrite ofZ_neg, ofZ_pos by done. unfold NumberToString.
  by destruct (shortest _ _ _ _ _ _) as [[digits len] point].
Qed.

(** The numbers below 60 print as their decimal digits. *)
Lemma NumberToString_below_60 (k : Z) :
  0 <= k < 60 -> NumberToString (ofZ k) = natToString (Z.to_N k).
Proof.
  intros Hk.
  assert (forallb (fun i => String.eqb (NumberToString (ofZ (Z.of_nat i)))
                                       (natToString (Z.to_N (Z.of_nat i))))
                  (seq 0 60) = true) as Hall by (by vm_compute).
  rewrite forallb_forall in Hall.
  specialize (Hall (Z.to_nat k)). rewrite Z2Nat.id in Hall by lia.
  apply String.eqb_eq, Hall, in_seq. lia.
Qed.

Lemma digitIn_digit (c : ascii) :
  isDigit c = true -> digitIn 10 c = Some (codeUnit c - 48)%N.
Proof.
  unfold isDigit, digitIn, digitValue. intros H. rewrite H.
  unfold inRange in H. apply andb_true_iff in H as [Hlo Hhi].
  apply N.leb_le in Hlo, Hhi.
  by rewrite (proj2 (N.ltb_lt _ _)) by lia.
Qed.

Lemma readDigits_digits (s : string) (acc : N) (count : nat) :
  allDigits s = true ->
  readDigits 10 s acc count
  = (decimalFrom acc s, (count + String.length s)%nat, EmptyString).
Proof.
  revert acc count. induction s as [|c s IH]; intros acc count H; simpl.
  - by rewrite Nat.add_0_r.
  - simpl in H. apply andb_true_iff in H as [Hc Hs].
    rewrite (digitIn_digit c Hc), IH by done. do 2 f_equal. lia.
Qed.

Lemma isWhiteSpace_digit (c : ascii) : isDigit c = true -> isWhiteSpace c = false.
Proof.
  unfold isDigit, isWhiteSpace, inRange. intros [Hlo Hhi]%andb_true_iff.
  apply N.leb_le in Hlo, Hhi.
  rewrite (proj2 (N.leb_gt _ 13)) by lia. rewrite andb_false_r.
  rewrite (proj2 (N.eqb_neq _ 32)) by lia. by rewrite (proj2 (N.eqb_neq _ 160)) by lia.
Qed.

Lemma trim_digits (s : string) : allDigits s = true -> trim s = s.
Proof.
  intros H. unfold trim.
  assert (trimStart s = s) as ->.
  { destruct s as [|c s]; [done|]. simpl in *.
    apply andb_true_iff in H as [Hc _]. by rewrite isWhiteSpace_digit. }
  induction s as [|c s IH]; [done|]. simpl in *.
  apply andb_true_iff in H as [Hc Hs]. rewrite IH by done.
  destruct s; [|done]. by rewrite isWhiteSpace_digit.
Qed.

Lemma eqb_digit (c d : ascii) :
  isDigit c = true -> isDigit d = false -> Ascii.eqb c d = false.
Proof.
  intros Hc Hd. destruct (Ascii.eqb_spec c d) as [->|]; [congruence|done].
Qed.

(** [Number] of a string of digits is the Number value of the integer it
    denotes. *)
Lemma StringToNumber_digits (s : string) :
  isNumeral s = true -> StringToNumber s = ofZ (decimalValue s).
Proof.
  unfold isNumeral. intros [Hne Hs]%andb_true_iff.
  assert (parseUnsignedDecimal false s = ofZ (decimalValue s)) as Hparse.
  { unfold parseUnsignedDecimal.
    assert (String.eqb s "Infinity" = false) as ->.
    { destruct s as [|c s]; [done|]. simpl in Hs.
      apply andb_true_iff in Hs as [Hc _]. simpl.
      by rewrite (eqb_digit c "I"). }
    rewrite readDigits_digits by done. simpl.
    destruct s as [|c s]; [done|]. cbn [String.length].
    unfold decToNumber, decimalValue, ofZ.
    destruct (decimalFrom 0 (String c s)) as [|p]; [done|].
    simpl. by rewrite Pos.mul_1_r. }
  unfold StringToNumber. rewrite trim_digits by done.
  destruct s as [|c s]; [done|]. simpl in Hs.
  apply andb_true_iff in Hs as [Hc Hs].
  destruct c as [[] [] [] [] [] [] [] []]; try discriminate Hc; try exact Hparse.
  destruct s as [|d s]; [exact Hparse|].
  simpl in Hs. apply andb_true_iff in Hs as [Hd _].
  rewrite !(eqb_digit d) by done. exact Hparse.
Qed.

End NumberFacts.

(** ** The time-ago text on the clock *)

Module ClockFacts.
Import Js Processes Spec Samples Whole NumberFacts TimeFacts.

(** Property X18.  For a timestamp that is not empty and does not parse as
    a date ([new Date(isoDate).getTime()] is [NaN]), [formatTimeAgo]
    returns "Hace NaN d": every comparison with [NaN] is false, so the text
    falls through to the days.  The same holds when the clock reads
    [NaN]. *)
Theorem formatTimeAgo_invalid_date (parse : string -> number) (now : number)
    (iso : string) :
  iso <> "" ->
  isNaN (parse iso) = true \/ isNaN now = true ->
  formatTimeAgo parse now (Some iso) = "Hace NaN d".
Proof.
  intros Hiso Hnan. destruct iso as [|c iso]; [done|].
  unfold formatTimeAgo. cbn [primTruthy String.eqb negb].
  assert (sub now (parse (String c iso)) = NaN) as ->.
  { destruct Hnan as [H|H].
    - destruct (parse (String c iso)); try done. by destruct now.
    - destruct now; try done. }
  by vm_compute.
Qed.

Lemma formatTimeAgo_invalid_date_witness :
  formatTimeAgo sampleParse sampleNow (Some "yesterday") = "Hace NaN d".
Proof.
  apply (formatTimeAgo_invalid_date sampleParse sampleNow "yesterday").
  - discriminate.
  - left. reflexivity.
Defined.

(** Property X19.  On the clock as it is, integer milliseconds since 1970
    for the timestamp and for now, [formatTimeAgo] works in whole units:
    with [s] the whole seconds elapsed, [(now - then) / 1000] rounded down,
    it prints [s] seconds when [s < 60], else [s / 60] minutes when that is
    below 60, else [s / 3600] hours when that is below 24, else
    [s / 86400] days, every quotient rounded down.  The floating-point
    divisions and [Math.floor] of the method never differ from the integer
    quotients. *)
Theorem formatTimeAgo_whole_units (parse : string -> number) (iso : string) (t n : Z) :
  iso <> "" ->
  0 <= t < 2 ^ 53 -> 0 <= n < 2 ^ 53 ->
  parse iso = ofZ t ->
  let s := (n - t) / 1000 in
  formatTimeAgo parse (ofZ n) (Some iso) =
    if s <? 60 then "Hace " +:+ NumberToString (ofZ s) +:+ " seg"
    else if s / 60 <? 60 then "Hace " +:+ NumberToString (ofZ (s / 60)) +:+ " min"
    else if s / 3600 <? 24 then "Hace " +:+ NumberToString (ofZ (s / 3600)) +:+ " h"
    else "Hace " +:+ NumberToString (ofZ (s / 86400)) +:+ " d".
Proof.
  intros Hiso Ht Hn Hparse s.
  rewrite formatTimeAgo_present by done. rewrite Hparse, sub_ofZ by done.
  rewrite floor_div_ofZ by lia. fold s.
  assert (- 2 ^ 53 < s < 2 ^ 53) as Hs.
  { unfold s. split.
    - assert (- 2 ^ 53 + 1 <= (n - t) / 1000) by (apply Z.div_le_lower_bound; lia).
      lia.
    - apply Z.div_lt_upper_bound; lia. }
  unfold agoText. rewrite ltb_ofZ by lia.
  destruct (Z.ltb_spec s 60) as [|Hs60]; [done|].
  rewrite floor_div_ofZ by lia.
  assert (0 <= s / 60 < 2 ^ 53) as Hm.
  { split; [apply Z.div_pos; lia|]. apply Z.div_lt_upper_bound; lia. }
  rewrite ltb_ofZ by lia.
  destruct (Z.ltb_spec (s / 60) 60) as [|Hm60]; [done|].
  rewrite floor_div_ofZ by lia. rewrite Z.div_div by lia.
  change (60 * 60) with 3600.
  assert (0 <= s / 3600 < 2 ^ 53) as Hh.
  { split; [apply Z.div_pos; lia|]. apply Z.div_lt_upper_bound; lia. }
  rewrite ltb_ofZ by lia.
  destruct (Z.ltb_spec (s / 3600) 24) as [|Hh24]; [done|].
  rewrite floor_div_ofZ by lia. rewrite Z.div_div by lia. done.
Qed.


Lemma formatTimeAgo_whole_units_witness :
  formatTimeAgo sampleParse (ofZ 1735776000000) (Some "2025-01-01T00:00:00Z")
  = "Hace 1 d".
Proof.
  refine (eq_trans (formatTimeAgo_whole_units sampleParse "2025-01-01T00:00:00Z"
                      1735689600000 1735776000000 _ _ _ _) _).
  - discriminate.
  - lia.
  - lia.
  - reflexivity.
  - vm_compute. reflexivity.
Defined.

(** Property X20.  For a timestamp of the past and less than a day old,
    the text is "Hace ", the decimal digits of the count, and the unit:
    the whole seconds below a minute, the whole minutes below an hour, the
    whole hours from then on. *)
Theorem formatTimeAgo_recent (parse : string -> number) (iso : string) (t n : Z) :
  iso <> "" ->
  0 <= t -> t <= n -> n < 2 ^ 53 -> n - t < 86400000 ->
  parse iso = ofZ t ->
  let s := (n - t) / 1000 in
  formatTimeAgo parse (ofZ n) (Some iso) =
    if s <? 60 then "Hace " +:+ natToString (Z.to_N s) +:+ " seg"
    else if s <? 3600 then "Hace " +:+ natToString (Z.to_N (s / 60)) +:+ " min"
    else "Hace " +:+ natToString (Z.to_N (s / 3600)) +:+ " h".
Proof.
  intros Hiso Ht Htn Hn Hday Hparse s.
  rewrite (formatTimeAgo_whole_units parse iso t n) by (done || lia). fold s.
  assert (0 <= s < 86400) as Hs.
  { unfold s. split; [apply Z.div_pos; lia|]. apply Z.div_lt_upper_bound; lia. }
  destruct (Z.ltb_spec s 60) as [Hs60|Hs60].
  { by rewrite NumberToString_below_60 by lia. }
  assert (0 <= s / 60) by (apply Z.div_pos; lia).
  destruct (Z.ltb_spec s 3600) as [Hs3600|Hs3600].
  - assert (s / 60 < 60) as Hm by (apply Z.div_lt_upper_bound; lia).
    rewrite (proj2 (Z.ltb_lt _ _) Hm). by rewrite NumberToString_below_60 by lia.
  - assert (60 <= s / 60) as Hm by (apply Z.div_le_lower_bound; lia).
    rewrite (proj2 (Z.ltb_ge _ _) Hm).
    assert (0 <= s / 3600 < 24) as Hh.
    { split; [apply Z.div_pos; lia|]. apply Z.div_lt_upper_bound; lia. }
    rewrite (proj2 (Z.ltb_lt _ _) (proj2 Hh)).
    by rewrite NumberToString_below_60 by lia.
Qed.

Lemma formatTimeAgo_recent_witness :
  formatTimeAgo sampleParse (ofZ 1735693259999) (Some "2025-01-01T00:00:00Z")
  = "Hace 1 h".
Proof.
  refine (eq_trans (formatTimeAgo_recent sampleParse "2025-01-01T00:00:00Z"
                      1735689600000 1735693259999 _ _ _ _ _ _) _).
  - discriminate.
  - lia.
  - lia.
  - lia.
  - lia.
  - reflexivity.
  - vm_compute. reflexivity.
Defined.

(** Property X21.  A timestamp of the future is never told as such: it
    gives "Hace -N seg" whatever its distance, since a negative number of
    seconds is below 60.  [N] is the distance in seconds rounded up: one
    millisecond ahead reads "Hace -1 seg". *)
Theorem formatTimeAgo_future (parse : string -> number) (iso : string) (t n : Z) :
  iso <> "" ->
  0 <= n -> n < t -> t < 2 ^ 53 ->
  parse iso = ofZ t ->
  let ahead := - ((n - t) / 1000) in
  0 < ahead /\
  (t - n <= 1000 * ahead < t - n + 1000) /\
  formatTimeAgo parse (ofZ n) (Some iso)
  = "Hace -" +:+ NumberToString (ofZ ahead) +:+ " seg" /\
  (ahead < 60 ->
   formatTimeAgo parse (ofZ n) (Some iso)
   = "Hace -" +:+ natToString (Z.to_N ahead) +:+ " seg").
Proof.
  intros Hiso Hn Hnt Ht Hparse ahead.
  pose proof (Z.mul_div_le (n - t) 1000 ltac:(lia)) as Hdown.
  pose proof (Z.mul_succ_div_gt (n - t) 1000 ltac:(lia)) as Hup.
  assert (0 < ahead) as Hpos by (unfold ahead; lia).
  assert (ahead < 2 ^ 53) as Hbig by (unfold ahead; lia).
  assert (formatTimeAgo parse (ofZ n) (Some iso)
          = "Hace -" +:+ NumberToString (ofZ ahead) +:+ " seg") as Htext.
  { rewrite (formatTimeAgo_whole_units parse iso t n) by (done || lia).
    rewrite (proj2 (Z.ltb_lt ((n - t) / 1000) 60)) by lia.
    replace ((n - t) / 1000) with (- ahead) by (unfold ahead; lia).
    by rewrite NumberToString_opp by lia. }
  split; [done|]. split; [unfold ahead; lia|]. split; [done|].
  intros Hsoon. rewrite Htext. by rewrite NumberToString_below_60 by lia.
Qed.

Lemma formatTimeAgo_future_witness :
  formatTimeAgo sampleParse (ofZ 1735689599999) (Some "2025-01-01T00:00:00Z")
  = "Hace -1 seg".
Proof.
  refine (eq_trans
            (proj1 (proj2 (proj2 (formatTimeAgo_future sampleParse
                                    "2025-01-01T00:00:00Z"
                                    1735689600000 1735689599999 _ _ _ _ _)))) _).
  - discriminate.
  - lia.
  - lia.
  - lia.
  - reflexivity.
  - vm_compute. reflexivity.
Defined.

End ClockFacts.

(** ** Numerals in the payload *)

Module PayloadFacts.
Import Js Processes Spec Samples Whole JsFacts EditFacts NumberFacts.

Lemma isNaN_ofZ (v : Z) : 0 <= v < 2 ^ 53 -> isNaN (ofZ v) = false.
Proof.
  intros Hv. destruct (Z.eq_dec v 0) as [->|]; [done|]. by rewrite ofZ_pos by lia.
Qed.

(** Property X22.  In the payload [updateSelectedProcess] sends, a
    parameter whose [type] is "number" and whose value is a numeral (a
    string of decimal digits, leading zeros allowed) below [2^53] has for
    value the number the digits denote, and every other property as the
    draft has it. *)
Theorem updateSelectedProcess_sends_numerals
    (st : Component) (i : string) (body : PatchBody) :
  effects (updateSelectedProcess st) = [HttpPatchProcess i body] ->
  Forall2 (fun p q =>
             forall s,
               optProp p "type" = JStr "number" ->
               optProp p "value" = JStr s ->
               isNumeral s = true ->
               decimalValue s < 2 ^ 53 ->
               optProp q "value" = JNum (ofZ (decimalValue s)) /\
               forall k, k <> "value" ->
                 getOwn JUndefined k (ownProps q) = getOwn JUndefined k (ownProps p))
          (editedParameters st) (body_parameters body).
Proof.
  intros H. apply updateSelectedProcess_request in H
    as (sel & edited & _ & _ & _ & _ & _ & H).
  apply mapM_Ok in H. eapply Forall2_impl; [exact H|].
  intros p q [Hnum _]%normalizeParameter_sentAs s Ht Hv Hs Hsmall.
  destruct (Hnum Ht) as (n & Hn & ->).
  rewrite Hv in Hn. simpl in Hn. injection Hn as <-.
  rewrite StringToNumber_digits by done.
  rewrite isNaN_ofZ by (unfold decimalValue in *; lia).
  split.
  - simpl. apply getOwn_assign.
  - intros k Hk. simpl. by apply getOwn_assign_ne.
Qed.

Lemma updateSelectedProcess_sends_numerals_witness :
  Forall2 (fun p q =>
             forall s,
               optProp p "type" = JStr "number" ->
               optProp p "value" = JStr s ->
               isNumeral s = true ->
               decimalValue s < 2 ^ 53 ->
               optProp q "value" = JNum (ofZ (decimalValue s)) /\
               forall k, k <> "value" ->
                 getOwn JUndefined k (ownProps q) = getOwn JUndefined k (ownProps p))
          (editedParameters sampleEditing) (body_parameters sampleBody).
Proof.
  apply (updateSelectedProcess_sends_numerals sampleEditing "p1" sampleBody).
  vm_compute. reflexivity.
Defined.

Example numerals_sample :
  isNumeral "0042" = true /\ decimalValue "0042" = 42 /\
  isNumeral "" = false /\ isNumeral "4 2" = false /\ isNumeral "-42" = false /\
  StringToNumber "9007199254740991" = ofZ 9007199254740991.
Proof. by vm_compute. Qed.

End PayloadFacts.
